(** * The pipeline run engine of the JD Automation front end

    A shallow embedding of the client-side run controller: the event-stream
    handler and the step-by-step fallback of the streaming front end
    ([startRunWithSSE], [startRunLegacy], [updateDashboard]), the two-phase
    controller with its review gate ([startRun], [continueAfterReview],
    [flattenFeatures]), and the fallback content builders shared by both.

    Conventions.
    - A JavaScript string is a [string]; one [ascii] stands for one code
      unit, so measured text (trimmed, cut, compared) is text in the 8-bit
      range.  The glyphs the UI puts into status texts are written as they
      are in the source; those texts are displayed and never measured.
    - A JavaScript number is a [jsnum]: NaN, an infinity, or the rational a
      finite double denotes; every arithmetic result is rounded to binary64
      by [RN].  Signed zero is not distinguished (no operation of the
      program observes it).
    - Network answers, the clock and the prompt dialog are inputs: every
      asynchronous function takes the answers it will receive as an [Env].
      An answer has the shape the backend gives it, with one exception the
      controllers depend on: the enhanced idea may come without a title.
    - Objects that the program shares (the run object that is both
      [currentRun] and an entry of [runHistory]) live in a store and are
      named by their address. *)

From Stdlib Require Import ZArith QArith Qround Qabs String Ascii List Bool Lia DecimalString.
From stdpp Require Import base option list gmap strings.

Local Open Scope Z_scope.

(** ** Strings *)

Module JSString.

(** [\s] of regular expressions and the set [String.prototype.trim] strips:
    tab, line feed, vertical tab, form feed, carriage return, space and
    no-break space (the members below U+0100). *)
Definition is_space (c : ascii) : bool :=
  let n := N_of_ascii c in
  ((n =? 9) || (n =? 10) || (n =? 11) || (n =? 12) || (n =? 13) || (n =? 32) || (n =? 160))%N.

Definition in_range (lo hi : N) (c : ascii) : bool :=
  let n := N_of_ascii c in ((lo <=? n) && (n <=? hi))%N.

Definition is_digit (c : ascii) : bool := in_range 48 57 c.
Definition is_lower (c : ascii) : bool := in_range 97 122 c.
Definition is_upper (c : ascii) : bool := in_range 65 90 c.
Definition is_alnum (c : ascii) : bool := is_digit c || is_lower c || is_upper c.
Definition is_dash (c : ascii) : bool := (N_of_ascii c =? 45)%N.

Definition is_empty (s : string) : bool :=
  match s with EmptyString => true | String _ _ => false end.

Fixpoint trimStart (s : string) : string :=
  match s with
  | EmptyString => EmptyString
  | String c s' => if is_space c then trimStart s' else s
  end.

Fixpoint trimEnd (s : string) : string :=
  match s with
  | EmptyString => EmptyString
  | String c s' =>
      let t := trimEnd s' in
      if is_space c && is_empty t then EmptyString else String c t
  end.

(** [s.trim()] *)
Definition trim (s : string) : string := trimEnd (trimStart s).

(** [s.split(d)[0]]: the text before the first [d] (all of [s] without one). *)
Fixpoint split_head (d : ascii) (s : string) : string :=
  match s with
  | EmptyString => EmptyString
  | String c s' => if Ascii.eqb c d then EmptyString else String c (split_head d s')
  end.

(** [s.substring(0, n)] *)
Fixpoint substring0 (n : nat) (s : string) : string :=
  match n, s with
  | S n', String c s' => String c (substring0 n' s')
  | _, _ => EmptyString
  end.

(** [toLowerCase] on one code unit: A-Z, and the capital letters of the
    Latin-1 block (U+00C0-U+00DE without the multiplication sign).  Code
    units beyond U+00FF are no text of the model; there JavaScript can
    lower-case to an ASCII letter (U+212A gives k), so what is stated
    about lower-cased text is stated for text in the 8-bit range. *)
Definition lower_char (c : ascii) : ascii :=
  let n := N_of_ascii c in
  if is_upper c || (in_range 192 222 c && negb (n =? 215)%N)
  then ascii_of_N (n + 32) else c.

Fixpoint toLowerCase (s : string) : string :=
  match s with
  | EmptyString => EmptyString
  | String c s' => String (lower_char c) (toLowerCase s')
  end.

(** [s.replace(/\s+/g, '-')]: [prev] tells that the run of white space the
    current position belongs to has been replaced already. *)
Fixpoint dash_spaces (prev : bool) (s : string) : string :=
  match s with
  | EmptyString => EmptyString
  | String c s' =>
      if is_space c
      then (if prev then dash_spaces true s' else String "-" (dash_spaces true s'))
      else String c (dash_spaces false s')
  end.

Fixpoint keep (p : ascii -> bool) (s : string) : string :=
  match s with
  | EmptyString => EmptyString
  | String c s' => if p c then String c (keep p s') else keep p s'
  end.

Fixpoint all_chars (p : ascii -> bool) (s : string) : bool :=
  match s with
  | EmptyString => true
  | String c s' => p c && all_chars p s'
  end.

Definition first_char (s : string) : option ascii :=
  match s with EmptyString => None | String c _ => Some c end.

Fixpoint last_char (s : string) : option ascii :=
  match s with
  | EmptyString => None
  | String c EmptyString => Some c
  | String _ s' => last_char s'
  end.

(** [s.includes('--')] *)
Fixpoint has_double_dash (s : string) : bool :=
  match s with
  | String a ((String b _) as s') => (is_dash a && is_dash b) || has_double_dash s'
  | _ => false
  end.

(** [s || d] on strings: the empty string is falsy. *)
Definition or_else (s d : string) : string := if is_empty s then d else s.

End JSString.

(** ** Numbers *)

Module JSNumber.

Inductive jsnum := NaN | Inf (negative : bool) | Fin (q : Q).

Definition pow2 (e : Z) : Q := Qpower 2 e.
Definition pow10 (e : Z) : Q := Qpower 10 e.

(** Decimal digits of a non-negative integer. *)
Definition dec (z : Z) : string := NilZero.string_of_uint (N.to_uint (Z.to_N z)).

(** [floor (log2 q)] and [floor (log10 q)] for [q > 0]: the difference of
    the sizes of numerator and denominator is that, or one more. *)
Definition ilog2 (q : Q) : Z :=
  let e := Z.log2 (Qnum q) - Z.log2 (Zpos (Qden q)) in
  if Qle_bool (pow2 e) q then e else e - 1.

Definition ilog10 (q : Q) : Z :=
  let e := Z.of_nat (String.length (dec (Qnum q)))
           - Z.of_nat (String.length (dec (Zpos (Qden q)))) in
  if Qle_bool (pow10 e) q then e else e - 1.

(** Nearest integer to [r >= 0], a tie going to the even one. *)
Definition round_half_even (r : Q) : Z :=
  let f := Qfloor r in
  match Qcompare (r - inject_Z f)%Q (1 # 2)%Q with
  | Lt => f
  | Gt => f + 1
  | Eq => if Z.even f then f else f + 1
  end.

(** Round to nearest binary64, ties to even: 53 significant bits, the
    exponent of the last place no smaller than -1074, overflow to infinity. *)
Definition RNpos (q : Q) : jsnum :=
  let t := Z.max (ilog2 q - 52) (-1074) in
  let v := Qred (inject_Z (round_half_even (q / pow2 t)%Q) * pow2 t)%Q in
  if Qle_bool (pow2 1024) v then Inf false else Fin v.

Definition neg (x : jsnum) : jsnum :=
  match x with
  | NaN => NaN
  | Inf b => Inf (negb b)
  | Fin q => Fin (Qred (- q)%Q)
  end.

Definition RN (q : Q) : jsnum :=
  match Qcompare q 0%Q with
  | Eq => Fin 0%Q
  | Gt => RNpos q
  | Lt => neg (RNpos (- q)%Q)
  end.

Definition of_Z (z : Z) : jsnum := RN (inject_Z z).

Definition is_nan (x : jsnum) : bool :=
  match x with NaN => true | _ => false end.

(** [x + y] and [x / y] on numbers. *)
Definition add (x y : jsnum) : jsnum :=
  match x, y with
  | NaN, _ | _, NaN => NaN
  | Inf a, Inf b => if Bool.eqb a b then Inf a else NaN
  | Inf a, Fin _ | Fin _, Inf a => Inf a
  | Fin a, Fin b => RN (a + b)%Q
  end.

Definition is_negative (q : Q) : bool :=
  match Qcompare q 0%Q with Lt => true | _ => false end.

Definition div (x y : jsnum) : jsnum :=
  match x, y with
  | NaN, _ | _, NaN => NaN
  | Inf _, Inf _ => NaN
  | Inf a, Fin b => Inf (xorb a (is_negative b))
  | Fin _, Inf _ => Fin 0%Q
  | Fin a, Fin b =>
      match Qcompare b 0%Q with
      | Eq => match Qcompare a 0%Q with Eq => NaN | Gt => Inf false | Lt => Inf true end
      | _ => RN (a / b)%Q
      end
  end.

(** [Math.max(x, y)] *)
Definition max (x y : jsnum) : jsnum :=
  match x, y with
  | NaN, _ | _, NaN => NaN
  | Inf false, _ | _, Inf false => Inf false
  | Inf true, z | z, Inf true => z
  | Fin a, Fin b => if Qle_bool a b then Fin b else Fin a
  end.

(** *** Number::toString

    The shortest decimal [s * 10^p] that rounds to the number: for each
    count [k] of digits the two [k]-digit neighbours of [x] are tried, the
    nearer one (the even one on a tie) winning. *)
Definition rounds_to (v x : Q) : bool :=
  match RN v with Fin y => Qeq_bool y x | _ => false end.

Definition candidate (x : Q) (n0 k : Z) : option (Z * Z) :=
  let p := n0 - k in
  let lo := Qfloor (x / pow10 p)%Q in
  let hi := lo + 1 in
  let vlo := (inject_Z lo * pow10 p)%Q in
  let vhi := (inject_Z hi * pow10 p)%Q in
  match rounds_to vlo x, rounds_to vhi x with
  | false, false => None
  | true, false => Some (lo, p)
  | false, true => Some (hi, p)
  | true, true =>
      match Qcompare (Qabs (vlo - x)%Q) (Qabs (vhi - x)%Q) with
      | Lt => Some (lo, p)
      | Gt => Some (hi, p)
      | Eq => Some (if Z.even lo then lo else hi, p)
      end
  end.

Fixpoint shortest (x : Q) (n0 k : Z) (fuel : nat) : Z * Z :=
  match fuel with
  | O => (Qfloor (x / pow10 (n0 - k))%Q, n0 - k)
  | S fuel' =>
      match candidate x n0 k with
      | Some sp => sp
      | None => shortest x n0 (k + 1) fuel'
      end
  end.

Fixpoint strip10 (fuel : nat) (s p : Z) : Z * Z :=
  match fuel with
  | O => (s, p)
  | S fuel' =>
      if (s mod 10 =? 0) && (0 <? s) then strip10 fuel' (s / 10) (p + 1) else (s, p)
  end.

Fixpoint zeros (n : nat) : string :=
  match n with O => EmptyString | S n' => String "0" (zeros n') end.

Definition take_s (n : nat) (s : string) : string := String.substring 0 n s.
Definition drop_s (n : nat) (s : string) : string :=
  String.substring n (String.length s - n) s.

Definition toStringPos (x : Q) : string :=
  let n0 := ilog10 x + 1 in
  let '(s0, p0) := shortest x n0 1 17 in
  let '(s, p) := strip10 40 s0 p0 in
  let ds := dec s in
  let k := Z.of_nat (String.length ds) in
  let n := p + k in
  if (k <=? n) && (n <=? 21) then ds +:+ zeros (Z.to_nat (n - k))
  else if (0 <? n) && (n <=? 21)
       then take_s (Z.to_nat n) ds +:+ "." +:+ drop_s (Z.to_nat n) ds
  else if (-6 <? n) && (n <=? 0) then "0." +:+ zeros (Z.to_nat (- n)) +:+ ds
  else
    let e := n - 1 in
    let es := (if e <? 0 then "-" else "+") +:+ dec (Z.abs e) in
    if k =? 1 then ds +:+ "e" +:+ es
    else take_s 1 ds +:+ "." +:+ drop_s 1 ds +:+ "e" +:+ es.

Definition toString (x : jsnum) : string :=
  match x with
  | NaN => "NaN"
  | Inf false => "Infinity"
  | Inf true => "-Infinity"
  | Fin q =>
      match Qcompare q 0%Q with
      | Eq => "0"
      | Gt => toStringPos q
      | Lt => "-" +:+ toStringPos (- q)%Q
      end
  end.

(** [x.toFixed(1)]: the integer [n] with [n / 10] nearest to [|x|] (the
    larger one on a tie), printed with one digit after the point; the
    general notation from 10^21 on and for NaN and the infinities. *)
Definition toFixed1 (x : jsnum) : string :=
  match x with
  | Fin q =>
      let a := Qabs q in
      let sg := if is_negative q then "-" else "" in
      if Qle_bool (pow10 21) a then sg +:+ toStringPos a
      else
        let n := Qfloor (a * 10 + (1 # 2))%Q in
        let m := dec n in
        let m := if (String.length m <=? 1)%nat then "0" +:+ m else m in
        let k := String.length m in
        sg +:+ take_s (k - 1) m +:+ "." +:+ drop_s (k - 1) m
  | _ => toString x
  end.

(** *** StringToNumber

    White space is trimmed; the empty string is 0; [0x], [0o] and [0b]
    introduce an unsigned integer in that radix; otherwise an optional
    sign, then [Infinity] or decimal digits with an optional point and an
    optional exponent.  Anything else is NaN. *)
Definition digit_val (radix : Z) (c : ascii) : option Z :=
  let n := Z.of_N (N_of_ascii c) in
  let v := if (48 <=? n) && (n <=? 57) then n - 48
           else if (97 <=? n) && (n <=? 102) then n - 87
           else if (65 <=? n) && (n <=? 70) then n - 55
           else radix in
  if v <? radix then Some v else None.

(** The digits at the head of [s]: their value after [acc], their count,
    and the rest of the string. *)
Fixpoint span_digits (radix : Z) (s : string) (acc : Z) (cnt : Z) : Z * Z * string :=
  match s with
  | EmptyString => (acc, cnt, EmptyString)
  | String c s' =>
      match digit_val radix c with
      | Some d => span_digits radix s' (acc * radix + d) (cnt + 1)
      | None => (acc, cnt, s)
      end
  end.

Definition parse_radix (radix : Z) (s : string) : jsnum :=
  match span_digits radix s 0 0 with
  | (v, cnt, EmptyString) => if 0 <? cnt then of_Z v else NaN
  | _ => NaN
  end.

Definition parse_sign (s : string) : bool * string :=
  match s with
  | String "-" s' => (true, s')
  | String "+" s' => (false, s')
  | _ => (false, s)
  end.

Definition parse_exponent (s : string) : option Z :=
  match s with
  | EmptyString => Some 0
  | String c s' =>
      if Ascii.eqb c "e" || Ascii.eqb c "E" then
        let '(sg, ds) := parse_sign s' in
        match span_digits 10 ds 0 0 with
        | (v, cnt, EmptyString) => if 0 <? cnt then Some (if sg then - v else v) else None
        | _ => None
        end
      else None
  end.

Definition parse_unsigned_decimal (s : string) : option Q :=
  let '(i, ni, r1) := span_digits 10 s 0 0 in
  let '(f, nf, r2) :=
    match r1 with
    | String "." r => span_digits 10 r i 0
    | _ => (i, 0, r1)
    end in
  if 0 <? ni + nf then
    match parse_exponent r2 with
    | Some e => Some (inject_Z f * pow10 (e - nf))%Q
    | None => None
    end
  else None.

Definition StringToNumber (s : string) : jsnum :=
  let t := JSString.trim s in
  match t with
  | EmptyString => Fin 0%Q
  | String "0" (String "x" r) | String "0" (String "X" r) => parse_radix 16 r
  | String "0" (String "o" r) | String "0" (String "O" r) => parse_radix 8 r
  | String "0" (String "b" r) | String "0" (String "B" r) => parse_radix 2 r
  | _ =>
      let '(sg, u) := parse_sign t in
      if String.eqb u "Infinity" then Inf sg
      else match parse_unsigned_decimal u with
           | Some q => if sg then neg (RN q) else RN q
           | None => NaN
           end
  end.

End JSNumber.

(** ** Values *)

Module JSValue.
Import JSNumber.

(** The values the dashboard arithmetic meets: a property that is absent
    reads as [undefined]. *)
Inductive jsval := VUndef | VNum (x : jsnum) | VStr (s : string).

Definition truthy (v : jsval) : bool :=
  match v with
  | VUndef => false
  | VNum NaN => false
  | VNum (Fin q) => negb (Qeq_bool q 0%Q)
  | VNum (Inf _) => true
  | VStr s => negb (JSString.is_empty s)
  end.

(** [a || b] *)
Definition or (a b : jsval) : jsval := if truthy a then a else b.

Definition ToNumber (v : jsval) : jsnum :=
  match v with
  | VUndef => NaN
  | VNum x => x
  | VStr s => StringToNumber s
  end.

Definition ToString (v : jsval) : string :=
  match v with
  | VUndef => "undefined"
  | VNum x => toString x
  | VStr s => s
  end.

(** [a + b]: concatenation as soon as one operand is a string. *)
Definition plus (a b : jsval) : jsval :=
  match a, b with
  | VStr _, _ | _, VStr _ => VStr (ToString a +:+ ToString b)
  | _, _ => VNum (add (ToNumber a) (ToNumber b))
  end.

(** [a / b] *)
Definition divide (a b : jsval) : jsval := VNum (div (ToNumber a) (ToNumber b)).

Definition of_string (o : option string) : jsval :=
  match o with Some s => VStr s | None => VUndef end.

Definition of_nat (n : nat) : jsval := VNum (of_Z (Z.of_nat n)).

End JSValue.

(** ** Data model *)

(** [o || d] for a string property that may be absent. *)
Definition str_or (o : option string) (d : string) : string :=
  match o with Some s => JSString.or_else s d | None => d end.

(** A text inside a template literal; an absent one reads [undefined]. *)
Definition show_str (o : option string) : string :=
  match o with Some s => s | None => "undefined" end.

(** Truthiness of a property that holds text, a count or a flag. *)
Definition truthy_str (o : option string) : bool :=
  match o with Some s => negb (JSString.is_empty s) | None => false end.

Definition truthy_count (o : option nat) : bool :=
  match o with Some n => negb (Nat.eqb n 0) | None => false end.

Definition truthy_flag (o : option bool) : bool :=
  match o with Some b => b | None => false end.

(** [o || []] for an array property that may be absent. *)
Definition list_or_empty {A} (o : option (list A)) : list A :=
  match o with Some l => l | None => [] end.

(** *** The PRD tree *)

Record Feature := {
  feat_name : string;
  feat_description : option string;
  feat_complexity : option string
}.

Record Story := {
  story_title : string;
  story_text : string;
  acceptance_criteria : list string;
  features : option (list Feature)
}.

Record Epic := {
  epic_name : string;
  epic_description : string;
  priority : option string;
  user_stories : option (list Story)
}.

Record ProductOverview := {
  vision : string;
  goals : list string;
  success_metrics : list string
}.

Record PRD := {
  product_overview : option ProductOverview;
  epics : option (list Epic)
}.

(** An entry of the flattened feature list. *)
Record FeatureRef := {
  epic : string;
  epicPriority : string;
  story : string;
  name : string;
  description : string;
  complexity : string
}.

Record TechStack := {
  frontend : list string;
  backend : list string;
  database : list string;
  infrastructure : list string
}.

(** The enhanced idea a run works on.  The controllers take whatever
    truthy [enhanced_idea] the backend answers, so the title, the one
    property they call a method on, may be missing: [None] is an answer
    without a title.  [buildFallbackEnhancedIdea] always gives one. *)
Record EnhancedIdea := {
  title : option string;
  idea_description : string;
  target_users : string;
  problem_statement : string;
  key_value_props : list string;
  suggested_tech_stack : TechStack
}.

(** What [generatePRDAPI] answers and what [buildFallbackPRD] returns (the
    latter without [success] and [message]). *)
Record PrdResult := {
  prd_success : bool;
  prd_tree : option PRD;
  prd_markdown : option string;
  prd_message : option string
}.

Record EnhanceResult := {
  enhance_success : bool;
  enhanced_idea : option EnhancedIdea;
  enhance_message : option string
}.

(** *** Fallback content *)

Definition newline : ascii := ascii_of_N 10.

Definition buildFallbackEnhancedIdea (appIdea techPrefs : string) : EnhancedIdea :=
  let title :=
    JSString.or_else
      (JSString.substring0 80
         (JSString.split_head newline (JSString.split_head "." (JSString.trim appIdea))))
      "Application Project" in
  {| title := Some title;
     idea_description := appIdea;
     target_users := "End users who need the described functionality";
     problem_statement := JSString.substring0 200 appIdea;
     key_value_props := ["Solves the core need"; "Modern architecture"; "Production-ready"];
     suggested_tech_stack :=
       {| frontend := ["React"; "TypeScript"];
          backend := ["Python"; "FastAPI"];
          database := ["PostgreSQL"];
          infrastructure := ["Docker"] |} |}.

Definition two_newlines : string := String newline (String newline EmptyString).

Definition buildFallbackPRD (enhancedIdea : EnhancedIdea) : PrdResult :=
  {| prd_success := false;
     prd_message := None;
     prd_tree := Some
       {| product_overview := Some
            {| vision := "Build " +:+ show_str (title enhancedIdea);
               goals := ["Deliver core functionality"; "Clean codebase"; "Good documentation"];
               success_metrics := ["All features implemented"; "App runs without errors"] |};
          epics := Some
            [ {| epic_name := "Project Foundation";
                 epic_description := "Project setup and structure";
                 priority := Some "P0";
                 user_stories := Some
                   [ {| story_title := "Project Setup";
                        story_text := "As a developer, I want a structured project so I can develop efficiently";
                        acceptance_criteria := ["Project structure follows best practices"];
                        features := Some
                          [ {| feat_name := "Scaffolding";
                               feat_description := Some "Create project structure";
                               feat_complexity := Some "S" |} ] |} ] |};
              {| epic_name := "Core Features";
                 epic_description := "Primary application functionality";
                 priority := Some "P0";
                 user_stories := Some
                   [ {| story_title := "Core Logic";
                        story_text := "As a user, I want the main features so I can accomplish my goals";
                        acceptance_criteria := ["Core functionality works"; "Error handling in place"];
                        features := Some
                          [ {| feat_name := "Business logic";
                               feat_description := Some "Main features";
                               feat_complexity := Some "L" |};
                            {| feat_name := "UI";
                               feat_description := Some "User-facing interface";
                               feat_complexity := Some "M" |} ] |} ] |};
              {| epic_name := "Data Layer";
                 epic_description := "Data storage and access";
                 priority := Some "P0";
                 user_stories := Some
                   [ {| story_title := "Data Persistence";
                        story_text := "As a user, I want data to persist so I can access it later";
                        acceptance_criteria := ["Data stored reliably"; "CRUD operations work"];
                        features := Some
                          [ {| feat_name := "Database";
                               feat_description := Some "Data models and access";
                               feat_complexity := Some "M" |} ] |} ] |};
              {| epic_name := "Testing";
                 epic_description := "Automated testing";
                 priority := Some "P1";
                 user_stories := Some
                   [ {| story_title := "Automated Tests";
                        story_text := "As a developer, I want tests so I can refactor safely";
                        acceptance_criteria := ["Tests cover core logic"];
                        features := Some
                          [ {| feat_name := "Unit tests";
                               feat_description := Some "Test core modules";
                               feat_complexity := Some "M" |} ] |} ] |} ] |};
     prd_markdown := Some
       ("# PRD: " +:+ show_str (title enhancedIdea) +:+ two_newlines
        +:+ idea_description enhancedIdea +:+ two_newlines +:+ "(Simulated PRD — Gemini API not available)") |}.

(** *** Counting and flattening

    Both functions are the loops of the source: an accumulator carried
    through the epics, their stories and their features, in that order. *)
Definition countFeatures (prd : PRD) : nat :=
  fold_left
    (fun count epic =>
       fold_left
         (fun count story => (count + length (list_or_empty (features story)))%nat)
         (list_or_empty (user_stories epic)) count)
    (list_or_empty (epics prd)) 0%nat.

Definition featureRef (ep : Epic) (st : Story) (feat : Feature) : FeatureRef :=
  {| epic := epic_name ep;
     epicPriority := str_or (priority ep) "P1";
     story := story_title st;
     name := feat_name feat;
     description := str_or (feat_description feat) "";
     complexity := str_or (feat_complexity feat) "M" |}.

Definition flattenFeatures (prd : PRD) : list FeatureRef :=
  fold_left
    (fun feats ep =>
       fold_left
         (fun feats st =>
            fold_left
              (fun feats feat => feats ++ [featureRef ep st feat])
              (list_or_empty (features st)) feats)
         (list_or_empty (user_stories ep)) feats)
    (list_or_empty (epics prd)) [].

(** [allFeatures.filter((_, i) => selectedIndices.includes(i))]: [i] is the
    index of the element at the head of [l]. *)
Fixpoint filter_index {A} (p : nat -> bool) (i : nat) (l : list A) : list A :=
  match l with
  | [] => []
  | x :: l' => if p i then x :: filter_index p (S i) l' else filter_index p (S i) l'
  end.

Definition includes (l : list nat) (i : nat) : bool := existsb (Nat.eqb i) l.

Definition selection {A} (selectedIndices : list nat) (allFeatures : list A) : list A :=
  filter_index (includes selectedIndices) 0 allFeatures.

(** ** Runs, the page and the effects *)

(** A run object.  A property that has not been assigned is [None]. *)
Record Run := {
  run_id : string;
  timestamp : string;
  status : string;
  startTime : option Z;
  apiRunning : option bool;
  projectTitle : option string;
  run_description : option string;
  enhancedIdea : option EnhancedIdea;
  prd : option PRD;
  prdMarkdown : option string;
  epicsCount : option nat;
  featuresCount : option nat;
  repoUrl : option string;
  repoFullName : option string;
  repoCreated : option bool;
  selectedFeatures : option (list FeatureRef);
  elapsedTime : option string;
  error : option string
}.

(** [{ id, timestamp, status: 'running' }] *)
Definition new_run (id ts : string) : Run :=
  {| run_id := id; timestamp := ts; status := "running";
     startTime := None; apiRunning := None; projectTitle := None;
     run_description := None; enhancedIdea := None; prd := None;
     prdMarkdown := None; epicsCount := None; featuresCount := None;
     repoUrl := None; repoFullName := None; repoCreated := None;
     selectedFeatures := None; elapsedTime := None; error := None |}.

(** Assignments [run.p = v], one function per property the program assigns. *)
Definition set_run_id (v : string) (r : Run) : Run :=
  {| run_id := v; timestamp := timestamp r; status := status r; startTime := startTime r;
     apiRunning := apiRunning r; projectTitle := projectTitle r;
     run_description := run_description r; enhancedIdea := enhancedIdea r; prd := prd r;
     prdMarkdown := prdMarkdown r; epicsCount := epicsCount r;
     featuresCount := featuresCount r; repoUrl := repoUrl r;
     repoFullName := repoFullName r; repoCreated := repoCreated r;
     selectedFeatures := selectedFeatures r; elapsedTime := elapsedTime r; error := error r |}.

Definition set_status (v : string) (r : Run) : Run :=
  {| run_id := run_id r; timestamp := timestamp r; status := v; startTime := startTime r;
     apiRunning := apiRunning r; projectTitle := projectTitle r;
     run_description := run_description r; enhancedIdea := enhancedIdea r; prd := prd r;
     prdMarkdown := prdMarkdown r; epicsCount := epicsCount r;
     featuresCount := featuresCount r; repoUrl := repoUrl r;
     repoFullName := repoFullName r; repoCreated := repoCreated r;
     selectedFeatures := selectedFeatures r; elapsedTime := elapsedTime r; error := error r |}.

Definition set_startTime (v : option Z) (r : Run) : Run :=
  {| run_id := run_id r; timestamp := timestamp r; status := status r; startTime := v;
     apiRunning := apiRunning r; projectTitle := projectTitle r;
     run_description := run_description r; enhancedIdea := enhancedIdea r; prd := prd r;
     prdMarkdown := prdMarkdown r; epicsCount := epicsCount r;
     featuresCount := featuresCount r; repoUrl := repoUrl r;
     repoFullName := repoFullName r; repoCreated := repoCreated r;
     selectedFeatures := selectedFeatures r; elapsedTime := elapsedTime r; error := error r |}.

Definition set_apiRunning (v : option bool) (r : Run) : Run :=
  {| run_id := run_id r; timestamp := timestamp r; status := status r;
     startTime := startTime r; apiRunning := v; projectTitle := projectTitle r;
     run_description := run_description r; enhancedIdea := enhancedIdea r; prd := prd r;
     prdMarkdown := prdMarkdown r; epicsCount := epicsCount r;
     featuresCount := featuresCount r; repoUrl := repoUrl r;
     repoFullName := repoFullName r; repoCreated := repoCreated r;
     selectedFeatures := selectedFeatures r; elapsedTime := elapsedTime r; error := error r |}.

Definition set_projectTitle (v : option string) (r : Run) : Run :=
  {| run_id := run_id r; timestamp := timestamp r; status := status r;
     startTime := startTime r; apiRunning := apiRunning r; projectTitle := v;
     run_description := run_description r; enhancedIdea := enhancedIdea r; prd := prd r;
     prdMarkdown := prdMarkdown r; epicsCount := epicsCount r;
     featuresCount := featuresCount r; repoUrl := repoUrl r;
     repoFullName := repoFullName r; repoCreated := repoCreated r;
     selectedFeatures := selectedFeatures r; elapsedTime := elapsedTime r; error := error r |}.

Definition set_run_description (v : option string) (r : Run) : Run :=
  {| run_id := run_id r; timestamp := timestamp r; status := status r;
     startTime := startTime r; apiRunning := apiRunning r; projectTitle := projectTitle r;
     run_description := v; enhancedIdea := enhancedIdea r; prd := prd r;
     prdMarkdown := prdMarkdown r; epicsCount := epicsCount r;
     featuresCount := featuresCount r; repoUrl := repoUrl r;
     repoFullName := repoFullName r; repoCreated := repoCreated r;
     selectedFeatures := selectedFeatures r; elapsedTime := elapsedTime r; error := error r |}.

Definition set_enhancedIdea (v : option EnhancedIdea) (r : Run) : Run :=
  {| run_id := run_id r; timestamp := timestamp r; status := status r;
     startTime := startTime r; apiRunning := apiRunning r; projectTitle := projectTitle r;
     run_description := run_description r; enhancedIdea := v; prd := prd r;
     prdMarkdown := prdMarkdown r; epicsCount := epicsCount r;
     featuresCount := featuresCount r; repoUrl := repoUrl r;
     repoFullName := repoFullName r; repoCreated := repoCreated r;
     selectedFeatures := selectedFeatures r; elapsedTime := elapsedTime r; error := error r |}.

Definition set_prd (v : option PRD) (r : Run) : Run :=
  {| run_id := run_id r; timestamp := timestamp r; status := status r;
     startTime := startTime r; apiRunning := apiRunning r; projectTitle := projectTitle r;
     run_description := run_description r; enhancedIdea := enhancedIdea r; prd := v;
     prdMarkdown := prdMarkdown r; epicsCount := epicsCount r;
     featuresCount := featuresCount r; repoUrl := repoUrl r;
     repoFullName := repoFullName r; repoCreated := repoCreated r;
     selectedFeatures := selectedFeatures r; elapsedTime := elapsedTime r; error := error r |}.

Definition set_prdMarkdown (v : option string) (r : Run) : Run :=
  {| run_id := run_id r; timestamp := timestamp r; status := status r;
     startTime := startTime r; apiRunning := apiRunning r; projectTitle := projectTitle r;
     run_description := run_description r; enhancedIdea := enhancedIdea r; prd := prd r;
     prdMarkdown := v; epicsCount := epicsCount r; featuresCount := featuresCount r;
     repoUrl := repoUrl r; repoFullName := repoFullName r; repoCreated := repoCreated r;
     selectedFeatures := selectedFeatures r; elapsedTime := elapsedTime r; error := error r |}.

Definition set_epicsCount (v : option nat) (r : Run) : Run :=
  {| run_id := run_id r; timestamp := timestamp r; status := status r;
     startTime := startTime r; apiRunning := apiRunning r; projectTitle := projectTitle r;
     run_description := run_description r; enhancedIdea := enhancedIdea r; prd := prd r;
     prdMarkdown := prdMarkdown r; epicsCount := v; featuresCount := featuresCount r;
     repoUrl := repoUrl r; repoFullName := repoFullName r; repoCreated := repoCreated r;
     selectedFeatures := selectedFeatures r; elapsedTime := elapsedTime r; error := error r |}.

Definition set_featuresCount (v : option nat) (r : Run) : Run :=
  {| run_id := run_id r; timestamp := timestamp r; status := status r;
     startTime := startTime r; apiRunning := apiRunning r; projectTitle := projectTitle r;
     run_description := run_description r; enhancedIdea := enhancedIdea r; prd := prd r;
     prdMarkdown := prdMarkdown r; epicsCount := epicsCount r; featuresCount := v;
     repoUrl := repoUrl r; repoFullName := repoFullName r; repoCreated := repoCreated r;
     selectedFeatures := selectedFeatures r; elapsedTime := elapsedTime r; error := error r |}.

Definition set_repoUrl (v : option string) (r : Run) : Run :=
  {| run_id := run_id r; timestamp := timestamp r; status := status r;
     startTime := startTime r; apiRunning := apiRunning r; projectTitle := projectTitle r;
     run_description := run_description r; enhancedIdea := enhancedIdea r; prd := prd r;
     prdMarkdown := prdMarkdown r; epicsCount := epicsCount r;
     featuresCount := featuresCount r; repoUrl := v; repoFullName := repoFullName r;
     repoCreated := repoCreated r; selectedFeatures := selectedFeatures r;
     elapsedTime := elapsedTime r; error := error r |}.

Definition set_repoFullName (v : option string) (r : Run) : Run :=
  {| run_id := run_id r; timestamp := timestamp r; status := status r;
     startTime := startTime r; apiRunning := apiRunning r; projectTitle := projectTitle r;
     run_description := run_description r; enhancedIdea := enhancedIdea r; prd := prd r;
     prdMarkdown := prdMarkdown r; epicsCount := epicsCount r;
     featuresCount := featuresCount r; repoUrl := repoUrl r; repoFullName := v;
     repoCreated := repoCreated r; selectedFeatures := selectedFeatures r;
     elapsedTime := elapsedTime r; error := error r |}.

Definition set_repoCreated (v : option bool) (r : Run) : Run :=
  {| run_id := run_id r; timestamp := timestamp r; status := status r;
     startTime := startTime r; apiRunning := apiRunning r; projectTitle := projectTitle r;
     run_description := run_description r; enhancedIdea := enhancedIdea r; prd := prd r;
     prdMarkdown := prdMarkdown r; epicsCount := epicsCount r;
     featuresCount := featuresCount r; repoUrl := repoUrl r;
     repoFullName := repoFullName r; repoCreated := v;
     selectedFeatures := selectedFeatures r; elapsedTime := elapsedTime r; error := error r |}.

Definition set_selectedFeatures (v : option (list FeatureRef)) (r : Run) : Run :=
  {| run_id := run_id r; timestamp := timestamp r; status := status r;
     startTime := startTime r; apiRunning := apiRunning r; projectTitle := projectTitle r;
     run_description := run_description r; enhancedIdea := enhancedIdea r; prd := prd r;
     prdMarkdown := prdMarkdown r; epicsCount := epicsCount r;
     featuresCount := featuresCount r; repoUrl := repoUrl r;
     repoFullName := repoFullName r; repoCreated := repoCreated r; selectedFeatures := v;
     elapsedTime := elapsedTime r; error := error r |}.

Definition set_elapsedTime (v : option string) (r : Run) : Run :=
  {| run_id := run_id r; timestamp := timestamp r; status := status r;
     startTime := startTime r; apiRunning := apiRunning r; projectTitle := projectTitle r;
     run_description := run_description r; enhancedIdea := enhancedIdea r; prd := prd r;
     prdMarkdown := prdMarkdown r; epicsCount := epicsCount r;
     featuresCount := featuresCount r; repoUrl := repoUrl r;
     repoFullName := repoFullName r; repoCreated := repoCreated r;
     selectedFeatures := selectedFeatures r; elapsedTime := v; error := error r |}.

Definition set_error (v : option string) (r : Run) : Run :=
  {| run_id := run_id r; timestamp := timestamp r; status := status r;
     startTime := startTime r; apiRunning := apiRunning r; projectTitle := projectTitle r;
     run_description := run_description r; enhancedIdea := enhancedIdea r; prd := prd r;
     prdMarkdown := prdMarkdown r; epicsCount := epicsCount r;
     featuresCount := featuresCount r; repoUrl := repoUrl r;
     repoFullName := repoFullName r; repoCreated := repoCreated r;
     selectedFeatures := selectedFeatures r; elapsedTime := elapsedTime r; error := v |}.

Record Settings := {
  geminiKey : option string;
  githubToken : option string;
  githubUsername : option string;
  anthropicKey : option string;
  privateRepos : option bool
}.

Definition set_githubUsername (v : option string) (r : Settings) : Settings :=
  {| geminiKey := geminiKey r; githubToken := githubToken r; githubUsername := v;
     anthropicKey := anthropicKey r; privateRepos := privateRepos r |}.

(** *** The page

    The step elements carry a class and a status text; the width of the
    progress bar is the value handed to [updateProgress]; the status line
    is a text or one of the coloured messages the program writes. *)
Inductive width :=
| Percent (n : Z)
| PercentNaN
| PercentObject.

Inductive status_line :=
| StatusText (s : string)
| StatusPipelineFailed (detail : string)
| StatusRunError (message : string)
| StatusReviewPrompt
| StatusBuildCompleted (elapsed : option string).

(** The figures [updateDashboard] writes: the two counts, the value of
    [avgTime] (shown followed by the letter s), the feature total, and the
    runs listed as recent. *)
Record Dashboard := {
  total_runs : nat;
  successful_runs : nat;
  avg_time : JSValue.jsval;
  total_features : nat;
  recent_runs : list Run
}.

Record Dom := {
  steps : gmap string (string * string);
  overall_progress : width;
  current_status : status_line;
  display : gmap string bool;
  prd_preview_content : option string;
  enhanced_idea_summary : option EnhancedIdea;
  feature_checklist : list (nat * bool);
  results_content : option Run;
  dashboard : Dashboard;
  idea_input : string;
  tech_preferences : string
}.

Definition set_steps (v : gmap string (string * string)) (r : Dom) : Dom :=
  {| steps := v; overall_progress := overall_progress r;
     current_status := current_status r; display := display r;
     prd_preview_content := prd_preview_content r;
     enhanced_idea_summary := enhanced_idea_summary r;
     feature_checklist := feature_checklist r; results_content := results_content r;
     dashboard := dashboard r; idea_input := idea_input r;
     tech_preferences := tech_preferences r |}.

Definition set_overall_progress (v : width) (r : Dom) : Dom :=
  {| steps := steps r; overall_progress := v; current_status := current_status r;
     display := display r; prd_preview_content := prd_preview_content r;
     enhanced_idea_summary := enhanced_idea_summary r;
     feature_checklist := feature_checklist r; results_content := results_content r;
     dashboard := dashboard r; idea_input := idea_input r;
     tech_preferences := tech_preferences r |}.

Definition set_current_status (v : status_line) (r : Dom) : Dom :=
  {| steps := steps r; overall_progress := overall_progress r; current_status := v;
     display := display r; prd_preview_content := prd_preview_content r;
     enhanced_idea_summary := enhanced_idea_summary r;
     feature_checklist := feature_checklist r; results_content := results_content r;
     dashboard := dashboard r; idea_input := idea_input r;
     tech_preferences := tech_preferences r |}.

Definition set_display (v : gmap string bool) (r : Dom) : Dom :=
  {| steps := steps r; overall_progress := overall_progress r;
     current_status := current_status r; display := v;
     prd_preview_content := prd_preview_content r;
     enhanced_idea_summary := enhanced_idea_summary r;
     feature_checklist := feature_checklist r; results_content := results_content r;
     dashboard := dashboard r; idea_input := idea_input r;
     tech_preferences := tech_preferences r |}.

Definition set_prd_preview_content (v : option string) (r : Dom) : Dom :=
  {| steps := steps r; overall_progress := overall_progress r;
     current_status := current_status r; display := display r; prd_preview_content := v;
     enhanced_idea_summary := enhanced_idea_summary r;
     feature_checklist := feature_checklist r; results_content := results_content r;
     dashboard := dashboard r; idea_input := idea_input r;
     tech_preferences := tech_preferences r |}.

Definition set_enhanced_idea_summary (v : option EnhancedIdea) (r : Dom) : Dom :=
  {| steps := steps r; overall_progress := overall_progress r;
     current_status := current_status r; display := display r;
     prd_preview_content := prd_preview_content r; enhanced_idea_summary := v;
     feature_checklist := feature_checklist r; results_content := results_content r;
     dashboard := dashboard r; idea_input := idea_input r;
     tech_preferences := tech_preferences r |}.

Definition set_feature_checklist (v : list (nat * bool)) (r : Dom) : Dom :=
  {| steps := steps r; overall_progress := overall_progress r;
     current_status := current_status r; display := display r;
     prd_preview_content := prd_preview_content r;
     enhanced_idea_summary := enhanced_idea_summary r; feature_checklist := v;
     results_content := results_content r; dashboard := dashboard r;
     idea_input := idea_input r; tech_preferences := tech_preferences r |}.

Definition set_results_content (v : option Run) (r : Dom) : Dom :=
  {| steps := steps r; overall_progress := overall_progress r;
     current_status := current_status r; display := display r;
     prd_preview_content := prd_preview_content r;
     enhanced_idea_summary := enhanced_idea_summary r;
     feature_checklist := feature_checklist r; results_content := v;
     dashboard := dashboard r; idea_input := idea_input r;
     tech_preferences := tech_preferences r |}.

Definition set_dashboard (v : Dashboard) (r : Dom) : Dom :=
  {| steps := steps r; overall_progress := overall_progress r;
     current_status := current_status r; display := display r;
     prd_preview_content := prd_preview_content r;
     enhanced_idea_summary := enhanced_idea_summary r;
     feature_checklist := feature_checklist r; results_content := results_content r;
     dashboard := v; idea_input := idea_input r; tech_preferences := tech_preferences r |}.

Definition set_idea_input (v : string) (r : Dom) : Dom :=
  {| steps := steps r; overall_progress := overall_progress r;
     current_status := current_status r; display := display r;
     prd_preview_content := prd_preview_content r;
     enhanced_idea_summary := enhanced_idea_summary r;
     feature_checklist := feature_checklist r; results_content := results_content r;
     dashboard := dashboard r; idea_input := v; tech_preferences := tech_preferences r |}.

Definition set_tech_preferences (v : string) (r : Dom) : Dom :=
  {| steps := steps r; overall_progress := overall_progress r;
     current_status := current_status r; display := display r;
     prd_preview_content := prd_preview_content r;
     enhanced_idea_summary := enhanced_idea_summary r;
     feature_checklist := feature_checklist r; results_content := results_content r;
     dashboard := dashboard r; idea_input := idea_input r; tech_preferences := v |}.

(** The ids of the step elements of the page. *)
Definition step_elements : list string :=
  ["step-enhance"; "step-prd"; "step-github"; "step-features"; "step-implement"; "step-publish"].

(** *** Requests and other effects *)

Inductive Request :=
| PostRun (gemini_key github_token github_username app_idea : string)
          (tech_preferences : option string) (private : bool)
| GetRun (id : string)
| GetHealth
| PostValidateToken (token : string)
| PostEnhanceIdea (gemini_key : option string) (app_idea : string)
                  (tech_preferences : option string)
| PostGeneratePrd (gemini_key : option string) (idea : EnhancedIdea)
| PostCreateRepo (token : option string) (repo_name repo_description : string) (private : bool)
| PostPushFiles (token : option string) (repo_full_name prd_md : string)
                (project_title : option string) (project_description : string)
                (tech_stack : TechStack)
                (epics_count features_count : option nat).

Inductive Effect :=
| Fetch (r : Request)
| OpenStream (id : string)
| CloseStream (es : nat)
| Sleep (ms : Z)
| Toast (kind heading message : string)
| Console (level message : string)
| Prompt (message : string).

(** An [EventSource] with the variables its handlers close over. *)
Record EventSource := {
  es_run_id : string;
  es_startTime : Z;
  es_open : bool
}.

(** *** The state

    [heap] holds the run objects; [currentRun] and the entries of
    [runHistory] are addresses into it, so the object pushed to the history
    is the very object later assignments to [currentRun] change.
    [storedHistory] is the copy [localStorage] holds.  [ticks] counts the
    readings of the clock taken so far. *)
Record World := {
  dom : Dom;
  heap : list Run;
  currentRun : option nat;
  runHistory : list nat;
  storedHistory : list Run;
  settings : Settings;
  storedSettings : Settings;
  authToken : option string;
  sources : list EventSource;
  ticks : nat;
  log : list Effect
}.

Definition with_dom (v : Dom) (r : World) : World :=
  {| dom := v; heap := heap r; currentRun := currentRun r; runHistory := runHistory r;
     storedHistory := storedHistory r; settings := settings r;
     storedSettings := storedSettings r; authToken := authToken r; sources := sources r;
     ticks := ticks r; log := log r |}.

Definition with_heap (v : list Run) (r : World) : World :=
  {| dom := dom r; heap := v; currentRun := currentRun r; runHistory := runHistory r;
     storedHistory := storedHistory r; settings := settings r;
     storedSettings := storedSettings r; authToken := authToken r; sources := sources r;
     ticks := ticks r; log := log r |}.

Definition with_currentRun (v : option nat) (r : World) : World :=
  {| dom := dom r; heap := heap r; currentRun := v; runHistory := runHistory r;
     storedHistory := storedHistory r; settings := settings r;
     storedSettings := storedSettings r; authToken := authToken r; sources := sources r;
     ticks := ticks r; log := log r |}.

Definition with_runHistory (v : list nat) (r : World) : World :=
  {| dom := dom r; heap := heap r; currentRun := currentRun r; runHistory := v;
     storedHistory := storedHistory r; settings := settings r;
     storedSettings := storedSettings r; authToken := authToken r; sources := sources r;
     ticks := ticks r; log := log r |}.

Definition with_storedHistory (v : list Run) (r : World) : World :=
  {| dom := dom r; heap := heap r; currentRun := currentRun r; runHistory := runHistory r;
     storedHistory := v; settings := settings r; storedSettings := storedSettings r;
     authToken := authToken r; sources := sources r; ticks := ticks r; log := log r |}.

Definition with_settings (v : Settings) (r : World) : World :=
  {| dom := dom r; heap := heap r; currentRun := currentRun r; runHistory := runHistory r;
     storedHistory := storedHistory r; settings := v; storedSettings := storedSettings r;
     authToken := authToken r; sources := sources r; ticks := ticks r; log := log r |}.

Definition with_storedSettings (v : Settings) (r : World) : World :=
  {| dom := dom r; heap := heap r; currentRun := currentRun r; runHistory := runHistory r;
     storedHistory := storedHistory r; settings := settings r; storedSettings := v;
     authToken := authToken r; sources := sources r; ticks := ticks r; log := log r |}.

Definition with_authToken (v : option string) (r : World) : World :=
  {| dom := dom r; heap := heap r; currentRun := currentRun r; runHistory := runHistory r;
     storedHistory := storedHistory r; settings := settings r;
     storedSettings := storedSettings r; authToken := v; sources := sources r;
     ticks := ticks r; log := log r |}.

Definition with_sources (v : list EventSource) (r : World) : World :=
  {| dom := dom r; heap := heap r; currentRun := currentRun r; runHistory := runHistory r;
     storedHistory := storedHistory r; settings := settings r;
     storedSettings := storedSettings r; authToken := authToken r; sources := v;
     ticks := ticks r; log := log r |}.

Definition with_ticks (v : nat) (r : World) : World :=
  {| dom := dom r; heap := heap r; currentRun := currentRun r; runHistory := runHistory r;
     storedHistory := storedHistory r; settings := settings r;
     storedSettings := storedSettings r; authToken := authToken r; sources := sources r;
     ticks := v; log := log r |}.

Definition with_log (v : list Effect) (r : World) : World :=
  {| dom := dom r; heap := heap r; currentRun := currentRun r; runHistory := runHistory r;
     storedHistory := storedHistory r; settings := settings r;
     storedSettings := storedSettings r; authToken := authToken r; sources := sources r;
     ticks := ticks r; log := v |}.

(** *** What the outside answers

    The answers a run will receive: the clock reading by reading, the
    outcome of each backend call, and the text typed into the prompt. *)
Inductive RunResponse :=
| RunAccepted (id : string)
| RunRejected (detail : option string)
| RunUnreachable (message : string).

Record TokenResult := {
  token_valid : bool;
  token_username : option string
}.

Inductive RepoResponse :=
| RepoCreated (url full_name repo_name : string)
| RepoRejected (detail : option string)
| RepoUnreachable (message : string).

Record Env := {
  clock : nat -> Z;
  toLocaleString : Z -> string;
  run_response : RunResponse;
  health : option bool;
  token_result : TokenResult;
  enhance_response : option EnhanceResult;
  prd_response : option PrdResult;
  repo_response : RepoResponse;
  push_ok : bool;
  prompt_answer : option string
}.

(** *** The monad of the program: state, and exceptions that keep it *)

Inductive Result (A : Type) :=
| Ok (a : A)
| Throw (message : string).
Arguments Ok {A} a.
Arguments Throw {A} message.

Definition M (A : Type) : Type := World -> Result A * World.

Definition ret {A} (a : A) : M A := fun w => (Ok a, w).

Definition bind {A B} (m : M A) (k : A -> M B) : M B :=
  fun w => match m w with
           | (Ok a, w') => k a w'
           | (Throw e, w') => (Throw e, w')
           end.

Definition throw {A} (e : string) : M A := fun w => (Throw e, w).

(** [try { m } catch (e) { h e }] *)
Definition try_catch {A} (m : M A) (h : string -> M A) : M A :=
  fun w => match m w with
           | (Ok a, w') => (Ok a, w')
           | (Throw e, w') => h e w'
           end.

Declare Scope run_scope.
Delimit Scope run_scope with run.
Notation "'let*' x ':=' m 'in' k" := (bind m (fun x => k))
  (at level 10, x name, m at level 100, k at level 200) : run_scope.
Notation "m >> k" := (bind m (fun _ => k))
  (at level 100, k at level 200, right associativity) : run_scope.
Local Open Scope run_scope.

Definition get : M World := fun w => (Ok w, w).
Definition modify (f : World -> World) : M unit := fun w => (Ok tt, f w).
Definition modify_dom (f : Dom -> Dom) : M unit :=
  modify (fun w => with_dom (f (dom w)) w).
Definition emit (e : Effect) : M unit :=
  modify (fun w => with_log (log w ++ [e]) w).
Definition when (b : bool) (m : M unit) : M unit := if b then m else ret tt.

(** The world a computation leaves, whether it returned or threw. *)
Definition exec {A} (m : M A) (w : World) : World := snd (m w).

(** [Date.now()] *)
Definition Date_now (env : Env) : M Z :=
  fun w => (Ok (clock env (ticks w)), with_ticks (S (ticks w)) w).

(** [currentRun = r] for a fresh object [r]. *)
Definition new_currentRun (r : Run) : M unit :=
  modify (fun w => with_currentRun (Some (length (heap w))) (with_heap (heap w ++ [r]) w)).

(** Reading [currentRun]: touching a property of [null] throws. *)
Definition the_currentRun : M Run :=
  fun w => match currentRun w with
           | Some a => match heap w !! a with
                       | Some r => (Ok r, w)
                       | None => (Throw "TypeError", w)
                       end
           | None => (Throw "TypeError", w)
           end.

(** [currentRun.p = v] *)
Definition assign (f : Run -> Run) : M unit :=
  fun w => match currentRun w with
           | Some a => (Ok tt, with_heap (alter f a (heap w)) w)
           | None => (Throw "TypeError", w)
           end.

(** The run objects of the history, oldest first. *)
Definition history_runs (w : World) : list Run :=
  omap (fun a => heap w !! a) (runHistory w).

(** [runHistory.push(currentRun)]; every push of the program follows an
    assignment to a property of [currentRun], so it never pushes [null]. *)
Definition push_currentRun : M unit :=
  fun w => match currentRun w with
           | Some a => (Ok tt, with_runHistory (runHistory w ++ [a]) w)
           | None => (Throw "TypeError", w)
           end.

(** [localStorage.setItem('runHistory', JSON.stringify(runHistory))] *)
Definition save_history : M unit :=
  modify (fun w => with_storedHistory (history_runs w) w).

Definition save_settings : M unit :=
  modify (fun w => with_storedSettings (settings w) w).

(** *** UI helpers *)

Definition showToast (kind heading message : string) : M unit :=
  emit (Toast kind heading message).

Definition set_display_of (id : string) (shown : bool) : M unit :=
  modify_dom (fun d => set_display (<[id := shown]> (display d)) d).

Definition set_status_line (s : status_line) : M unit :=
  modify_dom (set_current_status s).

(** [document.getElementById(stepId)] is [null] for anything but a step
    element, and the first property access then throws. *)
Definition updateStepStatus (stepId status text : string) : M unit :=
  if bool_decide (stepId ∈ step_elements)
  then modify_dom (fun d =>
         set_steps (<[stepId := (status, JSString.or_else text status)]> (steps d)) d)
  else throw "TypeError".

Definition updateProgress (percent : width) : M unit :=
  modify_dom (set_overall_progress percent).

Definition showResults (run : Run) : M unit :=
  set_display_of "results-section" true >>
  set_status_line (StatusBuildCompleted (elapsedTime run)) >>
  modify_dom (set_results_content (Some run)).

(** *** The dashboard *)

Import JSValue.

(** [runHistory.slice(-5).reverse()] *)
Definition recent (h : list Run) : list Run := rev (drop (length h - 5) h).

Definition aggregate (h : list Run) : Dashboard :=
  let total := length h in
  let successful := length (filter (fun r => status r = "success") h) in
  let avgTime :=
    if (0 <? total)%nat
    then VStr (JSNumber.toFixed1
                 (ToNumber
                    (divide
                       (fold_left
                          (fun sum r => plus sum (or (of_string (elapsedTime r)) (of_nat 0)))
                          h (of_nat 0))
                       (of_nat total))))
    else of_nat 0 in
  let totalFeatures :=
    fold_left (fun sum r => (sum + default 0%nat (featuresCount r))%nat) h 0%nat in
  {| total_runs := total;
     successful_runs := successful;
     avg_time := avgTime;
     total_features := totalFeatures;
     recent_runs := recent h |}.

Definition updateDashboard : M unit :=
  modify (fun w => with_dom (set_dashboard (aggregate (history_runs w)) (dom w)) w).

(** *** Account names *)

(** [/^[a-zA-Z0-9](?:[a-zA-Z0-9-]{0,37}[a-zA-Z0-9])?$/] *)
Definition username_pattern (s : string) : bool :=
  (String.length s <=? 39)%nat
  && JSString.all_chars (fun c => JSString.is_alnum c || JSString.is_dash c) s
  && match JSString.first_char s, JSString.last_char s with
     | Some a, Some b => JSString.is_alnum a && JSString.is_alnum b
     | _, _ => false
     end.

Definition isValidGitHubUsername (username : option string) : bool :=
  match username with
  | None => false
  | Some s =>
      if JSString.is_empty s then false
      else username_pattern s && negb (JSString.has_double_dash s)
  end.

(** The repository name derived from a title. *)
Definition repoNameOf (t : string) : string :=
  JSString.keep
    (fun c => JSString.is_lower c || JSString.is_digit c || JSString.is_dash c)
    (JSString.dash_spaces false (JSString.toLowerCase t)).

(** *** Calls to the backend

    Each call is logged as it is issued and answers what [env] holds. *)
Definition checkApiServer (env : Env) : M (bool * bool) :=
  emit (Fetch GetHealth) >>
  ret (match health env with
       | Some gemini => (true, gemini)
       | None => (false, false)
       end).

Definition validateGitHubToken (env : Env) (token : string) : M TokenResult :=
  emit (Fetch (PostValidateToken token)) >> ret (token_result env).

Definition createGitHubRepo (env : Env) (repo description : string) (isPrivate : bool)
  : M (string * string * string) :=
  let* w := get in
  emit (Fetch (PostCreateRepo (githubToken (settings w)) repo description isPrivate)) >>
  match repo_response env with
  | RepoCreated url full_name repo_name => ret (url, full_name, repo_name)
  | RepoRejected detail => throw (str_or detail "Failed to create repository")
  | RepoUnreachable message => throw message
  end.

Definition enhanceIdeaAPI (env : Env) (appIdea techPreferences : string) : M EnhanceResult :=
  let* w := get in
  emit (Fetch (PostEnhanceIdea (geminiKey (settings w)) appIdea
                 (if JSString.is_empty techPreferences then None else Some techPreferences))) >>
  match enhance_response env with
  | Some r => ret r
  | None => throw "TypeError"
  end.

Definition generatePRDAPI (env : Env) (idea : EnhancedIdea) : M PrdResult :=
  let* w := get in
  emit (Fetch (PostGeneratePrd (geminiKey (settings w)) idea)) >>
  match prd_response env with
  | Some r => ret r
  | None => throw "TypeError"
  end.

Definition pushFilesToRepo (env : Env) (repoFullName prd_md : string) (idea : EnhancedIdea)
    (epics_count features_count : option nat) : M unit :=
  let* w := get in
  emit (Fetch (PostPushFiles (githubToken (settings w)) repoFullName prd_md
                 (title idea) (idea_description idea) (suggested_tech_stack idea)
                 epics_count features_count)) >>
  if push_ok env then ret tt else throw "TypeError".

Definition sleep (ms : Z) : M unit := emit (Sleep ms).

(** [((Date.now() - startTime) / 1000).toFixed(1)]; a start time that was
    never assigned reads as [undefined] and makes the difference NaN. *)
Definition elapsed (now : Z) (startTime : option Z) : string :=
  JSNumber.toFixed1
    (JSNumber.div
       (JSNumber.add (JSNumber.of_Z now)
          (JSNumber.neg (match startTime with
                         | Some start => JSNumber.of_Z start
                         | None => JSNumber.NaN
                         end)))
       (JSNumber.of_Z 1000)).

(** [settings.privateRepos !== false] *)
Definition wants_private (s : Settings) : bool :=
  match privateRepos s with Some false => false | _ => true end.

Definition or_count (a b : option nat) : option nat := if truthy_count a then a else b.

(** The account check of both controllers: an account name that does not
    pass is asked for once; [true] when the run may go on. *)
Definition ensure_username (env : Env) : M bool :=
  let* w := get in
  if isValidGitHubUsername (githubUsername (settings w)) then ret true
  else
    emit (Prompt "Please enter your GitHub username:") >>
    if isValidGitHubUsername (prompt_answer env)
    then modify (fun w => with_settings (set_githubUsername (prompt_answer env) (settings w)) w) >>
         save_settings >> ret true
    else showToast "error" "Invalid Username" "A valid GitHub username is required." >>
         ret false.

(** The token check of both controllers. *)
Definition check_token (env : Env) (apiRunning : bool) : M unit :=
  let* w := get in
  match githubToken (settings w) with
  | Some token =>
      when (apiRunning && negb (JSString.is_empty token))
        (let* tokenResult := validateGitHubToken env token in
         when (token_valid tokenResult && truthy_str (token_username tokenResult))
           (modify (fun w => with_settings
                       (set_githubUsername (token_username tokenResult) (settings w)) w) >>
            save_settings >>
            showToast "success" "GitHub Connected"
              ("Authenticated as " +:+ str_or (token_username tokenResult) "")))
  | None => ret tt
  end.

(** Step 1 of both controllers: the enhanced idea, from the backend when it
    runs and a key is set, built locally otherwise and on any failure. *)
Definition step_enhance (env : Env) (apiRunning : bool) (appIdea techPrefs : string)
  : M EnhancedIdea :=
  updateStepStatus "step-enhance" "active" "Enhancing idea..." >>
  set_status_line (StatusText "AI is enhancing your application idea...") >>
  let* w := get in
  if apiRunning && truthy_str (geminiKey (settings w)) then
    try_catch
      (let* enhanceResult := enhanceIdeaAPI env appIdea techPrefs in
       match enhance_success enhanceResult, enhanced_idea enhanceResult with
       | true, Some idea =>
           updateStepStatus "step-enhance" "completed"
             ("✓ Enhanced: " +:+ show_str (title idea)) >>
           ret idea
       | _, _ =>
           showToast "warning" "Enhancement Simulated"
             (str_or (enhance_message enhanceResult) "Using local enhancement") >>
           updateStepStatus "step-enhance" "completed" "⚠ Enhanced (simulated)" >>
           ret (buildFallbackEnhancedIdea appIdea techPrefs)
       end)
      (fun err =>
         emit (Console "error" "Enhance idea error:") >>
         updateStepStatus "step-enhance" "completed" "⚠ Enhanced (simulated)" >>
         ret (buildFallbackEnhancedIdea appIdea techPrefs))
  else
    sleep 1500 >>
    updateStepStatus "step-enhance" "completed" "✓ Enhanced (simulated)" >>
    ret (buildFallbackEnhancedIdea appIdea techPrefs).

(** Step 2 of both controllers: the PRD, likewise. *)
Definition step_prd (env : Env) (apiRunning : bool) (enhancedIdea : EnhancedIdea)
  : M PrdResult :=
  updateStepStatus "step-prd" "active" "Generating PRD..." >>
  set_status_line
    (StatusText "Gemini AI is generating the PRD with epics and user stories...") >>
  let* w := get in
  if apiRunning && truthy_str (geminiKey (settings w)) then
    try_catch
      (let* prdResult := generatePRDAPI env enhancedIdea in
       match prd_success prdResult, prd_tree prdResult with
       | true, Some tree =>
           let epicCount := length (list_or_empty (epics tree)) in
           let featureCount := countFeatures tree in
           updateStepStatus "step-prd" "completed"
             ("✓ PRD: " +:+ JSNumber.dec (Z.of_nat epicCount) +:+ " epics, "
              +:+ JSNumber.dec (Z.of_nat featureCount) +:+ " features") >>
           ret prdResult
       | _, _ =>
           showToast "warning" "PRD Simulated" (str_or (prd_message prdResult) "Using local PRD") >>
           updateStepStatus "step-prd" "completed" "⚠ PRD generated (simulated)" >>
           ret (buildFallbackPRD enhancedIdea)
       end)
      (fun err =>
         emit (Console "error" "Generate PRD error:") >>
         updateStepStatus "step-prd" "completed" "⚠ PRD generated (simulated)" >>
         ret (buildFallbackPRD enhancedIdea))
  else
    sleep 2000 >>
    updateStepStatus "step-prd" "completed" "✓ PRD generated (simulated)" >>
    ret (buildFallbackPRD enhancedIdea).

(** The assignments that follow step 1 and step 2. *)
Definition record_idea (enhancedIdea : EnhancedIdea) : M unit :=
  assign (set_projectTitle (title enhancedIdea)) >>
  assign (set_run_description (Some (idea_description enhancedIdea))) >>
  assign (set_enhancedIdea (Some enhancedIdea)) >>
  updateProgress (Percent 16).

Definition record_prd (prdResult : PrdResult) : M unit :=
  match prd_tree prdResult with
  | None => throw "TypeError"
  | Some tree =>
      assign (set_prd (Some tree)) >>
      assign (set_prdMarkdown (prd_markdown prdResult)) >>
      assign (set_epicsCount (Some (length (list_or_empty (epics tree))))) >>
      assign (set_featuresCount (Some (countFeatures tree))) >>
      updateProgress (Percent 33)
  end.

(** A count or a text inside a template literal. *)
Definition show_count (o : option nat) : string :=
  match o with Some n => JSNumber.dec (Z.of_nat n) | None => "undefined" end.

Definition simulated_url (w : World) (repoName : string) : string :=
  "https://github.com/" +:+ show_str (githubUsername (settings w)) +:+ "/" +:+ repoName.

(** What [enhancedIdea.title.toLowerCase()] throws when the idea has no
    title: a TypeError, whose message is the engine's (the text is V8's). *)
Definition title_TypeError : string :=
  "Cannot read properties of undefined (reading 'toLowerCase')".

(** Step 3 of both controllers: the repository.  This is the one place that
    issues the create-repo call.  The repository name is derived outside the
    inner [try], so an idea without a title makes the step throw. *)
Definition step_github (env : Env) (apiRunning : bool) (enhancedIdea : EnhancedIdea)
  : M unit :=
  updateStepStatus "step-github" "active" "Creating repository..." >>
  set_status_line (StatusText "Creating GitHub repository...") >>
  let* repoName :=
    match title enhancedIdea with
    | Some t => ret (repoNameOf t)
    | None => throw title_TypeError
    end in
  let* w := get in
  (if apiRunning && truthy_str (githubToken (settings w)) then
     try_catch
       (let* repoResult :=
          createGitHubRepo env repoName
            (JSString.substring0 200 (idea_description enhancedIdea))
            (wants_private (settings w)) in
        let '(url, full_name, repo_name) := repoResult in
        assign (set_repoUrl (Some url)) >>
        assign (set_repoFullName (Some full_name)) >>
        assign (set_repoCreated (Some true)) >>
        updateStepStatus "step-github" "completed" ("✓ Repository: " +:+ repo_name))
       (fun repoError =>
          emit (Console "error" "GitHub API error:") >>
          let* w := get in
          assign (set_repoUrl (Some (simulated_url w repoName))) >>
          assign (set_repoCreated (Some false)) >>
          updateStepStatus "step-github" "completed" "⚠ Repository simulated")
   else
     sleep 1200 >>
     let* w := get in
     assign (set_repoUrl (Some (simulated_url w repoName))) >>
     assign (set_repoCreated (Some false)) >>
     updateStepStatus "step-github" "completed" "✓ Repository simulated") >>
  updateProgress (Percent 50).

(** Step 5 of both controllers. *)
Definition step_implement : M unit :=
  updateStepStatus "step-implement" "active" "Implementing..." >>
  set_status_line (StatusText "Claude Code is implementing features from the PRD...") >>
  sleep 3000 >>
  let* run := the_currentRun in
  updateStepStatus "step-implement" "completed"
    ("✓ " +:+ show_count (featuresCount run) +:+ " features implemented") >>
  updateProgress (Percent 83).

(** Step 6 of both controllers. *)
Definition step_publish (env : Env) (enhancedIdea : EnhancedIdea) : M unit :=
  updateStepStatus "step-publish" "active" "Publishing..." >>
  set_status_line (StatusText "Publishing to GitHub...") >>
  let* run := the_currentRun in
  (if truthy_flag (repoCreated run) && truthy_str (repoFullName run) then
     try_catch
       (pushFilesToRepo env (show_str (repoFullName run))
          (str_or (prdMarkdown run) ("# PRD" +:+ two_newlines +:+ "Generated PRD"))
          enhancedIdea (epicsCount run) (featuresCount run))
       (fun pushErr => emit (Console "error" "Push files error:"))
   else sleep 1000) >>
  updateStepStatus "step-publish" "completed" "✓ Published" >>
  updateProgress (Percent 100).

(** The end of a run that went through: [startTime] is the reading taken
    when the run began. *)
Definition complete (env : Env) (startTime : option Z) : M unit :=
  assign (set_status "success") >>
  let* now := Date_now env in
  assign (set_elapsedTime (Some (elapsed now startTime))) >>
  let* run := the_currentRun in
  showToast "success" "Build Complete!"
    (show_str (projectTitle run) +:+ " created in " +:+ show_str (elapsedTime run) +:+ "s") >>
  showResults run.

(** The handler of an error that escaped every step. *)
Definition run_failed (message : string) : M unit :=
  assign (set_status "failed") >>
  assign (set_error (Some message)) >>
  showToast "error" "Run Failed" message >>
  set_status_line (StatusRunError message).

Definition persist : M unit :=
  push_currentRun >> save_history >> updateDashboard.

(** ** The streaming front end *)

Module Sse.

(** *** Property access on the two step tables

    [table[step]] finds the table's own entry, or else whatever
    [Object.prototype] holds under that name: a function or an object,
    truthy and not a number. *)
Inductive Property (A : Type) :=
| Own (a : A)
| Inherited
| Absent.
Arguments Own {A} a.
Arguments Inherited {A}.
Arguments Absent {A}.

Definition Object_prototype : list string :=
  ["constructor"; "__proto__"; "hasOwnProperty"; "isPrototypeOf";
   "propertyIsEnumerable"; "toLocaleString"; "toString"; "valueOf";
   "__defineGetter__"; "__defineSetter__"; "__lookupGetter__"; "__lookupSetter__"].

Definition get_property {A} (table : gmap string A) (key : string) : Property A :=
  match table !! key with
  | Some a => Own a
  | None => if bool_decide (key ∈ Object_prototype) then Inherited else Absent
  end.

Definition stepMapping : gmap string string :=
  list_to_map
    [("enhance_idea", "step-enhance");
     ("generate_prd", "step-prd");
     ("create_repo", "step-github");
     ("extract_features", "step-features");
     ("implement", "step-implement");
     ("publish", "step-publish")].

Definition stepProgress : gmap string Z :=
  list_to_map
    [("enhance_idea", 16);
     ("generate_prd", 33);
     ("create_repo", 50);
     ("extract_features", 66);
     ("implement", 83);
     ("publish", 95);
     ("pipeline", 100)].

(** *** Messages of the stream *)

Record Payload := {
  pl_prd_markdown : option string;
  pl_epics_count : option nat;
  pl_features_count : option nat;
  pl_name : option string;
  pl_url : option string
}.

Record StepEvent := {
  ev_step : string;
  ev_status : string;
  ev_detail : option string;
  ev_data : option Payload
}.

(** [event.data]: text that does not parse, or an event. *)
Inductive Message :=
| Malformed
| Json (data : StepEvent).



(** [data.data?.p] *)
Definition payload {A} (p : Payload -> option A) (data : StepEvent) : option A :=
  match ev_data data with Some d => p d | None => None end.

(** The step element of an event: the handler calls [updateStepStatus]
    with what the lookup found, and an inherited function names no element. *)
Definition updateStepOf (stepId : Property string) (status text : string) : M unit :=
  match stepId with
  | Own id => updateStepStatus id status text
  | Inherited => throw "TypeError"
  | Absent => ret tt
  end.

Definition close (es : nat) : M unit :=
  emit (CloseStream es) >>
  modify (fun w =>
    with_sources
      (alter (fun s => {| es_run_id := es_run_id s; es_startTime := es_startTime s;
                          es_open := false |}) es (sources w)) w).

(** [eventSource.onmessage] of the stream [es].  A closed stream delivers
    nothing. *)
Definition onmessage (env : Env) (es : nat) (msg : Message) : M unit :=
  let* w := get in
  match sources w !! es with
  | None => ret tt
  | Some src =>
    if negb (es_open src) then ret tt
    else
      try_catch
        (match msg with
         | Malformed => throw "SyntaxError"
         | Json data =>
           let step := ev_step data in
           let status := ev_status data in
           let detail := str_or (ev_detail data) "" in
           (* Update step UI *)
           let stepId := get_property stepMapping step in
           (match stepId with
            | Absent => ret tt
            | _ =>
              if String.eqb status "in_progress" then updateStepOf stepId "active" detail
              else if String.eqb status "completed"
                   then updateStepOf stepId "completed" ("✓ " +:+ detail)
              else if String.eqb status "failed"
                   then updateStepOf stepId "error" ("✗ " +:+ detail)
              else ret tt
            end) >>
           (* Update progress bar *)
           (match get_property stepProgress step with
            | Own progress =>
                when (negb (progress =? 0))
                  (updateProgress
                     (Percent (if String.eqb status "completed" then progress
                               else Z.max (progress - 10) 0)))
            | Inherited =>
                updateProgress
                  (if String.eqb status "completed" then PercentObject else PercentNaN)
            | Absent => ret tt
            end) >>
           (* Update status text *)
           set_status_line (StatusText detail) >>
           (* Show PRD preview when available *)
           when (String.eqb step "generate_prd" && String.eqb status "completed"
                 && truthy_str (payload pl_prd_markdown data))
             (set_display_of "prd-preview-section" true >>
              modify_dom (set_prd_preview_content (payload pl_prd_markdown data))) >>
           (* Update run data from events *)
           when (truthy_count (payload pl_epics_count data))
             (assign (set_epicsCount (payload pl_epics_count data))) >>
           when (truthy_count (payload pl_features_count data))
             (assign (set_featuresCount (payload pl_features_count data))) >>
           when (truthy_str (payload pl_name data))
             (assign (set_repoUrl (payload pl_url data))) >>
           (* Pipeline finished *)
           when (String.eqb step "pipeline")
             (close es >>
              (if String.eqb status "completed" then
                 assign (set_status "success") >>
                 let* now := Date_now env in
                 assign (set_elapsedTime (Some (elapsed now (Some (es_startTime src))))) >>
                 (* Fetch final run data *)
                 emit (Fetch (GetRun (es_run_id src)))
               else
                 assign (set_status "failed") >>
                 assign (set_error (Some detail)) >>
                 showToast "error" "Pipeline Failed" detail >>
                 set_status_line (StatusPipelineFailed detail)) >>
              (* Save to history *)
              persist)
         end)
        (fun e => emit (Console "error" "SSE parse error:"))
  end.


(** The step-by-step run the front end falls back to. *)
Definition startRunLegacy (env : Env) : M unit :=
  let* w := get in
  let appIdea := JSString.trim (idea_input (dom w)) in
  let techPrefs := JSString.trim (tech_preferences (dom w)) in
  if JSString.is_empty appIdea
  then showToast "warning" "Missing Input" "Please describe your application idea"
  else
    (* Check API server *)
    let* apiStatus := checkApiServer env in
    let apiRunning := fst apiStatus in
    when (negb apiRunning)
      (showToast "warning" "API Server Offline"
         "Running in simulation mode. Start server with: python start.py") >>
    (* Validate GitHub token and username *)
    check_token env apiRunning >>
    let* valid := ensure_username env in
    if negb valid then ret tt
    else
      set_display_of "progress-section" true >>
      set_display_of "results-section" false >>
      set_display_of "prd-preview-section" false >>
      let* startTime := Date_now env in
      let* stamp := Date_now env in
      new_currentRun
        (new_run ("run_" +:+ JSNumber.toString (JSNumber.of_Z startTime))
                 (toLocaleString env stamp)) >>
      try_catch
        ((* Step 1: Enhance idea with AI *)
         let* enhancedIdea := step_enhance env apiRunning appIdea techPrefs in
         record_idea enhancedIdea >>
         (* Step 2: Generate PRD with epics and user stories *)
         let* prdResult := step_prd env apiRunning enhancedIdea in
         record_prd prdResult >>
         (* Show PRD preview *)
         when (truthy_str (prd_markdown prdResult))
           (set_display_of "prd-preview-section" true >>
            modify_dom (set_prd_preview_content (prd_markdown prdResult))) >>
         (* Step 3: Create GitHub repo *)
         step_github env apiRunning enhancedIdea >>
         (* Step 4: Break down features *)
         updateStepStatus "step-features" "active" "Breaking down features..." >>
         set_status_line (StatusText "Extracting implementation features from PRD...") >>
         sleep 800 >>
         let* run := the_currentRun in
         updateStepStatus "step-features" "completed"
           ("✓ " +:+ show_count (featuresCount run) +:+ " features across "
            +:+ show_count (epicsCount run) +:+ " epics") >>
         updateProgress (Percent 66) >>
         (* Step 5: Implementation (simulated) *)
         step_implement >>
         (* Step 6: Publish *)
         step_publish env enhancedIdea >>
         (* Complete *)
         complete env (Some startTime))
        run_failed >>
      (* Save to history *)
      persist.

(** The entry point: validate, start the pipeline on the backend and
    listen to its stream; on any failure to start, fall back. *)
Definition startRunWithSSE (env : Env) : M unit :=
  let* w := get in
  let appIdea := JSString.trim (idea_input (dom w)) in
  let techPrefs := JSString.trim (tech_preferences (dom w)) in
  if JSString.is_empty appIdea
  then showToast "warning" "Missing Input" "Please describe your application idea"
  else if (String.length appIdea <? 20)%nat
  then showToast "warning" "Too Short"
         "Please provide a more detailed description (at least 20 characters)"
  else
    emit (Console "log" "Proceeding with run") >>
    set_display_of "progress-section" true >>
    set_display_of "results-section" false >>
    set_display_of "prd-preview-section" false >>
    let* startTime := Date_now env in
    let* stamp := Date_now env in
    new_currentRun
      (new_run ("run_" +:+ JSNumber.toString (JSNumber.of_Z startTime))
               (toLocaleString env stamp)) >>
    try_catch
      ((* Start the pipeline via API *)
       emit (Fetch (PostRun (str_or (geminiKey (settings w)) "")
                            (str_or (githubToken (settings w)) "")
                            (str_or (githubUsername (settings w)) "")
                            appIdea
                            (if JSString.is_empty techPrefs then None else Some techPrefs)
                            (wants_private (settings w)))) >>
       match run_response env with
       | RunUnreachable message => throw message
       | RunRejected detail => throw (str_or detail "Failed to start pipeline")
       | RunAccepted id =>
           assign (set_run_id id) >>
           (* Connect to SSE stream for real-time updates *)
           set_status_line (StatusText "Pipeline started — streaming progress...") >>
           emit (OpenStream id) >>
           modify (fun w =>
             with_sources
               (sources w ++ [{| es_run_id := id; es_startTime := startTime;
                                 es_open := true |}]) w)
       end)
      (fun message =>
         (* Fall back to the original step-by-step method *)
         emit (Console "warn" "SSE pipeline failed, falling back to step-by-step mode:") >>
         startRunLegacy env).

(** [startRun]: the main entry point delegates to the streaming pipeline. *)
Definition startRun (env : Env) : M unit := startRunWithSSE env.

End Sse.

(** ** The two-phase front end with the review gate *)

Module Review.

(** The check boxes [renderReviewSection] writes: one per feature, in the
    order of the tree, each carrying its index and ticked. *)
Definition render_checklist (prd : PRD) : list (nat * bool) :=
  fst
    (fold_left
       (fun html ep =>
          fold_left
            (fun html st =>
               fold_left
                 (fun '(html, featureIndex) (feat : Feature) =>
                    (html ++ [(featureIndex, true)], S featureIndex))
                 (list_or_empty (features st)) html)
            (list_or_empty (user_stories ep)) html)
       (list_or_empty (epics prd)) ([], 0%nat)).

Definition renderReviewSection (enhancedIdea : EnhancedIdea) (prdResult : PrdResult)
  : M unit :=
  modify_dom (set_enhanced_idea_summary (Some enhancedIdea)) >>
  when (truthy_str (prd_markdown prdResult))
    (modify_dom (set_prd_preview_content (prd_markdown prdResult))) >>
  match prd_tree prdResult with
  | Some tree => modify_dom (set_feature_checklist (render_checklist tree))
  | None => throw "TypeError"
  end.

(** The user ticks or unticks the check box at position [pos]. *)
Definition toggle (pos : nat) : M unit :=
  modify_dom (fun d =>
    set_feature_checklist
      (alter (fun cb : nat * bool => (fst cb, negb (snd cb))) pos (feature_checklist d)) d).

Definition getSelectedFeatureIndices (d : Dom) : list nat :=
  fold_left
    (fun (selected : list nat) (cb : nat * bool) =>
       if snd cb then selected ++ [fst cb] else selected)
    (feature_checklist d) [].

Definition cancelRun : M unit :=
  modify (with_currentRun None) >>
  set_display_of "progress-section" false >>
  set_display_of "prd-review-section" false >>
  set_display_of "results-section" false >>
  updateProgress (Percent 0) >>
  set_status_line (StatusText "Ready to start...") >>
  modify_dom (fun d =>
    set_steps
      (fold_left (fun m id => <[id := ("pending", "Pending")]> m) step_elements (steps d)) d) >>
  showToast "info" "Cancelled" "Build cancelled.".

(** Phase 1: enhance, generate the PRD, then pause for review. *)
Definition startRun (env : Env) : M unit :=
  let* w := get in
  let appIdea := JSString.trim (idea_input (dom w)) in
  let techPrefs := JSString.trim (tech_preferences (dom w)) in
  if JSString.is_empty appIdea
  then showToast "warning" "Missing Input" "Please describe your application idea"
  else
    (* Check API server *)
    let* apiStatus := checkApiServer env in
    let apiRunning := fst apiStatus in
    when (negb apiRunning)
      (showToast "warning" "API Server Offline"
         "Running in simulation mode. Start server with: python start.py") >>
    check_token env apiRunning >>
    let* valid := ensure_username env in
    if negb valid then ret tt
    else
      (* Show progress, hide review/results *)
      set_display_of "progress-section" true >>
      set_display_of "results-section" false >>
      set_display_of "prd-review-section" false >>
      let* startTime := Date_now env in
      let* stamp := Date_now env in
      new_currentRun
        (set_apiRunning (Some apiRunning)
           (set_startTime (Some startTime)
              (new_run ("run_" +:+ JSNumber.toString (JSNumber.of_Z startTime))
                       (toLocaleString env stamp)))) >>
      try_catch
        ((* Step 1: Enhance idea with AI *)
         let* enhancedIdea := step_enhance env apiRunning appIdea techPrefs in
         record_idea enhancedIdea >>
         (* Step 2: Generate PRD with epics and user stories *)
         let* prdResult := step_prd env apiRunning enhancedIdea in
         record_prd prdResult >>
         (* PAUSE: show the review section and wait for Continue *)
         set_status_line StatusReviewPrompt >>
         set_display_of "prd-review-section" true >>
         renderReviewSection enhancedIdea prdResult >>
         showToast "info" "Review Required"
           "Review the enhanced idea and PRD before continuing.")
        (fun message => run_failed message >> persist).

(** Phase 2: repository, implementation, publish. *)
Definition continueAfterReview (env : Env) : M unit :=
  let* w := get in
  let current := match currentRun w with Some a => heap w !! a | None => None end in
  match current with
  | Some run =>
    match enhancedIdea run, prd run with
    | Some enhancedIdea, Some tree =>
      let apiRunning := truthy_flag (apiRunning run) in
      (* Filter features based on the check boxes *)
      let selectedIndices := getSelectedFeatureIndices (dom w) in
      let allFeatures := flattenFeatures tree in
      let selectedFeatures := selection selectedIndices allFeatures in
      assign (set_featuresCount (Some (length selectedFeatures))) >>
      assign (set_selectedFeatures (Some selectedFeatures)) >>
      (* Hide review section *)
      set_display_of "prd-review-section" false >>
      set_status_line (StatusText "Continuing build...") >>
      try_catch
        ((* Step 3: Create GitHub repo *)
         step_github env apiRunning enhancedIdea >>
         (* Step 4: Break down features (already done during review) *)
         updateStepStatus "step-features" "active" "Breaking down features..." >>
         let* run := the_currentRun in
         set_status_line
           (StatusText ("Building " +:+ show_count (featuresCount run)
                        +:+ " selected features across " +:+ show_count (epicsCount run)
                        +:+ " epics...")) >>
         sleep 500 >>
         updateStepStatus "step-features" "completed"
           ("✓ " +:+ show_count (featuresCount run) +:+ " features selected") >>
         updateProgress (Percent 66) >>
         (* Step 5: Implementation *)
         step_implement >>
         (* Step 6: Publish *)
         step_publish env enhancedIdea >>
         (* Complete *)
         let* run := the_currentRun in
         complete env (startTime run))
        run_failed >>
      (* Save to history *)
      persist
    | _, _ => showToast "error" "No Run" "No active run to continue."
    end
  | None => showToast "error" "No Run" "No active run to continue."
  end.

End Review.

(** ** Observations used by the statements *)

(** Messages handed to the handler of stream [es], one after the other. *)
Fixpoint deliver (env : Env) (es : nat) (msgs : list Sse.Message) : M unit :=
  match msgs with
  | [] => ret tt
  | msg :: rest => Sse.onmessage env es msg >> deliver env es rest
  end.

(** Messages handed to the handlers of several streams, each with the
    stream it arrives on, one after the other. *)
Fixpoint deliver_all (env : Env) (msgs : list (nat * Sse.Message)) : M unit :=
  match msgs with
  | [] => ret tt
  | (es, msg) :: rest => Sse.onmessage env es msg >> deliver_all env rest
  end.

(** The create-repo calls issued so far. *)
Definition is_create_repo (e : Effect) : bool :=
  match e with Fetch (PostCreateRepo _ _ _ _) => true | _ => false end.

Definition create_repo_calls (w : World) : list Effect :=
  List.filter is_create_repo (log w).

(** The network calls issued so far. *)
Definition is_fetch (e : Effect) : bool :=
  match e with Fetch _ | OpenStream _ => true | _ => false end.

Definition network_calls (w : World) : list Effect :=
  List.filter is_fetch (log w).

(** A computation leaves an observation of the world as it found it,
    whether it returns or throws. *)
Definition preserves {A X} (obs : World -> X) (m : M A) : Prop :=
  forall w, obs (exec m w) = obs w.

(** The outcome of a computation meets [Q] when it returns and [E] when
    it throws. *)
Definition wp {A} (m : M A) (Q : A -> World -> Prop) (E : string -> World -> Prop)
    (w : World) : Prop :=
  match m w with
  | (Ok a, w') => Q a w'
  | (Throw e, w') => E e w'
  end.

(** [a] is the current run and [r] is the object it names. *)
Definition running (a : nat) (r : Run) (w : World) : Prop :=
  currentRun w = Some a /\ heap w !! a = Some r.

(** What a step of a run leaves alone: the history, the clock, the
    settings and the streams. *)
Definition same_shell (w w' : World) : Prop :=
  runHistory w' = runHistory w /\ storedHistory w' = storedHistory w
  /\ ticks w' = ticks w /\ settings w' = settings w /\ sources w' = sources w.



(** The steps the two tables of the stream handler know. *)
Definition known_steps : list string :=
  ["enhance_idea"; "generate_prd"; "create_repo"; "extract_features"; "implement";
   "publish"; "pipeline"].

(** The flattened features of one story and of one epic. *)
Definition story_refs (ep : Epic) (st : Story) : list FeatureRef :=
  map (featureRef ep st) (list_or_empty (features st)).

Definition epic_refs (ep : Epic) : list FeatureRef :=
  flat_map (story_refs ep) (list_or_empty (user_stories ep)).

(** The toast that answers an empty idea. *)
Definition missing_input : Effect :=
  Toast "warning" "Missing Input" "Please describe your application idea".



(** The record of a failed pipeline as the spec words it: the run a
    stream was opened for, not yet recorded, gets status failed and the
    detail as its error when the failed pipeline event arrives on that
    stream, and is in the history once. *)
Definition pipeline_failure_claim : Prop :=
  forall env es src a r w data X,
    sources w !! es = Some src -> es_open src = true ->
    heap w !! a = Some r -> run_id r = es_run_id src -> a ∉ runHistory w ->
    Sse.ev_step data = "pipeline" -> Sse.ev_status data = "failed" ->
    Sse.ev_detail data = Some X ->
    let w' := exec (Sse.onmessage env es (Sse.Json data)) w in
    exists r', heap w' !! a = Some r'
      /\ status r' = "failed" /\ error r' = Some X
      /\ count_occ Nat.eq_dec (runHistory w') a = 1%nat.


(** ** Sample inputs *)

Module Sample.

Definition settings0 : Settings :=
  {| geminiKey := None; githubToken := None; githubUsername := Some "jacattac314";
     anthropicKey := None; privateRepos := None |}.

Definition dom0 (idea : string) : Dom :=
  {| steps := ∅; overall_progress := Percent 0;
     current_status := StatusText "Ready to start...";
     display := ∅; prd_preview_content := None; enhanced_idea_summary := None;
     feature_checklist := []; results_content := None; dashboard := aggregate [];
     idea_input := idea; tech_preferences := "" |}.

(** The page as loaded, with [idea] typed in and an empty history. *)
Definition world0 (idea : string) : World :=
  {| dom := dom0 idea; heap := []; currentRun := None; runHistory := [];
     storedHistory := []; settings := settings0; storedSettings := settings0;
     authToken := None; sources := []; ticks := 0; log := [] |}.

(** A clock that advances one second per reading; [accepted] tells whether
    the backend takes the run; nothing else answers. *)
Definition env0 (accepted : bool) : Env :=
  {| clock := fun n => 1000 * Z.of_nat n;
     toLocaleString := fun _ => "11/2/2026, 10:00:00 AM";
     run_response := if accepted then RunAccepted "run-1"
                     else RunUnreachable "Failed to fetch";
     health := None;
     token_result := {| token_valid := false; token_username := None |};
     enhance_response := None;
     prd_response := None;
     repo_response := RepoUnreachable "Failed to fetch";
     push_ok := false;
     prompt_answer := None |}.

Definition idea0 : string := "A project management tool for remote teams. With boards.".

Definition event (step status detail : string) (data : option Sse.Payload) : Sse.Message :=
  Sse.Json {| Sse.ev_step := step; Sse.ev_status := status;
              Sse.ev_detail := Some detail; Sse.ev_data := data |}.

Definition step_event (step status detail : string) (data : option Sse.Payload)
  : Sse.StepEvent :=
  {| Sse.ev_step := step; Sse.ev_status := status;
     Sse.ev_detail := Some detail; Sse.ev_data := data |}.

Definition prd_payload : Sse.Payload :=
  {| Sse.pl_prd_markdown := Some "# PRD"; Sse.pl_epics_count := Some 4%nat;
     Sse.pl_features_count := Some 5%nat; Sse.pl_name := None; Sse.pl_url := None |}.

(** A run the backend accepted, its stream open. *)
Definition streaming : World := exec (Sse.startRunWithSSE (env0 true)) (world0 idea0).

Definition stream0 : EventSource :=
  {| es_run_id := "run-1"; es_startTime := 0; es_open := true |}.

Definition streaming_run : Run := new_run "run-1" "11/2/2026, 10:00:00 AM".

(** The two-phase controller paused at the review gate, backend offline. *)
Definition at_review : World := exec (Review.startRun (env0 false)) (world0 idea0).

Definition review_idea : EnhancedIdea := buildFallbackEnhancedIdea idea0 "".

Definition review_run : Run :=
  set_featuresCount (Some 5%nat)
    (set_epicsCount (Some 4%nat)
       (set_prdMarkdown (prd_markdown (buildFallbackPRD review_idea))
          (set_prd (prd_tree (buildFallbackPRD review_idea))
             (set_enhancedIdea (Some review_idea)
                (set_run_description (Some idea0)
                   (set_projectTitle (title review_idea)
                      (set_apiRunning (Some false)
                         (set_startTime (Some 0)
                            (new_run "run_0" "11/2/2026, 10:00:00 AM"))))))))).

Definition review_tree : PRD :=
  default {| product_overview := None; epics := None |}
          (prd_tree (buildFallbackPRD review_idea)).

(** The user unticks the second and the fourth feature. *)
Definition two_unticked : World := exec (Review.toggle 1 >> Review.toggle 3) at_review.

(** Two runs, one after the other, each falling back to the step-by-step
    path with the backend offline. *)
Definition two_runs : World :=
  exec (Sse.startRunWithSSE (env0 false) >> Sse.startRunWithSSE (env0 false))
       (world0 idea0).

(** The backend up, with a token and without an AI key. *)
Definition env_online : Env :=
  {| clock := fun n => 1000 * Z.of_nat n;
     toLocaleString := fun _ => "11/2/2026, 10:00:00 AM";
     run_response := RunUnreachable "Failed to fetch";
     health := Some false;
     token_result := {| token_valid := true; token_username := Some "octocat" |};
     enhance_response := None;
     prd_response := None;
     repo_response :=
       RepoCreated "https://github.com/octocat/a-project-management-tool-for-remote-teams"
                   "octocat/a-project-management-tool-for-remote-teams"
                   "a-project-management-tool-for-remote-teams";
     push_ok := true;
     prompt_answer := None |}.

(** A backend that accepts a run under another id. *)
Definition env_second : Env :=
  {| clock := fun n => 1000 * Z.of_nat n;
     toLocaleString := fun _ => "11/2/2026, 10:05:00 AM";
     run_response := RunAccepted "run-2";
     health := None;
     token_result := {| token_valid := false; token_username := None |};
     enhance_response := None;
     prd_response := None;
     repo_response := RepoUnreachable "Failed to fetch";
     push_ok := false;
     prompt_answer := None |}.

(** A second run started while the stream of the first is still open. *)
Definition two_streams : World := exec (Sse.startRunWithSSE env_second) streaming.


(** An idea as a backend may answer it, without a title. *)
Definition untitled_idea : EnhancedIdea :=
  {| title := None;
     idea_description := "A project management tool";
     target_users := "Remote teams";
     problem_statement := "Teams lose track of work";
     key_value_props := [];
     suggested_tech_stack :=
       {| frontend := []; backend := []; database := []; infrastructure := [] |} |}.

(** The backend up with a key set, answering the idea without a title. *)
Definition env_untitled : Env :=
  {| clock := fun n => 1000 * Z.of_nat n;
     toLocaleString := fun _ => "11/2/2026, 10:00:00 AM";
     run_response := RunUnreachable "Failed to fetch";
     health := Some false;
     token_result := {| token_valid := true; token_username := Some "octocat" |};
     enhance_response :=
       Some {| enhance_success := true; enhanced_idea := Some untitled_idea;
               enhance_message := None |};
     prd_response := None;
     repo_response := RepoUnreachable "Failed to fetch";
     push_ok := false;
     prompt_answer := None |}.

Definition world_with_key : World :=
  with_settings
    {| geminiKey := Some "key"; githubToken := Some "ghp_token";
       githubUsername := Some "jacattac314"; anthropicKey := None; privateRepos := None |}
    (world0 idea0).

(** The two-phase controller paused at the review gate on that idea. *)
Definition at_review_untitled : World := exec (Review.startRun env_untitled) world_with_key.

Definition world_online : World :=
  with_settings
    {| geminiKey := None; githubToken := Some "ghp_token";
       githubUsername := Some "jacattac314"; anthropicKey := None; privateRepos := None |}
    (world0 idea0).

End Sample.

(** * The rest of the front end

    The functions around the run engine: what a repository name is made
    of, the migration of the history to another account, the settings form,
    the reset of the page, and the skill extraction of the job-description
    front end. *)

(** ** Repository names *)

(** [[a-z0-9-]], the characters [replace(/[^a-z0-9-]/g, '')] keeps. *)
Definition slug_char (c : ascii) : bool :=
  JSString.is_lower c || JSString.is_digit c || JSString.is_dash c.

(** The characters of a title that leave a trace in the repository name:
    white space becomes a dash, a letter is kept in lower case, digits and
    dashes are kept. *)
Definition leaves_trace (c : ascii) : bool :=
  JSString.is_space c || JSString.is_alnum c || JSString.is_dash c.

(** ** Migrating the history to another account *)

(** The characters [.] does not match: the line terminators (line feed
    and carriage return; the two others lie outside the 8-bit range). *)
Definition is_line_terminator (c : ascii) : bool :=
  let n := N_of_ascii c in ((n =? 10) || (n =? 13))%N.

Definition is_slash (c : ascii) : bool := (N_of_ascii c =? 47)%N.

(** [(.+)$] tried at the start of [s]: all of [s], when it is not empty and
    holds no line terminator. *)
Definition to_the_end (s : string) : option string :=
  if JSString.is_empty s then None
  else if JSString.all_chars (fun c => negb (is_line_terminator c)) s then Some s
  else None.

(** [[^\/]+\/(.+)$] tried at the start of [s]; [seen] tells that a
    character of the owner has been read.  The owner ends at the first
    slash, and giving characters of it back leaves no slash to match. *)
Fixpoint owner_and_repo (seen : bool) (s : string) : option string :=
  match s with
  | EmptyString => None
  | String c s' =>
      if is_slash c then (if seen then to_the_end s' else None)
      else owner_and_repo true s'
  end.

(** What follows the literal [p] at the start of [s]. *)
Fixpoint strip (p s : string) : option string :=
  match p, s with
  | EmptyString, _ => Some s
  | String a p', String b s' => if Ascii.eqb a b then strip p' s' else None
  | String _ _, EmptyString => None
  end.

(** [/github\.com\/[^\/]+\/(.+)$/] tried at the start of [s]: group 1. *)
Definition repo_here (s : string) : option string :=
  match strip "github.com/" s with
  | Some rest => owner_and_repo false rest
  | None => None
  end.

(** [url.match(/github\.com\/[^\/]+\/(.+)$/)]: group 1 of the match at the
    first position from the left where the pattern matches. *)
Fixpoint match_repo (url : string) : option string :=
  match repo_here url with
  | Some repoName => Some repoName
  | None => match url with
            | EmptyString => None
            | String _ url' => match_repo url'
            end
  end.

(** The body of the [map] callback for one run: the run with its URL
    rewritten, when it has a URL that matches. *)
Definition migrate_url (newUsername : string) (run : Run) : option Run :=
  match repoUrl run with
  | Some url =>
      if JSString.is_empty url then None
      else match match_repo url with
           | Some repoName =>
               Some (set_repoUrl
                       (Some ("https://github.com/" +:+ newUsername +:+ "/" +:+ repoName))
                       run)
           | None => None
           end
  | None => None
  end.

(** The run as the migration leaves it. *)
Definition migrated (newUsername : string) (run : Run) : Run :=
  default run (migrate_url newUsername run).

(** *** The settings view

    The fields of the settings form, the alerts shown so far, and the
    history view: whether it is the active view, and the rows it lists. *)
Record SettingsForm := {
  gemini_key : string;
  github_token : string;
  github_username : string;
  anthropic_key : string;
  private_repos : bool
}.

Record Page := {
  world : World;
  form : SettingsForm;
  alerts : list string;
  history_view_active : bool;
  history_list : list Run
}.

Definition with_world (v : World) (p : Page) : Page :=
  {| world := v; form := form p; alerts := alerts p;
     history_view_active := history_view_active p; history_list := history_list p |}.

Definition with_form (v : SettingsForm) (p : Page) : Page :=
  {| world := world p; form := v; alerts := alerts p;
     history_view_active := history_view_active p; history_list := history_list p |}.

Definition with_history_list (v : list Run) (p : Page) : Page :=
  {| world := world p; form := form p; alerts := alerts p;
     history_view_active := history_view_active p; history_list := v |}.

(** [alert(message)] *)
Definition alert (message : string) (p : Page) : Page :=
  {| world := world p; form := form p; alerts := alerts p ++ [message];
     history_view_active := history_view_active p; history_list := history_list p |}.

(** The callback of the [map] over the history, on the store and the
    count: the run object at address [a] is changed in place. *)
Definition migrate_visit (newUsername : string)
  : list Run * nat -> nat -> list Run * nat :=
  fun '(h, migratedCount) a =>
    match h !! a with
    | Some run =>
        match migrate_url newUsername run with
        | Some run' => (<[a := run']> h, S migratedCount)
        | None => (h, migratedCount)
        end
    | None => (h, migratedCount)
    end.

(** [migrateHistoryUrls(newUsername)]: the count it returns and the page
    it leaves. *)
Definition migrateHistoryUrls (newUsername : option string) (p : Page) : nat * Page :=
  if negb (isValidGitHubUsername newUsername)
  then (0%nat, alert "Please enter a valid GitHub username first." p)
  else
    let w := world p in
    let '(h, migratedCount) :=
      fold_left (migrate_visit (str_or newUsername "")) (runHistory w) (heap w, 0%nat) in
    let w1 := with_heap h w in
    (migratedCount, with_world (with_storedHistory (history_runs w1) w1) p).

(** The store while the history is walked: the runs at the addresses
    visited so far are migrated, the others are as they were in [h0]. *)
Definition walked (newUsername : string) (h0 : list Run) (visited : list nat)
    (h : list Run) : Prop :=
  length h = length h0
  /\ forall a, h !! a = if bool_decide (a ∈ visited)
                        then migrated newUsername <$> h0 !! a else h0 !! a.

(** [loadHistory()]: the rows of the history view, newest first. *)
Definition loadHistory (p : Page) : Page :=
  with_history_list (rev (history_runs (world p))) p.

(** [migrateHistory()], the button of the settings view. *)
Definition migrateHistory (p : Page) : Page :=
  let username := JSString.trim (github_username (form p)) in
  if JSString.is_empty username
  then alert "Please enter your GitHub username above first, then click this button." p
  else
    let '(count, p1) := migrateHistoryUrls (Some username) p in
    if (0 <? count)%nat
    then
      let p2 :=
        alert ("Successfully updated " +:+ JSNumber.dec (Z.of_nat count)
               +:+ " history entries to use username: " +:+ username) p1 in
      if history_view_active p2 then loadHistory p2 else p2
    else alert "No history entries needed migration." p1.

(** *** The settings form *)

(** [loadSettings()]: the settings are read back from the store. *)
Definition loadSettings (p : Page) : Page :=
  with_world (with_settings (storedSettings (world p)) (world p)) p.

Definition loadSettingsForm (p : Page) : Page :=
  let s := settings (world p) in
  with_form
    {| gemini_key := str_or (geminiKey s) "";
       github_token := str_or (githubToken s) "";
       github_username := str_or (githubUsername s) "";
       anthropic_key := str_or (anthropicKey s) "";
       private_repos := wants_private s |}
    p.

Definition saveSettings (p : Page) : Page :=
  let f := form p in
  with_world
    (exec
       (modify (with_settings
                  {| geminiKey := Some (gemini_key f);
                     githubToken := Some (github_token f);
                     githubUsername := Some (github_username f);
                     anthropicKey := Some (anthropic_key f);
                     privateRepos := Some (private_repos f) |}) >>
        save_settings >>
        showToast "success" "Settings Saved"
          "Your configuration has been saved successfully.")
       (world p))
    p.

(** ** Resetting the page *)

(** [resetRun()] of the streaming front end. *)
Definition resetRun : M unit :=
  modify_dom (set_idea_input "") >>
  modify_dom (set_tech_preferences "") >>
  set_display_of "progress-section" false >>
  set_display_of "results-section" false >>
  set_display_of "prd-preview-section" false >>
  modify_dom (fun d =>
    set_steps
      (fold_left (fun m id => <[id := ("pending", "Pending")]> m) step_elements (steps d)) d) >>
  updateProgress (Percent 0) >>
  set_status_line (StatusText "Ready to start...").

(** ** The skills of a job description

    [extractSkills], [properCase] and [generateProjectIdea] of the
    job-description front end. *)

Module Skills.

(** [s.includes(k)] *)
Fixpoint includes (k s : string) : bool :=
  String.prefix k s
  || match s with
     | EmptyString => false
     | String _ s' => includes k s'
     end.

Definition TECH_KEYWORDS : list string :=
  ["python"; "javascript"; "java"; "c++"; "c#"; "go"; "rust"; "ruby"; "php";
   "react"; "angular"; "vue"; "node.js"; "express"; "django"; "flask"; "fastapi";
   "aws"; "azure"; "gcp"; "docker"; "kubernetes"; "terraform";
   "sql"; "postgresql"; "mysql"; "mongodb"; "redis";
   "git"; "ci/cd"; "jenkins"; "github actions";
   "machine learning"; "deep learning"; "ai"; "nlp"; "computer vision";
   "rest"; "graphql"; "microservices"; "api";
   "agile"; "scrum"; "tdd"; "unit testing";
   "typescript"; "html"; "css"].

Definition casing : gmap string string :=
  list_to_map
    [("javascript", "JavaScript");
     ("typescript", "TypeScript");
     ("node.js", "Node.js");
     ("postgresql", "PostgreSQL");
     ("mysql", "MySQL");
     ("mongodb", "MongoDB");
     ("graphql", "GraphQL");
     ("ci/cd", "CI/CD");
     ("aws", "AWS");
     ("gcp", "GCP");
     ("api", "API");
     ("nlp", "NLP");
     ("ai", "AI");
     ("tdd", "TDD")].

(** [c.toUpperCase()] for one code unit: a-z and the small letters of the
    Latin-1 block go to their capitals, the sharp s to SS; the capitals of
    the micro sign and of y with diaeresis lie beyond the 8-bit range, which
    [None] stands for. *)
Definition upper_char (c : ascii) : option string :=
  let n := N_of_ascii c in
  if JSString.is_lower c || (JSString.in_range 224 254 c && negb (n =? 247)%N)
  then Some (String (ascii_of_N (n - 32)) EmptyString)
  else if (n =? 223)%N then Some "SS"
  else if ((n =? 181) || (n =? 255))%N then None
  else Some (String c EmptyString).

(** [keyword.charAt(0).toUpperCase() + keyword.slice(1)] *)
Definition capitalize (keyword : string) : option string :=
  match keyword with
  | EmptyString => Some EmptyString
  | String c rest =>
      match upper_char c with
      | Some C => Some (C +:+ rest)
      | None => None
      end
  end.

(** [properCase(keyword)]: the text it returns, or [None] when what it
    returns is no text of the model: a member of [Object.prototype] the
    lookup in [casing] found, or a capital beyond the 8-bit range. *)
Definition properCase (keyword : string) : option string :=
  match Sse.get_property casing (JSString.toLowerCase keyword) with
  | Sse.Own s => if JSString.is_empty s then capitalize keyword else Some s
  | Sse.Inherited => None
  | Sse.Absent => capitalize keyword
  end.

(** [[...new Set(skills)]]: the distinct values in the order of their first
    occurrence. *)
Definition distinct (skills : list string) : list string :=
  fold_left
    (fun seen s => if existsb (String.eqb s) seen then seen else seen ++ [s])
    skills [].

(** [sort()] without a comparator orders texts by their code units; the
    order is total, so the array it leaves is the ordered arrangement of the
    elements, which insertion computes. *)
Fixpoint insert (s : string) (l : list string) : list string :=
  match l with
  | [] => [s]
  | x :: l' => if String.leb s x then s :: l else x :: insert s l'
  end.

Definition sort (l : list string) : list string := fold_right insert [] l.

(** No text occurs twice in [l]. *)
Fixpoint all_distinct (l : list string) : bool :=
  match l with
  | [] => true
  | x :: l' => negb (existsb (String.eqb x) l') && all_distinct l'
  end.

(** The keywords a job description holds, in the order of the list. *)
Definition found (jd : string) : list string :=
  let jdLower := JSString.toLowerCase jd in
  fold_left
    (fun skills keyword => if includes keyword jdLower then skills ++ [keyword] else skills)
    TECH_KEYWORDS [].

(** [extractSkills(jd)]; [None] when [properCase] returned something that
    is no text of the model. *)
Definition extractSkills (jd : string) : option (list string) :=
  let jdLower := JSString.toLowerCase jd in
  let skills :=
    fold_left
      (fun skills keyword =>
         if includes keyword jdLower then skills ++ [properCase keyword] else skills)
      TECH_KEYWORDS [] in
  (fun skills => sort (distinct skills)) <$> mapM (fun s : option string => s) skills.

(** *** Project ideas *)

Record Template := {
  tpl_title : string;
  tpl_description : string
}.

Definition web_templates : list Template :=
  [{| tpl_title := "Real-time Collaboration Platform";
      tpl_description := "Full-stack web app with real-time features" |};
   {| tpl_title := "E-Commerce Product Dashboard";
      tpl_description := "Complete e-commerce backend with inventory management" |};
   {| tpl_title := "Task Management System";
      tpl_description := "Feature-rich project management tool" |}].

Definition data_templates : list Template :=
  [{| tpl_title := "Predictive Analytics Dashboard";
      tpl_description := "ML-powered analytics platform" |};
   {| tpl_title := "NLP Sentiment Analysis API";
      tpl_description := "Natural language processing service" |}].

Definition cloud_templates : list Template :=
  [{| tpl_title := "Multi-Cloud Infrastructure Manager";
      tpl_description := "IaC solution for managing cloud resources" |};
   {| tpl_title := "Automated CI/CD Pipeline";
      tpl_description := "Complete DevOps pipeline" |}].

Inductive Category := Web | Data | Cloud.

Definition PROJECT_TEMPLATES (category : Category) : list Template :=
  match category with
  | Web => web_templates
  | Data => data_templates
  | Cloud => cloud_templates
  end.

(** [skillsLower.filter(s => names.includes(s)).length] *)
Definition count_in (names skillsLower : list string) : nat :=
  length (List.filter (fun s => existsb (String.eqb s) names) skillsLower).

Definition category_of (skills : list string) : Category :=
  let skillsLower := map JSString.toLowerCase skills in
  let mlCount :=
    count_in ["python"; "machine learning"; "deep learning"; "ai"; "nlp"] skillsLower in
  let cloudCount :=
    count_in ["aws"; "azure"; "gcp"; "docker"; "kubernetes"; "terraform"] skillsLower in
  if (2 <=? mlCount)%nat then Data
  else if (2 <=? cloudCount)%nat then Cloud
  else Web.

(** [Math.floor(x)] as an index, for a number that has one. *)
Definition floor_index (x : JSNumber.jsnum) : option nat :=
  match x with
  | JSNumber.Fin q => if Qle_bool 0 q then Some (Z.to_nat (Qfloor q)) else None
  | _ => None
  end.

(** [generateProjectIdea(skills)], [random] being what [Math.random()]
    returns; [None] stands for [undefined]. *)
Definition generateProjectIdea (random : Q) (skills : list string) : option Template :=
  let templates := PROJECT_TEMPLATES (category_of skills) in
  match floor_index (JSNumber.RN (random * inject_Z (Z.of_nat (length templates)))%Q) with
  | Some i => templates !! i
  | None => None
  end.

End Skills.

(** ** More sample inputs *)

Module Sample2.

(** The settings view after two runs, the account name octocat typed in. *)
Definition page0 : Page :=
  {| world := Sample.two_runs;
     form := {| gemini_key := ""; github_token := ""; github_username := " octocat ";
                anthropic_key := ""; private_repos := true |};
     alerts := [];
     history_view_active := true;
     history_list := [] |}.

End Sample2.


(** * Reasoning about the model *)

(** The assignments unfold as soon as they are applied. *)
Arguments set_run_id _ _ /.
Arguments set_status _ _ /.
Arguments set_startTime _ _ /.
Arguments set_apiRunning _ _ /.
Arguments set_projectTitle _ _ /.
Arguments set_run_description _ _ /.
Arguments set_enhancedIdea _ _ /.
Arguments set_prd _ _ /.
Arguments set_prdMarkdown _ _ /.
Arguments set_epicsCount _ _ /.
Arguments set_featuresCount _ _ /.
Arguments set_repoUrl _ _ /.
Arguments set_repoFullName _ _ /.
Arguments set_repoCreated _ _ /.
Arguments set_selectedFeatures _ _ /.
Arguments set_elapsedTime _ _ /.
Arguments set_error _ _ /.
Arguments set_githubUsername _ _ /.
Arguments set_steps _ _ /.
Arguments set_overall_progress _ _ /.
Arguments set_current_status _ _ /.
Arguments set_display _ _ /.
Arguments set_prd_preview_content _ _ /.
Arguments set_enhanced_idea_summary _ _ /.
Arguments set_feature_checklist _ _ /.
Arguments set_results_content _ _ /.
Arguments set_dashboard _ _ /.
Arguments set_idea_input _ _ /.
Arguments set_tech_preferences _ _ /.
Arguments with_dom _ _ /.
Arguments with_heap _ _ /.
Arguments with_currentRun _ _ /.
Arguments with_runHistory _ _ /.
Arguments with_storedHistory _ _ /.
Arguments with_settings _ _ /.
Arguments with_storedSettings _ _ /.
Arguments with_authToken _ _ /.
Arguments with_sources _ _ /.
Arguments with_ticks _ _ /.
Arguments with_log _ _ /.
Arguments elapsed : simpl never.
Arguments repoNameOf : simpl never.
Arguments flattenFeatures : simpl never.
Arguments countFeatures : simpl never.
Arguments aggregate : simpl never.
Arguments selection : simpl never.
Arguments history_runs : simpl never.
Arguments buildFallbackPRD : simpl never.
Arguments buildFallbackEnhancedIdea : simpl never.
Arguments isValidGitHubUsername : simpl never.
Arguments String.append : simpl never.
Arguments JSNumber.toString : simpl never.
Arguments JSNumber.of_Z : simpl never.
Arguments JSNumber.dec : simpl never.
Arguments JSString.trim : simpl never.
Arguments JSString.substring0 : simpl never.

(** ** The monad *)

Section Monad.
Context {A B : Type}.
Implicit Types (m : M A) (k : A -> M B) (h : string -> M A) (w : World).

Lemma bind_ok m k w a w' : m w = (Ok a, w') -> bind m k w = k a w'.
Proof. unfold bind. by intros ->. Qed.

Lemma bind_throw m k w e w' : m w = (Throw e, w') -> bind m k w = (Throw e, w').
Proof. unfold bind. by intros ->. Qed.

Lemma try_catch_ok m h w a w' : m w = (Ok a, w') -> try_catch m h w = (Ok a, w').
Proof. unfold try_catch. by intros ->. Qed.

Lemma try_catch_throw m h w e w' : m w = (Throw e, w') -> try_catch m h w = h e w'.
Proof. unfold try_catch. by intros ->. Qed.

Lemma exec_bind m k w :
  exec (bind m k) w
  = match m w with (Ok a, w') => exec (k a) w' | (Throw _, w') => w' end.
Proof. unfold exec, bind. by destruct (m w) as [[a|e] w']. Qed.

Lemma exec_try_catch m h w :
  exec (try_catch m h) w
  = match m w with (Ok _, w') => w' | (Throw e, w') => exec (h e) w' end.
Proof. unfold exec, try_catch. by destruct (m w) as [[a|e] w']. Qed.

End Monad.

(** ** Observations a computation leaves alone *)

Section Preserves.
Context {X : Type} (obs : World -> X).

Lemma preserves_ret {A} (a : A) : preserves obs (ret a).
Proof. by intros w. Qed.

Lemma preserves_throw {A} (e : string) : preserves obs (@throw A e).
Proof. by intros w. Qed.

Lemma preserves_get : preserves obs get.
Proof. by intros w. Qed.

Lemma preserves_bind {A B} (m : M A) (k : A -> M B) :
  preserves obs m -> (forall a, preserves obs (k a)) -> preserves obs (bind m k).
Proof.
  intros Hm Hk w. rewrite exec_bind. specialize (Hm w). unfold exec in Hm.
  destruct (m w) as [[a|e] w']; simpl in Hm; [|done].
  by rewrite Hk.
Qed.

Lemma preserves_try_catch {A} (m : M A) (h : string -> M A) :
  preserves obs m -> (forall e, preserves obs (h e)) -> preserves obs (try_catch m h).
Proof.
  intros Hm Hh w. rewrite exec_try_catch. specialize (Hm w). unfold exec in Hm.
  destruct (m w) as [[a|e] w']; simpl in Hm; [done|].
  by rewrite Hh.
Qed.

Lemma preserves_when (b : bool) (m : M unit) : preserves obs m -> preserves obs (when b m).
Proof. destruct b; [done|]. intros _. apply preserves_ret. Qed.

Lemma preserves_modify (f : World -> World) :
  (forall w, obs (f w) = obs w) -> preserves obs (modify f).
Proof. intros Hf w. apply Hf. Qed.

Lemma preserves_assign (f : Run -> Run) :
  (forall h w, obs (with_heap h w) = obs w) -> preserves obs (assign f).
Proof. intros Hf w. unfold exec, assign. destruct (currentRun w); [apply Hf|done]. Qed.

Lemma preserves_the_currentRun : preserves obs the_currentRun.
Proof.
  intros w. unfold exec, the_currentRun.
  destruct (currentRun w) as [a|]; [|done]. by destruct (heap w !! a).
Qed.

Lemma preserves_push_currentRun :
  (forall l w, obs (with_runHistory l w) = obs w) -> preserves obs push_currentRun.
Proof. intros Hf w. unfold exec, push_currentRun. destruct (currentRun w); [apply Hf|done]. Qed.

Lemma preserves_Date_now (env : Env) :
  (forall n w, obs (with_ticks n w) = obs w) -> preserves obs (Date_now env).
Proof. intros Hf w. apply Hf. Qed.

Lemma preserves_updateStepStatus stepId status text :
  (forall d w, obs (with_dom d w) = obs w) ->
  preserves obs (updateStepStatus stepId status text).
Proof.
  intros Hf w. unfold updateStepStatus.
  destruct (bool_decide _); [apply Hf|done].
Qed.

End Preserves.

(** The side condition of a frame step: the observation does not look at
    what the step changes; for the call logs, the logged effect is not one
    of the calls counted. *)
Ltac frame_side :=
  intros;
  first [ reflexivity
        | unfold create_repo_calls, network_calls; cbn;
          rewrite List.filter_app; cbn; by rewrite app_nil_r ].

Ltac frame_step :=
  lazymatch goal with
  | |- preserves _ (bind _ _) => apply preserves_bind; [|intros ?]
  | |- preserves _ (try_catch _ _) => apply preserves_try_catch; [|intros ?]
  | |- preserves _ (ret _) => apply preserves_ret
  | |- preserves _ (throw _) => apply preserves_throw
  | |- preserves _ get => apply preserves_get
  | |- preserves _ (when _ _) => apply preserves_when
  | |- preserves _ (assign _) => apply preserves_assign; frame_side
  | |- preserves _ the_currentRun => apply preserves_the_currentRun
  | |- preserves _ push_currentRun => apply preserves_push_currentRun; frame_side
  | |- preserves _ (Date_now _) => apply preserves_Date_now; frame_side
  | |- preserves _ (updateStepStatus _ _ _) => apply preserves_updateStepStatus; frame_side
  | |- preserves _ (modify _) => apply preserves_modify; frame_side
  | |- preserves _ (modify_dom _) => apply preserves_modify; frame_side
  | |- preserves _ (emit _) => apply preserves_modify; frame_side
  | |- preserves _ (if ?b then _ else _) => destruct b
  | |- preserves _ (match ?x with _ => _ end) => destruct x
  | |- preserves _ (let '(_, _) := ?x in _) => destruct x
  end.

Ltac frame_unfold :=
  unfold persist, run_failed, complete, step_publish, step_implement, step_github,
    record_prd, record_idea, step_prd, step_enhance, check_token, ensure_username,
    pushFilesToRepo, generatePRDAPI, enhanceIdeaAPI, createGitHubRepo,
    validateGitHubToken, checkApiServer, sleep, showResults, updateDashboard,
    updateProgress, set_status_line, set_display_of, showToast, save_settings,
    save_history, new_currentRun,
    Sse.updateStepOf, Sse.close, Review.renderReviewSection.

Ltac frame := repeat (frame_unfold; frame_step).

(** ** A weakest-precondition calculus for runs *)

Section Wp.
Context {A : Type}.
Implicit Types (Q : A -> World -> Prop) (E : string -> World -> Prop) (w : World).

Lemma wp_ret (a : A) Q E w : Q a w -> wp (ret a) Q E w.
Proof. done. Qed.

Lemma wp_throw (e : string) Q E w : E e w -> wp (throw e) Q E w.
Proof. done. Qed.

Lemma wp_bind {B} (m : M B) (k : B -> M A) Q E w :
  wp m (fun b w' => wp (k b) Q E w') E w -> wp (bind m k) Q E w.
Proof. unfold wp, bind. by destruct (m w) as [[b|e] w']. Qed.

Lemma wp_try_catch (m : M A) (h : string -> M A) Q E w :
  wp m Q (fun e w' => wp (h e) Q E w') w -> wp (try_catch m h) Q E w.
Proof. unfold wp, try_catch. by destruct (m w) as [[b|e] w']. Qed.

Lemma wp_mono (m : M A) Q Q' E E' w :
  wp m Q E w ->
  (forall a w', Q a w' -> Q' a w') -> (forall e w', E e w' -> E' e w') ->
  wp m Q' E' w.
Proof. unfold wp. destruct (m w) as [[b|e] w']; eauto. Qed.

End Wp.

Lemma wp_get (Q : World -> World -> Prop) E w : Q w w -> wp get Q E w.
Proof. done. Qed.

Lemma wp_modify (f : World -> World) (Q : unit -> World -> Prop) E w :
  Q tt (f w) -> wp (modify f) Q E w.
Proof. done. Qed.

Lemma wp_assign (f : Run -> Run) (Q : unit -> World -> Prop) E w a :
  currentRun w = Some a ->
  Q tt (with_heap (alter f a (heap w)) w) -> wp (assign f) Q E w.
Proof. unfold wp, assign. by intros ->. Qed.


Lemma wp_push_currentRun (Q : unit -> World -> Prop) E w a :
  currentRun w = Some a ->
  Q tt (with_runHistory (runHistory w ++ [a]) w) -> wp push_currentRun Q E w.
Proof. unfold wp, push_currentRun. by intros ->. Qed.

Lemma wp_Date_now env (Q : Z -> World -> Prop) E w :
  Q (clock env (ticks w)) (with_ticks (S (ticks w)) w) -> wp (Date_now env) Q E w.
Proof. done. Qed.

Lemma wp_updateStepStatus stepId status text (Q : unit -> World -> Prop) E w :
  bool_decide (stepId ∈ step_elements) = true ->
  Q tt (with_dom (set_steps (<[stepId := (status, JSString.or_else text status)]>
                               (steps (dom w))) (dom w)) w) ->
  wp (updateStepStatus stepId status text) Q E w.
Proof. intros H. unfold wp, updateStepStatus. by rewrite H. Qed.

Lemma wp_when_emit (b : bool) (e : Effect) (Q : unit -> World -> Prop) E w :
  Q tt (with_log (if b then log w ++ [e] else log w) w) -> wp (when b (emit e)) Q E w.
Proof. destruct w, b; done. Qed.

Lemma wp_when_assign (b : bool) (f : Run -> Run) (Q : unit -> World -> Prop) E w a :
  currentRun w = Some a ->
  Q tt (with_heap (if b then alter f a (heap w) else heap w) w) ->
  wp (when b (assign f)) Q E w.
Proof. intros Hc HQ. destruct w; simpl in *; subst. by destruct b. Qed.

Lemma lookup_snoc {A} (l : list A) (x : A) : (l ++ [x]) !! length l = Some x.
Proof. by apply list_lookup_middle. Qed.

Lemma running_alter (f : Run -> Run) a r w :
  running a r w -> running a (f r) (with_heap (alter f a (heap w)) w).
Proof.
  intros [Hc Hh]. split; [done|]. simpl. by rewrite list_lookup_alter_eq, Hh.
Qed.

(** One step of a derivation.  Only the world is simplified, to the form of
    a record of its fields; the computation still to run is left as it is. *)
Ltac wp_world :=
  lazymatch goal with
  | |- wp ?m ?Q ?E ?W =>
      let W' := eval cbn -[alter elapsed aggregate history_runs] in W in
      let m' := eval cbv beta iota in m in
      change (wp m' Q E W')
  end.

Ltac wp_step :=
  lazymatch goal with
  | |- wp (bind _ _) _ _ _ => apply wp_bind
  | |- wp (try_catch _ _) _ _ _ => apply wp_try_catch
  | |- wp (ret _) _ _ _ => apply wp_ret
  | |- wp (throw _) _ _ _ => apply wp_throw
  | |- wp get _ _ _ => apply wp_get
  | |- wp (Date_now _) _ _ _ => apply wp_Date_now
  | |- wp (assign _) _ _ _ => eapply wp_assign; [reflexivity|]
  | |- wp push_currentRun _ _ _ => eapply wp_push_currentRun; [reflexivity|]
  | |- wp (updateStepStatus _ _ _) _ _ _ =>
      apply wp_updateStepStatus; [vm_compute; reflexivity|]
  | |- wp (when _ (emit _)) _ _ _ => apply wp_when_emit
  | |- wp (when _ (showToast _ _ _)) _ _ _ => apply wp_when_emit
  | |- wp (when _ (assign _)) _ _ _ => eapply wp_when_assign; [reflexivity|]
  | |- wp (when true _) _ _ _ => unfold when at 1
  | |- wp (when false _) _ _ _ => unfold when at 1
  | |- wp (if true then _ else _) _ _ _ => cbv iota
  | |- wp (if false then _ else _) _ _ _ => cbv iota
  | |- wp (if negb _ then _ else _) _ _ _ => progress cbn [negb]
  | |- wp (modify _) _ _ _ => apply wp_modify
  | |- wp (modify_dom _) _ _ _ => apply wp_modify
  | |- wp (emit _) _ _ _ => apply wp_modify
  | |- wp (sleep _) _ _ _ => apply wp_modify
  | |- wp (showToast _ _ _) _ _ _ => apply wp_modify
  | |- wp (set_display_of _ _) _ _ _ => apply wp_modify
  | |- wp (set_status_line _) _ _ _ => apply wp_modify
  | |- wp (updateProgress _) _ _ _ => apply wp_modify
  | |- wp updateDashboard _ _ _ => apply wp_modify
  | |- wp save_history _ _ _ => apply wp_modify
  | |- wp save_settings _ _ _ => apply wp_modify
  | |- wp (new_currentRun _) _ _ _ => apply wp_modify
  end.

Ltac wp_run := repeat (cbv beta; wp_step; try wp_world).

(** Look a literal key up in the two step tables. *)
Ltac lookup_steps :=
  repeat match goal with
  | |- context [Sse.get_property Sse.stepMapping ?k] =>
      let v := eval vm_compute in (Sse.get_property Sse.stepMapping k) in
      change (Sse.get_property Sse.stepMapping k) with v
  | |- context [Sse.get_property Sse.stepProgress ?k] =>
      let v := eval vm_compute in (Sse.get_property Sse.stepProgress k) in
      change (Sse.get_property Sse.stepProgress k) with v
  end.


Arguments show_count : simpl never.
Arguments show_str : simpl never.
Arguments str_or : simpl never.
Arguments simulated_url : simpl never.
Arguments updateStepStatus : simpl never.
Arguments Review.getSelectedFeatureIndices : simpl never.
Arguments Review.render_checklist : simpl never.

(** ** The steps of a run *)

Lemma wp_the_currentRun_open (Q : Run -> World -> Prop) E d h a rh sh st sst au so ti lo r :
  h !! a = Some r ->
  Q r (Build_World d h (Some a) rh sh st sst au so ti lo) ->
  wp the_currentRun Q E (Build_World d h (Some a) rh sh st sst au so ti lo).
Proof. intros Hh. unfold wp, the_currentRun. simpl. by rewrite Hh. Qed.

(** A world given field by field. *)
Ltac open_world w :=
  let d := fresh "d" in let h := fresh "h" in let c := fresh "c" in
  let rh := fresh "rh" in let sh := fresh "sh" in let st := fresh "st" in
  let sst := fresh "sst" in let au := fresh "au" in let so := fresh "so" in
  let ti := fresh "ti" in let lo := fresh "lo" in
  destruct w as [d h c rh sh st sst au so ti lo].

(** The same, the current run known. *)
Ltac open_running w Hrun :=
  let Hc := fresh "Hc" in
  let Hh := fresh "Hh" in
  destruct Hrun as [Hc Hh];
  open_world w;
  simpl in Hc, Hh; subst.

Ltac close_running :=
  first [ done
        | split; [reflexivity|]; simpl;
          rewrite ?list_lookup_alter_eq; by (simplify_option_eq) ].

Section Steps.
Context (env : Env) (a : nat) (r : Run) (w : World).
Context (Q : unit -> World -> Prop) (E : string -> World -> Prop).
Hypothesis Hrun : running a r w.






Lemma wp_persist :
  (forall w', running a r w' -> runHistory w' = runHistory w ++ [a] ->
              storedHistory w' = history_runs w' -> ticks w' = ticks w ->
              sources w' = sources w -> Q tt w') ->
  wp persist Q E w.
Proof.
  intros HQ. open_running w Hrun.
  unfold persist. wp_run. by apply HQ.
Qed.

End Steps.

Section EarlySteps.
Context (env : Env) (apiRunning : bool).




Context (a : nat) (r : Run) (w : World).
Hypothesis Hrun : running a r w.



End EarlySteps.



Lemma onmessage_total env es msg w : fst (Sse.onmessage env es msg w) = Ok tt.
Proof.
  unfold Sse.onmessage, bind at 1, get.
  destruct (sources w !! es) as [src|]; [|done].
  destruct (es_open src); [|done]. cbn [negb].
  unfold try_catch.
  match goal with |- context [let (_, _) := ?m w in _] => destruct (m w) as [[[]|e] w'] end; done.
Qed.

(** ** Resuming after the review *)



(** ** From a derivation to the world a computation leaves *)

Lemma wp_exec {A} (m : M A) (Q : World -> Prop) (w : World) :
  wp m (fun _ w' => Q w') (fun _ _ => False) w -> Q (exec m w).
Proof. unfold wp, exec. by destruct (m w) as [[x|e] w']. Qed.

Lemma wp_returns {A} (m : M A) (Q : A -> World -> Prop) (w : World) :
  wp m Q (fun _ _ => False) w -> exists x, fst (m w) = Ok x.
Proof. unfold wp. destruct (m w) as [[x|e] w']; [by eexists|done]. Qed.

(** ** The fallback PRD *)



(** ** Phase 1 of the two-phase controller *)


(** ** The step-by-step run, backend offline *)


(** ** The stream handler *)

Lemma stepMapping_pipeline : Sse.get_property Sse.stepMapping "pipeline" = Sse.Absent.
Proof. by vm_compute. Qed.

Lemma stepProgress_pipeline : Sse.get_property Sse.stepProgress "pipeline" = Sse.Own 100.
Proof. by vm_compute. Qed.

Lemma or_else_empty (s : string) : JSString.or_else s "" = s.
Proof. by destruct s. Qed.

Lemma str_or_detail (X : string) : str_or (Some X) "" = X.
Proof. apply or_else_empty. Qed.



Section Pipeline.
Context (env : Env) (es : nat) (src : EventSource) (a : nat) (r : Run) (w : World).
Context (data : Sse.StepEvent).
Hypothesis Hsrc : sources w !! es = Some src.
Hypothesis Hopen : es_open src = true.
Hypothesis Hrun : running a r w.
Hypothesis Hstep : Sse.ev_step data = "pipeline".

Abbreviation w' := (exec (Sse.onmessage env es (Sse.Json data)) w).

(** The shape of every derivation below: open the handler on the event. *)
Ltac open_handler :=
  apply wp_exec;
  unfold Sse.onmessage; apply wp_bind, wp_get; rewrite Hsrc, Hopen;
  cbn [negb]; apply wp_try_catch;
  destruct data as [step status detail pl]; simpl in *; subst;
  cbv beta iota zeta;
  rewrite stepMapping_pipeline, stepProgress_pipeline;
  open_running w Hrun; simpl in Hsrc.

Lemma pipeline_not_completed :
  String.eqb (Sse.ev_status data) "completed" = false ->
  runHistory w' = runHistory w ++ [a]
  /\ storedHistory w' = history_runs w'
  /\ ticks w' = ticks w
  /\ (exists s, sources w' !! es = Some s /\ es_open s = false)
  /\ exists r', running a r' w'
       /\ status r' = "failed" /\ error r' = Some (str_or (Sse.ev_detail data) "")
       /\ elapsedTime r' = elapsedTime r
       /\ run_id r' = run_id r
       /\ forall es', es' <> es -> sources w' !! es' = sources w !! es'.
Proof.
  intros Hstatus. open_handler.
  rewrite Hstatus. cbn [String.eqb Ascii.eqb Bool.eqb andb negb Z.eqb].
  destruct (truthy_count (Sse.payload Sse.pl_epics_count _)),
    (truthy_count (Sse.payload Sse.pl_features_count _)),
    (truthy_str (Sse.payload Sse.pl_name _)).
  all: wp_run; unfold Sse.close; wp_run.
  all: eapply wp_persist; [close_running|]; intros w1 R1 H1 H2 H3 H4; simpl in *.
  all: repeat split; try done.
  all: try (rewrite H4, list_lookup_alter_eq, Hsrc; by eexists).
  all: eexists; split; [eassumption|]; simpl; repeat split; try done.
  all: intros es' Hne; rewrite H4; by apply list_lookup_alter_ne.
Qed.

Lemma pipeline_completed :
  Sse.ev_status data = "completed" ->
  runHistory w' = runHistory w ++ [a]
  /\ storedHistory w' = history_runs w'
  /\ ticks w' = S (ticks w)
  /\ (exists s, sources w' !! es = Some s /\ es_open s = false)
  /\ exists r', running a r' w'
       /\ status r' = "success" /\ error r' = error r
       /\ elapsedTime r'
          = Some (elapsed (clock env (ticks w)) (Some (es_startTime src)))
       /\ run_id r' = run_id r
       /\ forall es', es' <> es -> sources w' !! es' = sources w !! es'.
Proof.
  intros Hstatus. open_handler.
  cbn [String.eqb Ascii.eqb Bool.eqb andb negb Z.eqb].
  destruct (truthy_count (Sse.payload Sse.pl_epics_count _)),
    (truthy_count (Sse.payload Sse.pl_features_count _)),
    (truthy_str (Sse.payload Sse.pl_name _)).
  all: wp_run; unfold Sse.close; wp_run.
  all: eapply wp_persist; [close_running|]; intros w1 R1 H1 H2 H3 H4; simpl in *.
  all: repeat split; try done.
  all: try (rewrite H4, list_lookup_alter_eq, Hsrc; by eexists).
  all: eexists; split; [eassumption|]; simpl; repeat split; try done.
  all: intros es' Hne; rewrite H4; by apply list_lookup_alter_ne.
Qed.

End Pipeline.



(** The last entry of the history is the object the last address names. *)
Lemma last_history_runs w a r :
  runHistory w = removelast (runHistory w) ++ [a] -> heap w !! a = Some r ->
  last (history_runs w) = Some r.
Proof.
  intros Hrh Hh. unfold history_runs. rewrite Hrh, omap_app. simpl.
  rewrite Hh. simpl. by rewrite last_snoc.
Qed.

Lemma last_history_after_push w w' a r :
  runHistory w' = runHistory w ++ [a] -> heap w' !! a = Some r ->
  last (history_runs w') = Some r.
Proof.
  intros Hrh Hh. unfold history_runs. rewrite Hrh, omap_app. simpl.
  rewrite Hh. simpl. by rewrite last_snoc.
Qed.


(** ** Progress *)

Lemma wp_exec_any {A} (m : M A) (P : World -> Prop) (w : World) :
  wp m (fun _ w' => P w') (fun _ w' => P w') w -> P (exec m w).
Proof. unfold wp, exec. by destruct (m w) as [[x|e] w']. Qed.

Lemma wp_frame {A X} (obs : World -> X) (m : M A) (v : X) (w : World) :
  preserves obs m -> obs w = v ->
  wp m (fun _ w' => obs w' = v) (fun _ w' => obs w' = v) w.
Proof.
  intros Hm Hv. specialize (Hm w). unfold wp, exec in *.
  destruct (m w) as [[x|e] w']; simpl in Hm; congruence.
Qed.

Lemma known_step_progress env es src w data weight :
  sources w !! es = Some src -> es_open src = true ->
  In (Sse.ev_step data, weight)
     [("enhance_idea", 16); ("generate_prd", 33); ("create_repo", 50);
      ("extract_features", 66); ("implement", 83); ("publish", 95); ("pipeline", 100)] ->
  let w' := exec (Sse.onmessage env es (Sse.Json data)) w in
  (Sse.ev_status data = "completed" -> overall_progress (dom w') = Percent weight)
  /\ (Sse.ev_status data = "in_progress" ->
      overall_progress (dom w') = Percent (Z.max (weight - 10) 0)).
Proof.
  intros Hsrc Hopen Hin w'. subst w'.
  destruct data as [step status detail pl]. simpl in Hin.
  split; intros Hstatus; simpl in Hstatus; subst status.
  all: apply (wp_exec_any _ (fun w' => overall_progress (dom w') = _)).
  all: unfold Sse.onmessage; apply wp_bind, wp_get.
  all: rewrite Hsrc, Hopen; cbn [negb]; apply wp_try_catch.
  all: repeat (destruct Hin as [[= <- <-]|Hin]); try done.
  all: cbv beta iota zeta; cbn [Sse.ev_step Sse.ev_status Sse.ev_detail Sse.ev_data].
  all: lookup_steps; cbv beta iota.
  all: cbn [String.eqb Ascii.eqb Bool.eqb andb negb Z.eqb Z.sub Z.max].
  all: apply wp_bind;
    first [ apply wp_ret
          | unfold Sse.updateStepOf; apply wp_updateStepStatus; [vm_compute; reflexivity|] ].
  all: apply wp_bind; unfold when at 1; apply wp_modify.
  all: eapply wp_mono;
    [ apply (wp_frame (fun w => overall_progress (dom w))); [frame|reflexivity]
    | done
    | by intros e w1 H1 ].
Qed.

(** ** Steps the tables do not know *)

Lemma unknown_step_lookup (step : string) :
  step ∉ known_steps ->
  (Sse.get_property Sse.stepMapping step = Sse.Absent
   /\ Sse.get_property Sse.stepProgress step = Sse.Absent)
  \/ (Sse.get_property Sse.stepMapping step = Sse.Inherited
      /\ Sse.get_property Sse.stepProgress step = Sse.Inherited).
Proof.
  intros Hstep. unfold known_steps in Hstep.
  repeat (apply not_elem_of_cons in Hstep as [? Hstep]).
  assert (Sse.stepMapping !! step = None) as Hm.
  { unfold Sse.stepMapping. simpl. by rewrite !lookup_insert_ne, lookup_empty. }
  assert (Sse.stepProgress !! step = None) as Hp.
  { unfold Sse.stepProgress. simpl. by rewrite !lookup_insert_ne, lookup_empty. }
  unfold Sse.get_property. rewrite Hm, Hp.
  destruct (bool_decide (step ∈ Sse.Object_prototype)); [by right|by left].
Qed.

Lemma preserves_bind_throw {A B X} (obs : World -> X) (e : string) (k : A -> M B) :
  preserves obs (bind (throw e) k).
Proof. by intros w. Qed.

Lemma unknown_step_ignored env es data :
  Sse.ev_step data ∉ known_steps ->
  Sse.ev_status data ∈ ["in_progress"; "completed"; "failed"] ->
  preserves (fun w => (steps (dom w), overall_progress (dom w)))
    (Sse.onmessage env es (Sse.Json data)).
Proof.
  intros Hstep Hstatus.
  destruct data as [step status detail pl]; simpl in Hstep, Hstatus.
  unfold Sse.onmessage.
  apply preserves_bind; [apply preserves_get|]. intros w0.
  destruct (sources w0 !! es) as [src|]; [|apply preserves_ret].
  destruct (negb (es_open src)); [apply preserves_ret|].
  apply preserves_try_catch; [|intros e; frame].
  cbv beta iota zeta. cbn [Sse.ev_step Sse.ev_status Sse.ev_detail Sse.ev_data].
  destruct (unknown_step_lookup step Hstep) as [[-> ->]|[-> ->]].
  - assert (String.eqb step "generate_prd" = false) as ->.
    { apply String.eqb_neq. intros ->. apply Hstep. apply list_elem_of_In. simpl. tauto. }
    assert (String.eqb step "pipeline" = false) as ->.
    { apply String.eqb_neq. intros ->. apply Hstep. apply list_elem_of_In. simpl. tauto. }
    cbn [andb]. frame.
  - repeat (apply elem_of_cons in Hstatus as [->|Hstatus]);
      [| | |by apply elem_of_nil in Hstatus].
    all: cbn [String.eqb Ascii.eqb Bool.eqb]; unfold Sse.updateStepOf.
    all: apply preserves_bind_throw.
Qed.

(** ** Selecting by index *)





(** ** Validation *)

Lemma empty_idea_rejected env w :
  JSString.trim (idea_input (dom w)) = "" ->
  Sse.startRunWithSSE env w = (Ok tt, with_log (log w ++ [missing_input]) w)
  /\ Sse.startRunLegacy env w = (Ok tt, with_log (log w ++ [missing_input]) w)
  /\ Review.startRun env w = (Ok tt, with_log (log w ++ [missing_input]) w).
Proof.
  intros H.
  unfold Sse.startRunWithSSE, Sse.startRunLegacy, Review.startRun, bind, get.
  by rewrite H.
Qed.

(** ** The dashboard *)

Lemma fold_features_sum (h : list Run) (n : nat) :
  fold_left (fun sum r => (sum + default 0%nat (featuresCount r))%nat) h n
  = (n + list_sum (map (fun r => default 0%nat (featuresCount r)) h))%nat.
Proof.
  revert n; induction h as [|r h IH]; intros n; simpl; [lia|].
  rewrite IH. lia.
Qed.

Lemma aggregate_counts (h : list Run) :
  total_runs (aggregate h) = length h
  /\ successful_runs (aggregate h) = length (filter (fun r => status r = "success") h)
  /\ total_features (aggregate h)
     = list_sum (map (fun r => default 0%nat (featuresCount r)) h).
Proof.
  unfold aggregate; simpl. repeat split. by rewrite fold_features_sum.
Qed.

Lemma aggregate_empty :
  aggregate []
  = {| total_runs := 0; successful_runs := 0; avg_time := VNum (JSNumber.Fin 0);
       total_features := 0; recent_runs := [] |}.
Proof. by vm_compute. Qed.

(** ** The fallback PRD depends on the title and the description only *)


(** ** Counting and flattening *)

Lemma fold_features (ep : Epic) (st : Story) (l : list Feature) (acc : list FeatureRef) :
  fold_left (fun feats feat => feats ++ [featureRef ep st feat]) l acc
  = acc ++ map (featureRef ep st) l.
Proof.
  revert acc; induction l as [|feat l IH]; intros acc; simpl.
  - by rewrite app_nil_r.
  - by rewrite IH, <- app_assoc.
Qed.

Lemma fold_stories (ep : Epic) (sts : list Story) (acc : list FeatureRef) :
  fold_left
    (fun feats st =>
       fold_left (fun feats feat => feats ++ [featureRef ep st feat])
         (list_or_empty (features st)) feats) sts acc
  = acc ++ flat_map (story_refs ep) sts.
Proof.
  revert acc; induction sts as [|st sts IH]; intros acc; simpl.
  - by rewrite app_nil_r.
  - by rewrite IH, fold_features, <- app_assoc.
Qed.

Lemma fold_epics (eps : list Epic) (acc : list FeatureRef) :
  fold_left
    (fun feats ep =>
       fold_left
         (fun feats st =>
            fold_left (fun feats feat => feats ++ [featureRef ep st feat])
              (list_or_empty (features st)) feats)
         (list_or_empty (user_stories ep)) feats) eps acc
  = acc ++ flat_map epic_refs eps.
Proof.
  revert acc; induction eps as [|ep eps IH]; intros acc; simpl.
  - by rewrite app_nil_r.
  - rewrite IH, fold_stories. unfold epic_refs at 2. by rewrite <- app_assoc.
Qed.

Lemma flattenFeatures_flat_map (prd : PRD) :
  flattenFeatures prd = flat_map epic_refs (list_or_empty (epics prd)).
Proof. unfold flattenFeatures. by rewrite fold_epics. Qed.

Lemma count_stories (sts : list Story) (n : nat) :
  fold_left (fun count st => (count + length (list_or_empty (features st)))%nat) sts n
  = (n + length (flat_map (fun st => list_or_empty (features st)) sts))%nat.
Proof.
  revert n; induction sts as [|st sts IH]; intros n; simpl.
  - lia.
  - rewrite IH, length_app. lia.
Qed.

Lemma length_story_refs ep sts :
  length (flat_map (story_refs ep) sts)
  = length (flat_map (fun st => list_or_empty (features st)) sts).
Proof.
  induction sts as [|st sts IH]; simpl; [done|].
  rewrite !length_app, IH. unfold story_refs. by rewrite length_map.
Qed.

Lemma count_epics (eps : list Epic) (n : nat) :
  fold_left
    (fun count ep =>
       fold_left
         (fun count st => (count + length (list_or_empty (features st)))%nat)
         (list_or_empty (user_stories ep)) count) eps n
  = (n + length (flat_map epic_refs eps))%nat.
Proof.
  revert n; induction eps as [|ep eps IH]; intros n; simpl.
  - lia.
  - rewrite IH, count_stories, length_app. unfold epic_refs at 2.
    rewrite length_story_refs. lia.
Qed.


(** ** The check boxes of the review section *)








(** ** Messages in sequence *)

Lemma deliver_cons env es msg msgs w :
  exec (deliver env es (msg :: msgs)) w
  = exec (deliver env es msgs) (exec (Sse.onmessage env es msg) w).
Proof.
  simpl. unfold exec, bind. pose proof (onmessage_total env es msg w) as H.
  destruct (Sse.onmessage env es msg w) as [[[]|e] w1]; simpl in *; [done|discriminate].
Qed.


(** With every stream closed no message is handled. *)
Lemma onmessage_all_closed env es msg w :
  (forall es' s, sources w !! es' = Some s -> es_open s = false) ->
  Sse.onmessage env es msg w = (Ok tt, w).
Proof.
  intros Hall. unfold Sse.onmessage, bind at 1, get.
  destruct (sources w !! es) as [s|] eqn:Hs; [|done].
  by rewrite (Hall es s Hs).
Qed.

Lemma deliver_all_closed env msgs w :
  (forall es' s, sources w !! es' = Some s -> es_open s = false) ->
  exec (deliver_all env msgs) w = w.
Proof.
  intros Hall. induction msgs as [|[es msg] msgs IH]; [done|].
  unfold exec in *. simpl.
  by rewrite (bind_ok _ _ _ _ _ (onmessage_all_closed env es msg w Hall)).
Qed.

(** Once the one stream that was open is closed, all are. *)
Lemma all_closed_after (es : nat) (w w' : World) :
  (exists s, sources w' !! es = Some s /\ es_open s = false) ->
  (forall es', es' <> es -> sources w' !! es' = sources w !! es') ->
  (forall es' src', es' <> es -> sources w !! es' = Some src' -> es_open src' = false) ->
  forall es' s, sources w' !! es' = Some s -> es_open s = false.
Proof.
  intros (s0 & Hs0 & Hclosed) Hsame Hothers es' s Hs.
  destruct (decide (es' = es)) as [->|Hne]; [congruence|].
  rewrite (Hsame es' Hne) in Hs. by apply (Hothers es' s).
Qed.


Lemma count_occ_snoc_new (l : list nat) (a : nat) :
  a ∉ l -> count_occ Nat.eq_dec (l ++ [a]) a = 1%nat.
Proof.
  intros Hnot. rewrite count_occ_app. cbn. destruct (Nat.eq_dec a a); [|done].
  rewrite (proj1 (count_occ_not_In Nat.eq_dec l a)); [done|].
  intros Hin. apply Hnot. by apply list_elem_of_In.
Qed.

Lemma network_calls_toast (w : World) (kind head body : string) :
  network_calls (with_log (log w ++ [Toast kind head body]) w) = network_calls w.
Proof.
  unfold network_calls. simpl. rewrite List.filter_app. simpl. by rewrite app_nil_r.
Qed.

(** * The claims *)

(** ** C1: the review gate *)




(** Resuming is what issues the call: with the backend up, phase 1 has
    issued none and phase 2 issues one. *)
Example resume_issues_create_repo :
  create_repo_calls (exec (Review.startRun Sample.env_online) Sample.world_online) = []
  /\ length (create_repo_calls
               (exec (Review.startRun Sample.env_online >> Review.continueAfterReview Sample.env_online)%run
                     Sample.world_online)) = 1%nat.
Proof. by vm_compute. Qed.

(** ** C2: a failed pipeline *)

(** C2, as the code has it.  The handler records a failed pipeline against
    the current run.  When the open stream that receives the pipeline event
    with status failed and detail X is the stream of the current run, that
    run is not yet in the history and no other stream is open, the run gets
    status failed and error X, character for character, and is in the
    history exactly once: the history is the old one followed by this run,
    it is the copy saved to the store, and no message of any stream changes
    anything afterwards. *)
Theorem C2_pipeline_failure_recorded
    (env : Env) (es : nat) (src : EventSource) (a : nat) (r : Run) (w : World)
    (data : Sse.StepEvent) (X : string) (further : list (nat * Sse.Message)) :
  sources w !! es = Some src -> es_open src = true -> running a r w ->
  run_id r = es_run_id src -> a ∉ runHistory w ->
  (forall es' src', es' <> es -> sources w !! es' = Some src' -> es_open src' = false) ->
  Sse.ev_step data = "pipeline" -> Sse.ev_status data = "failed" ->
  Sse.ev_detail data = Some X ->
  let w1 := exec (Sse.onmessage env es (Sse.Json data)) w in
  exists r', running a r' w1
    /\ run_id r' = es_run_id src
    /\ status r' = "failed" /\ error r' = Some X
    /\ runHistory w1 = runHistory w ++ [a]
    /\ count_occ Nat.eq_dec (runHistory w1) a = 1%nat
    /\ last (history_runs w1) = Some r'
    /\ storedHistory w1 = history_runs w1
    /\ exec (deliver_all env further) w1 = w1.
Proof.
  intros Hsrc Hopen Hrun Hid Hnew Hothers Hstep Hstatus Hdetail w1. subst w1.
  assert (String.eqb (Sse.ev_status data) "completed" = false) as Hne by by rewrite Hstatus.
  destruct (pipeline_not_completed env es src a r w data Hsrc Hopen Hrun Hstep Hne)
    as (Hh & Hst & _ & Hclosed & r' & Hr & Hs' & He & _ & Hid' & Hsame).
  exists r'. split; [exact Hr|]. split; [congruence|]. split; [exact Hs'|].
  split; [by rewrite He, Hdetail, str_or_detail|].
  split; [exact Hh|].
  split; [rewrite Hh; by apply count_occ_snoc_new|].
  split; [destruct Hr as [_ Hheap]; by apply (last_history_after_push w _ a r')|].
  split; [exact Hst|].
  apply deliver_all_closed. by apply (all_closed_after es w).
Qed.

Lemma C2_pipeline_failure_recorded_witness :
  exists r',
    last (history_runs
            (exec (Sse.onmessage (Sample.env0 true) 0
                     (Sse.Json (Sample.step_event "pipeline" "failed"
                                  "GitHub API rate limit exceeded" None)))
                  Sample.streaming)) = Some r'
    /\ status r' = "failed" /\ error r' = Some "GitHub API rate limit exceeded".
Proof.
  assert (running 0 Sample.streaming_run Sample.streaming) as Hrun by (split; reflexivity).
  assert (0%nat ∉ runHistory Sample.streaming) as Hnew by apply not_elem_of_nil.
  assert (forall es' src', es' <> 0%nat -> sources Sample.streaming !! es' = Some src' ->
                           es_open src' = false) as Hothers
    by (intros [|n] src' Hne Hs; [by destruct Hne|discriminate Hs]).
  destruct (C2_pipeline_failure_recorded (Sample.env0 true) 0 Sample.stream0 0
              Sample.streaming_run Sample.streaming
              (Sample.step_event "pipeline" "failed" "GitHub API rate limit exceeded" None)
              "GitHub API rate limit exceeded"
              [(0%nat, Sample.event "pipeline" "completed" "done" None)]
              eq_refl eq_refl Hrun eq_refl Hnew Hothers eq_refl eq_refl eq_refl)
    as (r' & _ & _ & Hs & He & _ & _ & Hl & _).
  exists r'. split; [exact Hl|]. split; [exact Hs|exact He].
Defined.

(** C2 as worded fails once a second run was started while the stream of
    the first is open: the failed pipeline event on the first stream is
    recorded against the second run, and the run the stream was opened
    for stays running and is not in the history. *)
Lemma C2_failure_recorded_against_another_run : ~ pipeline_failure_claim.
Proof.
  intros H.
  assert (0%nat ∉ runHistory Sample.two_streams) as Hnew by apply not_elem_of_nil.
  destruct (H (Sample.env0 true) 0%nat Sample.stream0 0%nat Sample.streaming_run
              Sample.two_streams
              (Sample.step_event "pipeline" "failed" "GitHub API rate limit exceeded" None)
              "GitHub API rate limit exceeded"
              eq_refl eq_refl eq_refl eq_refl Hnew eq_refl eq_refl eq_refl)
    as (r' & Hheap & Hs & _).
  vm_compute in Hheap. injection Hheap as <-. discriminate Hs.
Qed.

(** After a failed pipeline event on each of the two streams the second
    run is in the history twice and the first not at all. *)
Example failed_events_on_two_streams :
  let failed :=
    Sse.Json (Sample.step_event "pipeline" "failed" "GitHub API rate limit exceeded" None) in
  let w := exec (deliver_all (Sample.env0 true) [(0%nat, failed); (1%nat, failed)])
                Sample.two_streams in
  runHistory w = [1%nat; 1%nat]
  /\ (status <$> heap w !! 0%nat) = Some "running"
  /\ (run_id <$> heap w !! 0%nat) = Some "run-1"
  /\ (run_id <$> heap w !! 1%nat) = Some "run-2".
Proof. by vm_compute. Qed.

(** ** C3: selecting features *)



(** A backend idea without a title passes the review gate and fails the
    run on resuming: the record is failed, with the 5 features selected. *)
Example resume_without_title_fails :
  let w := exec (Review.continueAfterReview Sample.env_untitled) Sample.at_review_untitled in
  display (dom Sample.at_review_untitled) !! "prd-review-section" = Some true
  /\ map status (history_runs w) = ["failed"]
  /\ map error (history_runs w) = [Some title_TypeError]
  /\ map featuresCount (history_runs w) = [Some 5%nat].
Proof. by vm_compute. Qed.

(** ** C4: the dashboard *)

(** C4 fails on the average.  Two runs in a row, each successful with the
    elapsed time 2.0 on record: the dashboard counts 2 runs, 2 successful
    and 10 features, and shows NaN for the average time, where the mean
    is 2.0.  The elapsed time on record is text, so the sum the average is
    taken from is the text 02.02.0, which is no number. *)
Theorem C4_average_of_two_timed_runs_is_NaN :
  let h := history_runs Sample.two_runs in
  map status h = ["success"; "success"]
  /\ map elapsedTime h = [Some "2.0"; Some "2.0"]
  /\ dashboard (dom Sample.two_runs) = aggregate h
  /\ total_runs (aggregate h) = 2%nat
  /\ successful_runs (aggregate h) = 2%nat
  /\ total_features (aggregate h) = 10%nat
  /\ avg_time (aggregate h) = VStr "NaN".
Proof. vm_compute. by repeat split. Qed.

(** ** C5: the fallback PRD and the offline run *)




(** ** C6: the elapsed time *)




(** Nothing keeps the elapsed time from being computed again: resuming a
    second time overwrites it, and records the run a second time. *)
Example second_resume_recomputes :
  let once := exec (Review.continueAfterReview (Sample.env0 false)) Sample.at_review in
  let twice := exec (Review.continueAfterReview (Sample.env0 false)) once in
  (elapsedTime <$> heap once !! 0%nat) = Some (Some "2.0")
  /\ (elapsedTime <$> heap twice !! 0%nat) = Some (Some "3.0")
  /\ runHistory once = [0%nat] /\ runHistory twice = [0%nat; 0%nat].
Proof. by vm_compute. Qed.

(** ** C7: an empty idea *)

(** C7.  When the idea is empty once trimmed, each of the three ways to
    start a run returns at once: the warning toast is all it adds to the
    log, so no network call is made, and the page, the run objects, the
    current run, the history, its stored copy and the streams are as they
    were. *)
Theorem C7_empty_idea_rejected (env : Env) (w : World) (start : M unit) :
  JSString.trim (idea_input (dom w)) = "" ->
  In start [Sse.startRunWithSSE env; Sse.startRunLegacy env; Review.startRun env] ->
  let w' := exec start w in
  fst (start w) = Ok tt
  /\ log w' = log w ++ [missing_input]
  /\ network_calls w' = network_calls w
  /\ runHistory w' = runHistory w /\ storedHistory w' = storedHistory w
  /\ currentRun w' = currentRun w /\ heap w' = heap w
  /\ dom w' = dom w /\ sources w' = sources w /\ ticks w' = ticks w.
Proof.
  intros Hidea Hstart w'. subst w'.
  destruct (empty_idea_rejected env w Hidea) as (H1 & H2 & H3).
  assert (start w = (Ok tt, with_log (log w ++ [missing_input]) w)) as Hw.
  { simpl in Hstart. by destruct Hstart as [<-|[<-|[<-|[]]]]. }
  unfold exec. rewrite Hw. simpl.
  repeat split. apply network_calls_toast.
Qed.

Lemma C7_empty_idea_rejected_witness :
  network_calls (exec (Sse.startRunWithSSE (Sample.env0 true)) (Sample.world0 "   ")) = []
  /\ runHistory (exec (Sse.startRunWithSSE (Sample.env0 true)) (Sample.world0 "   ")) = [].
Proof.
  destruct (C7_empty_idea_rejected (Sample.env0 true) (Sample.world0 "   ")
              (Sse.startRunWithSSE (Sample.env0 true)) eq_refl (or_introl eq_refl))
    as (_ & _ & Hn & Hh & _).
  split; [exact Hn|exact Hh].
Defined.

(** ** C8: progress *)

(** C8.  When the handler of an open stream receives an event for one of
    the seven known steps, the progress bar afterwards shows the weight of
    the step if the status is completed, and the weight minus 10, not below
    0, if the status is in_progress. *)
Theorem C8_progress_of_known_steps
    (env : Env) (es : nat) (src : EventSource) (w : World) (data : Sse.StepEvent)
    (weight : Z) :
  sources w !! es = Some src -> es_open src = true ->
  In (Sse.ev_step data, weight)
     [("enhance_idea", 16); ("generate_prd", 33); ("create_repo", 50);
      ("extract_features", 66); ("implement", 83); ("publish", 95); ("pipeline", 100)] ->
  let w' := exec (Sse.onmessage env es (Sse.Json data)) w in
  (Sse.ev_status data = "completed" -> overall_progress (dom w') = Percent weight)
  /\ (Sse.ev_status data = "in_progress" ->
      overall_progress (dom w') = Percent (Z.max (weight - 10) 0)).
Proof. apply known_step_progress. Qed.

Lemma C8_progress_of_known_steps_witness :
  overall_progress
    (dom (exec (Sse.onmessage (Sample.env0 true) 0
                  (Sample.event "enhance_idea" "in_progress" "Enhancing idea" None))
               Sample.streaming))
  = Percent 6.
Proof.
  destruct (C8_progress_of_known_steps (Sample.env0 true) 0 Sample.stream0 Sample.streaming
              (Sample.step_event "enhance_idea" "in_progress" "Enhancing idea" None) 16
              eq_refl eq_refl (or_introl eq_refl))
    as [_ H].
  apply H. reflexivity.
Defined.

(** ** C9: steps the tables do not know *)

(** C9.  An event whose step is none of the seven known ones, with one of
    the three statuses an event can have, is handled without an exception
    leaving the handler, and leaves every step element and the progress bar
    as they were. *)
Theorem C9_unknown_steps_ignored
    (env : Env) (es : nat) (data : Sse.StepEvent) (w : World) :
  Sse.ev_step data ∉ known_steps ->
  Sse.ev_status data ∈ ["in_progress"; "completed"; "failed"] ->
  let w' := exec (Sse.onmessage env es (Sse.Json data)) w in
  fst (Sse.onmessage env es (Sse.Json data) w) = Ok tt
  /\ steps (dom w') = steps (dom w)
  /\ overall_progress (dom w') = overall_progress (dom w).
Proof.
  intros Hstep Hstatus w'. split; [apply onmessage_total|].
  pose proof (unknown_step_ignored env es data Hstep Hstatus w) as H.
  simpl in H. by injection H.
Qed.

Lemma C9_unknown_steps_ignored_witness :
  overall_progress
    (dom (exec (Sse.onmessage (Sample.env0 true) 0
                  (Sample.event "constructor" "completed" "Deployed" None))
               Sample.streaming))
  = Percent 0.
Proof.
  assert ("constructor" ∉ known_steps) as Hstep
    by (apply (bool_decide_unpack _); vm_compute; exact I).
  assert ("completed" ∈ ["in_progress"; "completed"; "failed"]) as Hstatus
    by (apply (bool_decide_unpack _); vm_compute; exact I).
  destruct (C9_unknown_steps_ignored (Sample.env0 true) 0
              (Sample.step_event "constructor" "completed" "Deployed" None) Sample.streaming
              Hstep Hstatus)
    as (_ & _ & H).
  exact (eq_trans H eq_refl).
Defined.

(** ** C10: counting and flattening *)

(** C10.  The number of features [countFeatures] reports for a PRD is the
    length of the list [flattenFeatures] makes of it, whichever of the
    epics, user_stories and features arrays are missing. *)
Theorem C10_count_is_length_of_flatten (prd : PRD) :
  countFeatures prd = length (flattenFeatures prd).
Proof.
  rewrite flattenFeatures_flat_map. unfold countFeatures. by rewrite count_epics.
Qed.

(** * Further properties of the code *)

From Stdlib Require Import Sorted.

(** ** Facts about strings *)

Lemma all_chars_keep (p : ascii -> bool) (s : string) :
  JSString.all_chars p (JSString.keep p s) = true.
Proof.
  induction s as [|c s IH]; simpl; [done|].
  destruct (p c) eqn:Hc; simpl; [by rewrite Hc|done].
Qed.

Lemma keep_all (p : ascii -> bool) (s : string) :
  JSString.all_chars p s = true -> JSString.keep p s = s.
Proof.
  induction s as [|c s IH]; simpl; [done|].
  intros [Hc Hs]%andb_prop. by rewrite Hc, IH.
Qed.

Lemma all_chars_impl (p q : ascii -> bool) (s : string) :
  (forall c, p c = true -> q c = true) ->
  JSString.all_chars p s = true -> JSString.all_chars q s = true.
Proof.
  intros Hpq. induction s as [|c s IH]; simpl; [done|].
  intros [Hc Hs]%andb_prop. by rewrite (Hpq c Hc), IH.
Qed.

Lemma toLowerCase_fixed (s : string) :
  JSString.all_chars (fun c => negb (JSString.is_upper c || (JSString.in_range 192 222 c
                                      && negb (N_of_ascii c =? 215)%N))) s = true ->
  JSString.toLowerCase s = s.
Proof.
  induction s as [|c s IH]; simpl; [done|].
  intros [Hc Hs]%andb_prop. rewrite IH by done. unfold JSString.lower_char.
  by apply negb_true_iff in Hc as ->.
Qed.

Lemma dash_spaces_fixed (prev : bool) (s : string) :
  JSString.all_chars (fun c => negb (JSString.is_space c)) s = true ->
  JSString.dash_spaces prev s = s.
Proof.
  revert prev; induction s as [|c s IH]; intros prev; simpl; [done|].
  intros [Hc Hs]%andb_prop. apply negb_true_iff in Hc as ->. by rewrite IH.
Qed.

Lemma slug_char_code (c : ascii) :
  slug_char c = true ->
  ((97 <= N_of_ascii c <= 122) \/ (48 <= N_of_ascii c <= 57) \/ N_of_ascii c = 45)%N.
Proof.
  unfold slug_char, JSString.is_lower, JSString.is_digit, JSString.is_dash, JSString.in_range.
  rewrite !orb_true_iff, !andb_true_iff, !N.leb_le, N.eqb_eq. lia.
Qed.


(** Case analysis on the eight bits of a character. *)
Ltac by_cases_on_char c :=
  destruct c as [[] [] [] [] [] [] [] []]; vm_compute; try done; try discriminate.

Lemma slug_char_is_lower_case (c : ascii) :
  slug_char c = true ->
  negb (JSString.is_upper c || (JSString.in_range 192 222 c
                                && negb (N_of_ascii c =? 215)%N)) = true.
Proof. by_cases_on_char c. Qed.

Lemma slug_char_no_space (c : ascii) : slug_char c = true -> negb (JSString.is_space c) = true.
Proof. by_cases_on_char c. Qed.

Lemma lower_char_trace (c : ascii) :
  JSString.is_space c = false ->
  slug_char (JSString.lower_char c) = leaves_trace c.
Proof. by_cases_on_char c. Qed.

Lemma lower_char_space (c : ascii) :
  JSString.is_space (JSString.lower_char c) = JSString.is_space c.
Proof. by_cases_on_char c. Qed.

Lemma space_leaves_trace (c : ascii) : JSString.is_space c = true -> leaves_trace c = true.
Proof. unfold leaves_trace. by intros ->. Qed.

(** ** Repository names *)

(** X1.  A repository name is made of the characters a-z, 0-9 and the dash
    alone, whatever the title, and deriving a name from a name gives the
    name back. *)
Theorem repoNameOf_slug (t : string) :
  JSString.all_chars slug_char (repoNameOf t) = true
  /\ repoNameOf (repoNameOf t) = repoNameOf t.
Proof.
  assert (JSString.all_chars slug_char (repoNameOf t) = true) as H
    by apply all_chars_keep.
  split; [exact H|].
  unfold repoNameOf at 1.
  rewrite toLowerCase_fixed by (eapply all_chars_impl; [apply slug_char_is_lower_case|exact H]).
  rewrite dash_spaces_fixed by (eapply all_chars_impl; [apply slug_char_no_space|exact H]).
  by apply keep_all.
Qed.

(** X2.  A title that holds a white space, a letter A-Z or a-z, a digit or
    a dash never gives an empty repository name. *)
Theorem repoNameOf_not_empty (t : string) :
  (exists c, In c (list_ascii_of_string t) /\ leaves_trace c = true) ->
  repoNameOf t <> "".
Proof.
  unfold repoNameOf. fold slug_char.
  induction t as [|c t IH]; intros (c0 & Hin & Htrace); simpl in Hin; [done|].
  simpl. rewrite lower_char_space. destruct (JSString.is_space c) eqn:Hsp.
  - simpl. discriminate.
  - simpl. rewrite (lower_char_trace c Hsp).
    destruct (leaves_trace c) eqn:Hc; simpl; [discriminate|].
    apply IH. exists c0. split; [|exact Htrace].
    destruct Hin as [->|Hin]; [congruence|exact Hin].
Qed.

Lemma repoNameOf_not_empty_witness : repoNameOf "C++" <> "".
Proof.
  apply repoNameOf_not_empty. exists "C"%char.
  split; [simpl; tauto|reflexivity].
Defined.

(** ** The fallback idea *)

Lemma length_substring0 (n : nat) (s : string) :
  String.length (JSString.substring0 n s) = Nat.min n (String.length s).
Proof.
  revert s; induction n as [|n IH]; intros [|c s]; simpl; try done. by rewrite IH.
Qed.

Lemma prefix_substring0 (n : nat) (s : string) :
  String.prefix (JSString.substring0 n s) s = true.
Proof.
  revert s; induction n as [|n IH]; intros [|c s]; simpl; try done.
  destruct (ascii_dec c c); [apply IH|done].
Qed.

Lemma prefix_split_head (d : ascii) (s : string) :
  String.prefix (JSString.split_head d s) s = true.
Proof.
  induction s as [|c s IH]; simpl; [done|].
  destruct (Ascii.eqb c d); simpl; [done|].
  destruct (ascii_dec c c); [apply IH|done].
Qed.

Lemma prefix_trans (a b c : string) :
  String.prefix a b = true -> String.prefix b c = true -> String.prefix a c = true.
Proof.
  revert b c; induction a as [|x a IH]; intros [|y b] [|z c]; simpl; try done.
  destruct (ascii_dec x y) as [->|]; [|done].
  destruct (ascii_dec y z) as [->|]; [|done].
  apply IH.
Qed.

Lemma all_chars_prefix (p : ascii -> bool) (a b : string) :
  String.prefix a b = true -> JSString.all_chars p b = true -> JSString.all_chars p a = true.
Proof.
  revert b; induction a as [|x a IH]; intros [|y b]; simpl; try done.
  destruct (ascii_dec x y) as [->|]; [|done].
  intros Hp [Hy Hb]%andb_prop. rewrite Hy. simpl. by apply (IH b).
Qed.

Lemma split_head_free (d : ascii) (s : string) :
  JSString.all_chars (fun c => negb (Ascii.eqb c d)) (JSString.split_head d s) = true.
Proof.
  induction s as [|c s IH]; simpl; [done|].
  destruct (Ascii.eqb c d) eqn:Hc; simpl; [done|]. by rewrite Hc.
Qed.

Lemma all_chars_and (p q : ascii -> bool) (s : string) :
  JSString.all_chars p s = true -> JSString.all_chars q s = true ->
  JSString.all_chars (fun c => p c && q c) s = true.
Proof.
  induction s as [|c s IH]; simpl; [done|].
  intros [Hp Hs]%andb_prop [Hq Hs']%andb_prop. by rewrite Hp, Hq, IH.
Qed.

(** X3.  The fallback idea always has a title, and the title is never
    empty, is at most 80 characters long and holds neither a full stop nor a
    line feed; it is the default title or the beginning of the trimmed idea.
    The description is the idea as typed and the problem statement its
    first 200 characters. *)
Theorem buildFallbackEnhancedIdea_title (appIdea techPrefs : string) :
  let idea := buildFallbackEnhancedIdea appIdea techPrefs in
  exists t, title idea = Some t
  /\ t <> ""
  /\ (String.length t <= 80)%nat
  /\ JSString.all_chars
       (fun c => negb (Ascii.eqb c ".") && negb (Ascii.eqb c newline)) t = true
  /\ (t = "Application Project" \/ String.prefix t (JSString.trim appIdea) = true)
  /\ idea_description idea = appIdea
  /\ String.length (problem_statement idea) = Nat.min 200 (String.length appIdea).
Proof.
  unfold buildFallbackEnhancedIdea. simpl.
  set (sentence := JSString.split_head "." (JSString.trim appIdea)).
  set (line := JSString.split_head newline sentence).
  set (cut := JSString.substring0 80 line).
  assert (String.prefix cut line = true) as Hcut by apply prefix_substring0.
  assert (String.prefix line sentence = true) as Hline by apply prefix_split_head.
  eexists. split; [reflexivity|].
  unfold JSString.or_else. destruct (JSString.is_empty cut) eqn:Hempty.
  - repeat split; try done; try (vm_compute; lia).
    + by left.
    + apply length_substring0.
  - split; [by destruct cut|]. split; [|split; [|split; [|split]]].
    + subst cut. rewrite length_substring0. lia.
    + apply all_chars_and.
      * apply (all_chars_prefix _ cut sentence); [by apply (prefix_trans _ line)|].
        apply split_head_free.
      * apply (all_chars_prefix _ cut line); [done|]. apply split_head_free.
    + right. apply (prefix_trans _ line); [done|].
      apply (prefix_trans _ sentence); [done|]. apply prefix_split_head.
    + done.
    + apply length_substring0.
Qed.


(** ** The check boxes and the selection *)

Lemma selected_fold (cl : list (nat * bool)) (acc : list nat) :
  fold_left
    (fun (selected : list nat) (cb : nat * bool) =>
       if snd cb then selected ++ [fst cb] else selected) cl acc
  = acc ++ map fst (filter (fun cb => snd cb = true) cl).
Proof.
  revert acc; induction cl as [|[i b] cl IH]; intros acc; cbn [fold_left].
  - simpl. by rewrite app_nil_r.
  - rewrite IH. destruct b; cbn [snd fst].
    + rewrite filter_cons_True by done. cbn [map fst]. by rewrite <- app_assoc.
    + by rewrite filter_cons_False by done.
Qed.

Lemma getSelectedFeatureIndices_filter (d : Dom) :
  Review.getSelectedFeatureIndices d
  = map fst (filter (fun cb => snd cb = true) (feature_checklist d)).
Proof. unfold Review.getSelectedFeatureIndices. by rewrite selected_fold. Qed.

(** The boxes in the order they were written, whatever their state. *)
Lemma filter_numbered (cl : list (nat * bool)) (i n : nat) :
  map fst cl = seq i n ->
  StronglySorted lt (map fst (filter (fun cb => snd cb = true) cl))
  /\ Forall (fun j => i <= j < i + n)%nat (map fst (filter (fun cb => snd cb = true) cl)).
Proof.
  revert i n; induction cl as [|[j b] cl IH]; intros i n H.
  - split; constructor.
  - destruct n as [|n]; [done|]. simpl in H. injection H as -> H.
    destruct (IH _ _ H) as [Hs Hf].
    assert (Forall (fun j => (i <= j < i + S n)%nat)
              (map fst (filter (fun cb => snd cb = true) cl))) as Hf'.
    { eapply Forall_impl; [exact Hf|]. simpl. intros; lia. }
    destruct b.
    + rewrite filter_cons_True by done. simpl. split.
      * constructor; [done|]. eapply Forall_impl; [exact Hf|]. simpl. intros; lia.
      * constructor; [lia|done].
    + by rewrite filter_cons_False by done.
Qed.

Lemma includes_In (l : list nat) (i : nat) : includes l i = true <-> In i l.
Proof.
  unfold includes. rewrite existsb_exists. split.
  - intros (x & Hin & ->%Nat.eqb_eq). done.
  - intros Hin. exists i. by rewrite Nat.eqb_refl.
Qed.

Lemma filter_index_ext {A} (p q : nat -> bool) (i : nat) (l : list A) :
  (forall j, (i <= j)%nat -> p j = q j) -> filter_index p i l = filter_index q i l.
Proof.
  revert i; induction l as [|x l IH]; intros i H; simpl; [done|].
  rewrite (H i) by lia. rewrite (IH (S i)) by (intros; apply H; lia). done.
Qed.

Lemma omap_lookup_shift {A} (x : A) (l : list A) (i : nat) (idx : list nat) :
  Forall (fun j => S i <= j)%nat idx ->
  omap (fun j => (x :: l) !! (j - i)%nat) idx = omap (fun j => l !! (j - S i)%nat) idx.
Proof.
  induction 1 as [|j idx Hj _ IH]; csimpl; [done|].
  rewrite IH. replace (j - i)%nat with (S (j - S i)) by lia. done.
Qed.

(** Filtering by membership in an increasing list of indices is looking
    the indices up. *)
Lemma filter_index_sorted {A} (l : list A) (i : nat) (idx : list nat) :
  StronglySorted lt idx -> Forall (fun j => i <= j)%nat idx ->
  filter_index (includes idx) i l = omap (fun j => l !! (j - i)%nat) idx.
Proof.
  revert i idx; induction l as [|x l IH]; intros i idx Hs Hi; simpl.
  - induction idx as [|j idx IHidx]; simpl; [done|].
    apply IHidx; [by inversion Hs|by inversion Hi].
  - destruct (includes idx i) eqn:Hin.
    + apply includes_In in Hin.
      destruct idx as [|j idx]; [done|].
      inversion Hs as [|? ? Hs' Hlt]; subst. inversion Hi as [|? ? Hj Hi']; subst.
      assert (j = i) as ->.
      { destruct Hin as [->|Hin]; [done|].
        rewrite Forall_forall in Hlt. apply list_elem_of_In, Hlt in Hin. lia. }
      assert (Forall (fun k => S i <= k)%nat idx) as Hgt.
      { eapply Forall_impl; [exact Hlt|]. simpl. intros; lia. }
      simpl. rewrite Nat.sub_diag. simpl. f_equal.
      rewrite omap_lookup_shift by done. rewrite <- (IH (S i) idx) by done.
      apply filter_index_ext. intros k Hk. unfold includes. simpl.
      destruct (Nat.eqb_spec k i); [lia|done].
    + assert (Forall (fun k => S i <= k)%nat idx) as Hgt.
      { rewrite Forall_forall in Hi. apply Forall_forall. intros k Hk.
        specialize (Hi k Hk). destruct (decide (k = i)) as [->|]; [|lia].
        apply list_elem_of_In, includes_In in Hk. congruence. }
      rewrite omap_lookup_shift by done. by apply IH.
Qed.

Lemma length_omap_lookup {A} (l : list A) (idx : list nat) :
  Forall (fun j => j < length l)%nat idx -> length (omap (fun j => l !! j) idx) = length idx.
Proof.
  induction 1 as [|j idx Hj _ IH]; csimpl; [done|].
  destruct (lookup_lt_is_Some_2 l j Hj) as [x ->]. csimpl. by rewrite IH.
Qed.

Lemma alter_numbered (pos : nat) (cl : list (nat * bool)) :
  map fst (alter (fun cb : nat * bool => (fst cb, negb (snd cb))) pos cl) = map fst cl.
Proof.
  revert pos; induction cl as [|cb cl IH]; intros [|pos]; try done.
  cbn. f_equal. apply IH.
Qed.

Lemma alter_twice (pos : nat) (cl : list (nat * bool)) :
  alter (fun cb : nat * bool => (fst cb, negb (snd cb))) pos
    (alter (fun cb : nat * bool => (fst cb, negb (snd cb))) pos cl) = cl.
Proof.
  revert pos; induction cl as [|[i b] cl IH]; intros [|pos]; try done; cbn.
  - by rewrite negb_involutive.
  - f_equal. apply IH.
Qed.

Lemma omap_pointwise {A B} (f g : A -> option B) (l : list A) :
  (forall x, f x = g x) -> omap f l = omap g l.
Proof. intros H. induction l as [|x l IH]; csimpl; [done|]. by rewrite H, IH. Qed.

(** X4.  While the boxes carry the positions 0, 1, 2, ... of the flattened
    features, as the review section numbers them, the selected indices come
    in increasing order and name existing features, and the selection is the
    list of the features at those indices: one feature per ticked box. *)
Theorem selection_is_the_ticked_features (d : Dom) (tree : PRD) :
  map fst (feature_checklist d) = seq 0 (length (flattenFeatures tree)) ->
  let all := flattenFeatures tree in
  let indices := Review.getSelectedFeatureIndices d in
  StronglySorted lt indices
  /\ Forall (fun j => j < length all)%nat indices
  /\ selection indices all = omap (fun j => all !! j) indices
  /\ length (selection indices all)
     = length (filter (fun cb => snd cb = true) (feature_checklist d)).
Proof.
  intros Hnum all indices. subst indices. rewrite getSelectedFeatureIndices_filter.
  destruct (filter_numbered _ _ _ Hnum) as [Hs Hf]. fold all in Hf.
  set (indices := map fst (filter (fun cb => snd cb = true) (feature_checklist d))) in *.
  assert (Forall (fun j => j < length all)%nat indices) as Hlt.
  { eapply Forall_impl; [exact Hf|]. simpl. intros; lia. }
  assert (selection indices all = omap (fun j => all !! j) indices) as Hsel.
  { unfold selection. rewrite filter_index_sorted; [|done|].
    - apply omap_pointwise. intros j. by rewrite Nat.sub_0_r.
    - eapply Forall_impl; [exact Hf|]. simpl. intros; lia. }
  repeat split; try done.
  rewrite Hsel, length_omap_lookup by done. subst indices. by rewrite length_map.
Qed.

Lemma selection_is_the_ticked_features_witness :
  selection (Review.getSelectedFeatureIndices (dom Sample.two_unticked))
            (flattenFeatures Sample.review_tree)
  = omap (fun j => flattenFeatures Sample.review_tree !! j) [0; 2; 4]%nat.
Proof.
  destruct (selection_is_the_ticked_features (dom Sample.two_unticked) Sample.review_tree
              eq_refl)
    as (_ & _ & H & _).
  exact H.
Defined.


(** ** Cancelling at the review gate *)

(** X5.  Cancelling never fails and records nothing: the current run is
    dropped, the run objects, the history and its stored copy stay as they
    were, no request is sent, the review section is hidden, the progress
    bar is back at 0 and every step element reads Pending.  Resuming
    afterwards does nothing but show the No Run toast. *)
Theorem cancelRun_drops_the_run (env : Env) (w : World) :
  let w1 := exec Review.cancelRun w in
  fst (Review.cancelRun w) = Ok tt
  /\ currentRun w1 = None
  /\ heap w1 = heap w /\ runHistory w1 = runHistory w /\ storedHistory w1 = storedHistory w
  /\ network_calls w1 = network_calls w
  /\ display (dom w1) !! "prd-review-section" = Some false
  /\ overall_progress (dom w1) = Percent 0
  /\ (forall id, In id step_elements -> steps (dom w1) !! id = Some ("pending", "Pending"))
  /\ Review.continueAfterReview env w1
     = (Ok tt,
        with_log (log w1 ++ [Toast "error" "No Run" "No active run to continue."]) w1).
Proof.
  destruct w as [d ? ? ? ? ? ? ? ? ? ?]. destruct d. cbn.
  repeat split.
  - unfold network_calls. cbn. rewrite List.filter_app. cbn. by rewrite app_nil_r.
  - by rewrite lookup_insert_ne, lookup_insert_eq.
  - intros id Hid. cbn in Hid.
    repeat (destruct Hid as [<-|Hid];
            [by repeat first [rewrite lookup_insert_eq | rewrite lookup_insert_ne by done]|]).
    done.
Qed.


(** ** The dashboard and the history *)

Lemma length_recent (h : list Run) : length (recent h) = Nat.min 5 (length h).
Proof. unfold recent. rewrite length_rev, length_drop. lia. Qed.

Lemma recent_snoc (h : list Run) (r : Run) : recent (h ++ [r]) = r :: take 4 (recent h).
Proof.
  unfold recent. rewrite length_app. simpl.
  rewrite drop_app_le by lia. rewrite rev_app_distr. simpl. f_equal.
  rewrite firstn_rev, length_drop, drop_drop. f_equal. f_equal. lia.
Qed.

Lemma history_runs_snoc (h : list Run) (rh : list nat) (a : nat) (r : Run) :
  h !! a = Some r ->
  omap (fun a => h !! a) (rh ++ [a]) = omap (fun a => h !! a) rh ++ [r].
Proof. intros Hr. rewrite omap_app. csimpl. by rewrite Hr. Qed.

(** X6.  Saving the current run appends it to the history, writes the
    history to the store and redraws the dashboard from it: one run more
    in the total, and the run just saved on top of the recent runs, above
    the four that were on top before.  The dashboard never lists more than
    five. *)
Theorem persist_shows_the_run_first (a : nat) (r : Run) (w : World) :
  running a r w ->
  let w' := exec persist w in
  fst (persist w) = Ok tt
  /\ history_runs w' = history_runs w ++ [r]
  /\ storedHistory w' = history_runs w'
  /\ total_runs (dashboard (dom w')) = S (length (history_runs w))
  /\ recent_runs (dashboard (dom w')) = r :: take 4 (recent (history_runs w))
  /\ (length (recent_runs (dashboard (dom w'))) <= 5)%nat.
Proof.
  intros Hrun. open_running w Hrun.
  unfold persist, push_currentRun, save_history, updateDashboard, exec, bind, modify,
    history_runs. cbn.
  rewrite (history_runs_snoc h rh a r Hh).
  repeat split.
  - unfold aggregate. cbn. rewrite length_app. simpl. lia.
  - unfold aggregate. cbn. apply recent_snoc.
  - unfold aggregate. cbn. rewrite length_recent. lia.
Qed.

Lemma persist_shows_the_run_first_witness :
  recent_runs (dashboard (dom (exec persist Sample.streaming))) = [Sample.streaming_run].
Proof.
  assert (running 0 Sample.streaming_run Sample.streaming) as Hrun by (split; reflexivity).
  destruct (persist_shows_the_run_first 0 Sample.streaming_run Sample.streaming Hrun)
    as (_ & _ & _ & _ & H & _).
  exact H.
Defined.


(** ** The stream handler, event by event *)

Lemma when_false (m : M unit) : when false m = ret tt.
Proof. done. Qed.

(** X7.  Whatever arrives on a stream, text that does not parse or an event
    of any step but the pipeline, the handler returns normally and leaves the
    history, its stored copy, the streams, the clock and the current run's
    identity alone, and sends no request: only the pipeline event closes the
    stream and records the run. *)
Theorem onmessage_records_on_pipeline_only (env : Env) (es : nat) (msg : Sse.Message)
    (w : World) :
  (forall data, msg = Sse.Json data -> Sse.ev_step data <> "pipeline") ->
  let w' := exec (Sse.onmessage env es msg) w in
  fst (Sse.onmessage env es msg w) = Ok tt
  /\ runHistory w' = runHistory w /\ storedHistory w' = storedHistory w
  /\ sources w' = sources w /\ ticks w' = ticks w /\ currentRun w' = currentRun w
  /\ network_calls w' = network_calls w
  /\ dashboard (dom w') = dashboard (dom w).
Proof.
  intros Hmsg w'. split; [apply onmessage_total|].
  assert (preserves
            (fun w => (runHistory w, storedHistory w, sources w, ticks w, currentRun w,
                       network_calls w, dashboard (dom w)))
            (Sse.onmessage env es msg)) as H.
  { unfold Sse.onmessage.
    apply preserves_bind; [apply preserves_get|]. intros w0.
    destruct (sources w0 !! es) as [src|]; [|apply preserves_ret].
    destruct (negb (es_open src)); [apply preserves_ret|].
    apply preserves_try_catch; [|intros e; frame].
    destruct msg as [|data]; [apply preserves_throw|].
    specialize (Hmsg data eq_refl). apply String.eqb_neq in Hmsg.
    cbv beta iota zeta. rewrite Hmsg, when_false. frame.
    all: unfold updateStepStatus; destruct (bool_decide _);
      [apply preserves_modify; intros; reflexivity|apply preserves_throw]. }
  specialize (H w). simpl in H. by injection H.
Qed.

Lemma onmessage_records_on_pipeline_only_witness :
  runHistory (exec (Sse.onmessage (Sample.env0 true) 0 Sse.Malformed) Sample.streaming) = [].
Proof.
  assert (forall data, Sse.Malformed = Sse.Json data -> Sse.ev_step data <> "pipeline") as H
    by (intros data Hd; discriminate Hd).
  destruct (onmessage_records_on_pipeline_only (Sample.env0 true) 0 Sse.Malformed
              Sample.streaming H)
    as (_ & Hh & _).
  exact Hh.
Defined.


(** X8.  An event of one of the six steps merges its payload into the
    current run and nothing else: a count that is present and not 0
    replaces the count on record, an absent count or a 0 leaves it; the
    URL on record is replaced by the payload's URL exactly when the payload
    has a name, so a payload with a name and no URL erases it.  Status,
    elapsed time and error of the run stay as they were, and the status line
    shows the detail of the event. *)
Theorem onmessage_merges_payload
    (env : Env) (es : nat) (src : EventSource) (a : nat) (r : Run) (w : World)
    (data : Sse.StepEvent) :
  sources w !! es = Some src -> es_open src = true -> running a r w ->
  In (Sse.ev_step data)
     ["enhance_idea"; "generate_prd"; "create_repo"; "extract_features"; "implement";
      "publish"] ->
  let w' := exec (Sse.onmessage env es (Sse.Json data)) w in
  exists r', running a r' w'
    /\ epicsCount r' = or_count (Sse.payload Sse.pl_epics_count data) (epicsCount r)
    /\ featuresCount r' = or_count (Sse.payload Sse.pl_features_count data) (featuresCount r)
    /\ repoUrl r' = (if truthy_str (Sse.payload Sse.pl_name data)
                     then Sse.payload Sse.pl_url data else repoUrl r)
    /\ status r' = status r /\ elapsedTime r' = elapsedTime r /\ error r' = error r
    /\ current_status (dom w') = StatusText (str_or (Sse.ev_detail data) "").
Proof.
  intros Hsrc Hopen Hrun Hstep w'. subst w'. apply wp_exec.
  unfold Sse.onmessage. apply wp_bind, wp_get. rewrite Hsrc, Hopen.
  cbn [negb]. apply wp_try_catch.
  destruct data as [step status detail pl]. cbn [Sse.ev_step] in Hstep.
  cbv beta iota zeta. cbn [Sse.ev_step Sse.ev_status Sse.ev_detail].
  unfold or_count.
  set (ec := Sse.payload Sse.pl_epics_count _).
  set (fc := Sse.payload Sse.pl_features_count _).
  set (nm := truthy_str (Sse.payload Sse.pl_name _)).
  set (url := Sse.payload Sse.pl_url _).
  clearbody ec fc nm url.
  open_running w Hrun. simpl in Hsrc.
  simpl in Hstep. repeat (destruct Hstep as [<-|Hstep]); [..|done].
  all: lookup_steps; cbv beta iota.
  all: cbn [String.eqb Ascii.eqb Bool.eqb andb negb Z.eqb].
  all: destruct (String.eqb status "in_progress");
    [|destruct (String.eqb status "completed"); [|destruct (String.eqb status "failed")]].
  all: try match goal with
           | |- context [String.eqb ?s "completed"] => destruct (String.eqb s "completed")
           end.
  all: cbn [andb];
    try match goal with
        | |- context [truthy_str (Sse.payload Sse.pl_prd_markdown ?d)] =>
            destruct (truthy_str (Sse.payload Sse.pl_prd_markdown d))
        end.
  all: destruct (truthy_count ec), (truthy_count fc), nm.
  all: unfold Sse.updateStepOf; wp_run.
  all: eexists; split; [close_running|done].
Qed.

Lemma onmessage_merges_payload_witness :
  exists r',
    running 0 r'
      (exec (Sse.onmessage (Sample.env0 true) 0
               (Sse.Json (Sample.step_event "generate_prd" "completed" "PRD ready"
                            (Some Sample.prd_payload))))
            Sample.streaming)
    /\ epicsCount r' = Some 4%nat /\ featuresCount r' = Some 5%nat
    /\ repoUrl r' = repoUrl Sample.streaming_run.
Proof.
  assert (running 0 Sample.streaming_run Sample.streaming) as Hrun by (split; reflexivity).
  destruct (onmessage_merges_payload (Sample.env0 true) 0 Sample.stream0 0
              Sample.streaming_run Sample.streaming
              (Sample.step_event "generate_prd" "completed" "PRD ready"
                 (Some Sample.prd_payload))
              eq_refl eq_refl Hrun (or_intror (or_introl eq_refl)))
    as (r' & Hr & He & Hf & Hu & _).
  exists r'. split; [exact Hr|]. split; [exact He|]. split; [exact Hf|exact Hu].
Defined.


(** ** Starting a streamed run *)

(** The world a start the backend accepted leaves. *)
Lemma accepted_start (env : Env) (w : World) (id : string) :
  JSString.is_empty (JSString.trim (idea_input (dom w))) = false ->
  (20 <= String.length (JSString.trim (idea_input (dom w))))%nat ->
  run_response env = RunAccepted id ->
  let w' := exec (Sse.startRunWithSSE env) w in
  exists r', running (length (heap w)) r' w'
    /\ run_id r' = id /\ status r' = "running" /\ elapsedTime r' = None
    /\ sources w' = sources w ++ [{| es_run_id := id; es_startTime := clock env (ticks w);
                                     es_open := true |}]
    /\ runHistory w' = runHistory w /\ storedHistory w' = storedHistory w
    /\ ticks w' = S (S (ticks w))
    /\ exists request,
         network_calls w' = network_calls w ++ [Fetch request; OpenStream id].
Proof.
  intros Hidea Hlen Hresp w'. subst w'. apply wp_exec.
  unfold Sse.startRunWithSSE. apply wp_bind, wp_get. rewrite Hidea.
  apply Nat.ltb_ge in Hlen. rewrite Hlen, Hresp.
  open_world w. wp_run. cbn.
  eexists. split; [split; [reflexivity|]|].
  { cbn. rewrite list_lookup_alter_eq, lookup_snoc. reflexivity. }
  repeat split.
  eexists. unfold network_calls. cbn. rewrite !List.filter_app. cbn.
  by rewrite !app_nil_r, <- !app_assoc.
Qed.

(** X9.  A streamed run from start to end.  A start the backend accepts
    sends one request, opens one stream under the run id the backend chose
    and records nothing yet: the new current run carries that id and is
    running, and the history is as before.  The completed pipeline event on
    that stream then appends the run to the history once, with status
    success and the elapsed time measured from the reading of the clock at
    the start to the reading at the event. *)
Theorem streamed_run_end_to_end (env : Env) (w : World) (id : string) :
  JSString.is_empty (JSString.trim (idea_input (dom w))) = false ->
  (20 <= String.length (JSString.trim (idea_input (dom w))))%nat ->
  run_response env = RunAccepted id ->
  let w1 := exec (Sse.startRunWithSSE env) w in
  (exists r1, running (length (heap w)) r1 w1
     /\ run_id r1 = id /\ status r1 = "running" /\ elapsedTime r1 = None
     /\ sources w1 = sources w ++ [{| es_run_id := id; es_startTime := clock env (ticks w);
                                      es_open := true |}]
     /\ runHistory w1 = runHistory w
     /\ exists request,
          network_calls w1 = network_calls w ++ [Fetch request; OpenStream id])
  /\ forall data, Sse.ev_step data = "pipeline" -> Sse.ev_status data = "completed" ->
       let w2 := exec (Sse.onmessage env (length (sources w)) (Sse.Json data)) w1 in
       exists r2, running (length (heap w)) r2 w2
         /\ status r2 = "success"
         /\ elapsedTime r2
            = Some (elapsed (clock env (S (S (ticks w)))) (Some (clock env (ticks w))))
         /\ runHistory w2 = runHistory w ++ [length (heap w)]
         /\ storedHistory w2 = history_runs w2.
Proof.
  intros Hidea Hlen Hresp w1.
  destruct (accepted_start env w id Hidea Hlen Hresp)
    as (r1 & Hrun & Hid & Hs1 & He1 & Hsrc & Hh & _ & Ht & Hn).
  fold w1 in Hrun, Hsrc, Hh, Ht, Hn.
  split; [by exists r1|].
  intros data Hstep Hstatus w2.
  assert (sources w1 !! length (sources w)
          = Some {| es_run_id := id; es_startTime := clock env (ticks w); es_open := true |})
    as Hes by (rewrite Hsrc; apply lookup_snoc).
  destruct (pipeline_completed env _ _ _ r1 w1 data Hes eq_refl Hrun Hstep Hstatus)
    as (Hh2 & Hst & _ & _ & r' & Hrun' & Hs & _ & He & _).
  subst w2. exists r'. split; [exact Hrun'|]. split; [exact Hs|].
  split; [by rewrite He, Ht|]. split; [by rewrite Hh2, Hh|exact Hst].
Qed.

Lemma streamed_run_end_to_end_witness :
  exists r,
    running 0 r
      (exec (Sse.onmessage (Sample.env0 true) 0
               (Sse.Json (Sample.step_event "pipeline" "completed" "All steps finished" None)))
            (exec (Sse.startRunWithSSE (Sample.env0 true)) (Sample.world0 Sample.idea0)))
    /\ elapsedTime r = Some "2.0".
Proof.
  assert (20 <= String.length (JSString.trim (idea_input (dom (Sample.world0 Sample.idea0)))))%nat
    as Hlen by (vm_compute; lia).
  destruct (streamed_run_end_to_end (Sample.env0 true) (Sample.world0 Sample.idea0) "run-1"
              eq_refl Hlen eq_refl)
    as (_ & H).
  destruct (H (Sample.step_event "pipeline" "completed" "All steps finished" None)
              eq_refl eq_refl)
    as (r & Hr & _ & He & _).
  exists r. split; [exact Hr|]. rewrite He. reflexivity.
Defined.

(** X10.  An idea of fewer than 20 characters, once trimmed, is turned away
    by the streaming start with the Too Short toast alone: nothing of the
    page, the runs or the history changes and no request is sent. *)
Theorem startRunWithSSE_too_short (env : Env) (w : World) :
  JSString.is_empty (JSString.trim (idea_input (dom w))) = false ->
  (String.length (JSString.trim (idea_input (dom w))) < 20)%nat ->
  Sse.startRunWithSSE env w
  = (Ok tt,
     with_log (log w ++ [Toast "warning" "Too Short"
                           "Please provide a more detailed description (at least 20 characters)"])
              w)
  /\ network_calls (exec (Sse.startRunWithSSE env) w) = network_calls w.
Proof.
  intros Hidea Hlen. apply Nat.ltb_lt in Hlen.
  assert (Sse.startRunWithSSE env w
          = (Ok tt,
             with_log (log w ++ [Toast "warning" "Too Short"
                 "Please provide a more detailed description (at least 20 characters)"]) w))
    as H.
  { unfold Sse.startRunWithSSE, bind, get. by rewrite Hidea, Hlen. }
  split; [exact H|]. unfold exec. rewrite H. apply network_calls_toast.
Qed.

Lemma startRunWithSSE_too_short_witness :
  network_calls (exec (Sse.startRunWithSSE (Sample.env0 true)) (Sample.world0 "A to-do list app"))
  = [].
Proof.
  assert (String.length (JSString.trim (idea_input (dom (Sample.world0 "A to-do list app"))))
          < 20)%nat as Hlen by (vm_compute; lia).
  destruct (startRunWithSSE_too_short (Sample.env0 true) (Sample.world0 "A to-do list app")
              eq_refl Hlen)
    as [_ H].
  exact H.
Defined.


(** ** The step-by-step run, whatever the backend answers *)

Lemma wp_total (m : M unit) (Q : World -> Prop) (w : World) :
  wp m (fun _ w' => Q w') (fun _ _ => False) w -> fst (m w) = Ok tt /\ Q (exec m w).
Proof. unfold wp, exec. by destruct (m w) as [[[]|e] w']. Qed.

(** Reduce a statement about the result and the final world of [m] to a
    derivation for [m]. *)
Ltac by_wp m w :=
  lazymatch goal with
  | |- _ /\ ?G =>
      let P := eval pattern (exec m w) in G in
      lazymatch P with ?Q _ => apply (wp_total m Q w); cbv beta end
  end.



(** The calls counted in a log that was extended. *)
Ltac calls_of_log :=
  unfold create_repo_calls, network_calls; cbn;
  rewrite ?List.filter_app; cbn; rewrite ?app_nil_r, <- ?app_assoc; cbn;
  rewrite ?app_nil_r; reflexivity.


(** Step 3, the repository followed in detail. *)
Lemma wp_step_github_precise (env : Env) (a : nat) (r : Run) (w : World)
    (Q : unit -> World -> Prop) (E : string -> World -> Prop)
    (apiRunning : bool) (idea : EnhancedIdea) (t : string) :
  running a r w ->
  title idea = Some t ->
  (forall w' url full_name created,
      running a (set_repoCreated (Some created)
                   (set_repoFullName full_name (set_repoUrl (Some url) r))) w' ->
      same_shell w w' ->
      overall_progress (dom w') = Percent 50 ->
      (created = true ->
       apiRunning = true /\ truthy_str (githubToken (settings w)) = true
       /\ exists fn rn, repo_response env = RepoCreated url fn rn /\ full_name = Some fn) ->
      (created = false ->
       url = simulated_url w (repoNameOf t) /\ full_name = repoFullName r) ->
      create_repo_calls w'
      = create_repo_calls w
        ++ (if apiRunning && truthy_str (githubToken (settings w))
            then [Fetch (PostCreateRepo (githubToken (settings w)) (repoNameOf t)
                           (JSString.substring0 200 (idea_description idea))
                           (wants_private (settings w)))]
            else []) ->
      Q tt w') ->
  wp (step_github env apiRunning idea) Q E w.
Proof.
  intros Hrun Ht HQ. open_running w Hrun.
  unfold step_github. rewrite Ht. wp_run.
  destruct (apiRunning && truthy_str (githubToken _)) eqn:Hon.
  - apply andb_prop in Hon as [-> Htoken].
    unfold createGitHubRepo. wp_run.
    destruct (repo_response env) as [url full_name repo_name|detail|message] eqn:Hresp; wp_run.
    + eapply (HQ _ url (Some full_name) true); try done.
      * split; [done|]. simpl. by rewrite !list_lookup_alter_eq, Hh.
      * intros _. split; [done|]. split; [done|]. by eexists _, _.
      * calls_of_log.
    + eapply (HQ _ _ (repoFullName r) false); try done.
      * split; [done|]. simpl. by rewrite !list_lookup_alter_eq, Hh.
      * calls_of_log.
    + eapply (HQ _ _ (repoFullName r) false); try done.
      * split; [done|]. simpl. by rewrite !list_lookup_alter_eq, Hh.
      * calls_of_log.
  - wp_run. eapply (HQ _ _ (repoFullName r) false); try done.
    + split; [done|]. simpl. by rewrite !list_lookup_alter_eq, Hh.
    + calls_of_log.
Qed.

(** A computation that throws [e], and the world it leaves. *)
Lemma wp_throws {A} (m : M A) (e : string) (P : World -> Prop) (w : World) :
  wp m (fun _ _ => False) (fun e' w' => e' = e /\ P w') w ->
  fst (m w) = Throw e /\ P (exec m w).
Proof. unfold wp, exec. destruct (m w) as [[x|e'] w']; [done|]. by intros [-> H]. Qed.



(** The run on an idea the backend answered without a title: recorded as
    failed, with the message of the error. *)
Example untitled_idea_fails_the_run :
  let w := exec (Sse.startRunLegacy Sample.env_untitled) Sample.world_with_key in
  map status (history_runs w) = ["failed"]
  /\ map error (history_runs w) = [Some title_TypeError]
  /\ map elapsedTime (history_runs w) = [None].
Proof. by vm_compute. Qed.

(** ** The repository step and the publish step *)

(** X12.  The repository step on an idea with a title never throws and
    sends the create-repo request only when the backend runs and a token is
    set, once.  The run is flagged as created only on the backend's answer,
    with the URL and full name it gave; in every other case, a refusal and
    an unreachable backend included, the run gets the URL made of the
    account name and the repository name and is flagged as not created.  On
    an idea without a title the step throws the error of the missing title
    before it asks for anything: the run object is as it was, no request is
    sent and the step element is left active. *)
Theorem step_github_outcome
    (env : Env) (apiRunning : bool) (idea : EnhancedIdea) (a : nat) (r : Run) (w : World) :
  running a r w ->
  let w' := exec (step_github env apiRunning idea) w in
  let online := apiRunning && truthy_str (githubToken (settings w)) in
  match title idea with
  | Some t =>
      fst (step_github env apiRunning idea w) = Ok tt
      /\ exists r', running a r' w'
          /\ status r' = status r
          /\ create_repo_calls w'
             = create_repo_calls w
               ++ (if online
                   then [Fetch (PostCreateRepo (githubToken (settings w)) (repoNameOf t)
                                  (JSString.substring0 200 (idea_description idea))
                                  (wants_private (settings w)))]
                   else [])
          /\ ((repoCreated r' = Some true /\ online = true
               /\ exists url fn rn, repo_response env = RepoCreated url fn rn
                    /\ repoUrl r' = Some url /\ repoFullName r' = Some fn)
              \/ (repoCreated r' = Some false
                  /\ repoUrl r' = Some (simulated_url w (repoNameOf t))
                  /\ repoFullName r' = repoFullName r))
  | None =>
      fst (step_github env apiRunning idea w) = Throw title_TypeError
      /\ running a r w'
      /\ network_calls w' = network_calls w
      /\ steps (dom w') !! "step-github" = Some ("active", "Creating repository...")
  end.
Proof.
  intros Hrun w' online. subst w' online.
  destruct (title idea) as [t|] eqn:Ht.
  - by_wp (step_github env apiRunning idea) w.
    apply wp_step_github_precise with (a := a) (r := r) (t := t); [done|done|].
    intros w' url full_name created Hrun' _ _ Hyes Hno Hcalls.
    eexists. split; [exact Hrun'|]. split; [done|]. split; [exact Hcalls|].
    destruct created.
    + left. destruct (Hyes eq_refl) as (-> & -> & fn & rn & Hresp & ->).
      split; [done|]. split; [done|]. by exists url, fn, rn.
    + right. by destruct (Hno eq_refl) as [-> ->].
  - apply (wp_throws (step_github env apiRunning idea) title_TypeError
             (fun w' => running a r w' /\ network_calls w' = network_calls w
                        /\ steps (dom w') !! "step-github"
                           = Some ("active", "Creating repository..."))).
    open_running w Hrun. unfold step_github. rewrite Ht. wp_run.
    split; [done|]. split; [done|]. split; [done|]. apply lookup_insert_eq.
Qed.

Lemma step_github_outcome_witness :
  exists r',
    running 0 r' (exec (step_github (Sample.env0 false) false Sample.review_idea)
                       Sample.at_review)
    /\ repoCreated r' = Some false
    /\ repoUrl r'
       = Some "https://github.com/jacattac314/a-project-management-tool-for-remote-teams".
Proof.
  assert (running 0 Sample.review_run Sample.at_review) as Hrun by (split; reflexivity).
  destruct (step_github_outcome (Sample.env0 false) false Sample.review_idea 0
              Sample.review_run Sample.at_review Hrun)
    as (_ & r' & Hr & _ & _ & [(_ & Hon & _)|(Hc & Hu & _)]).
  - discriminate Hon.
  - exists r'. split; [exact Hr|]. split; [exact Hc|]. rewrite Hu. reflexivity.
Defined.

(** X13.  The publish step never fails a run and leaves the run object as
    it is.  It sends the push-files request only for a repository the
    backend created and named, once; for a simulated repository it sends
    nothing.  Either way the step ends completed at 100 percent. *)
Theorem step_publish_outcome
    (env : Env) (idea : EnhancedIdea) (a : nat) (r : Run) (w : World) :
  running a r w ->
  let w' := exec (step_publish env idea) w in
  let real := truthy_flag (repoCreated r) && truthy_str (repoFullName r) in
  fst (step_publish env idea w) = Ok tt
  /\ running a r w'
  /\ overall_progress (dom w') = Percent 100
  /\ steps (dom w') !! "step-publish" = Some ("completed", "✓ Published")
  /\ network_calls w'
     = network_calls w
       ++ (if real
           then [Fetch (PostPushFiles (githubToken (settings w)) (show_str (repoFullName r))
                          (str_or (prdMarkdown r) ("# PRD" +:+ two_newlines +:+ "Generated PRD"))
                          (title idea) (idea_description idea) (suggested_tech_stack idea)
                          (epicsCount r) (featuresCount r))]
           else []).
Proof.
  intros Hrun w' real. subst w' real.
  by_wp (step_publish env idea) w.
  open_running w Hrun.
  unfold step_publish. wp_run.
  eapply wp_the_currentRun_open; [eassumption|]. wp_run.
  destruct (truthy_flag (repoCreated r) && truthy_str (repoFullName r)).
  - unfold pushFilesToRepo. wp_run. destruct (push_ok env); wp_run.
    all: split; [by split|]; split; [done|]; split; [apply lookup_insert_eq|].
    all: calls_of_log.
  - wp_run.
    split; [by split|]; split; [done|]; split; [apply lookup_insert_eq|].
    calls_of_log.
Qed.

Lemma step_publish_outcome_witness :
  network_calls (exec (step_publish (Sample.env0 false) Sample.review_idea) Sample.at_review)
  = network_calls Sample.at_review.
Proof.
  assert (running 0 Sample.review_run Sample.at_review) as Hrun by (split; reflexivity).
  destruct (step_publish_outcome (Sample.env0 false) Sample.review_idea 0
              Sample.review_run Sample.at_review Hrun)
    as (_ & _ & _ & _ & H).
  rewrite H. apply app_nil_r.
Defined.


(** ** Matching a repository URL *)

Lemma append_cons (c : ascii) (s t : string) : String c s +:+ t = String c (s +:+ t).
Proof. reflexivity. Qed.

Lemma append_empty_l (s : string) : "" +:+ s = s.
Proof. reflexivity. Qed.

Lemma append_empty_r (s : string) : s +:+ "" = s.
Proof. induction s as [|c s IH]; [done|]. by rewrite append_cons, IH. Qed.

Lemma append_assoc (a b c : string) : (a +:+ b) +:+ c = a +:+ (b +:+ c).
Proof. induction a as [|x a IH]; [done|]. by rewrite !append_cons, IH. Qed.

Lemma all_chars_append (p : ascii -> bool) (a b : string) :
  JSString.all_chars p (a +:+ b) = JSString.all_chars p a && JSString.all_chars p b.
Proof.
  induction a as [|x a IH]; [done|]. rewrite append_cons. simpl. by rewrite IH, andb_assoc.
Qed.

Lemma strip_Some (p s rest : string) : strip p s = Some rest <-> s = p +:+ rest.
Proof.
  revert s; induction p as [|a p IH]; intros s; simpl.
  - rewrite append_empty_l. split; congruence.
  - destruct s as [|b s]; [split; [done|by rewrite append_cons]|].
    rewrite append_cons. destruct (Ascii.eqb_spec a b) as [->|Hne].
    + rewrite IH. split; congruence.
    + split; [done|]. intros [= ? ?]. done.
Qed.

Lemma to_the_end_Some (s repo : string) :
  to_the_end s = Some repo
  <-> repo = s /\ s <> ""
      /\ JSString.all_chars (fun c => negb (is_line_terminator c)) s = true.
Proof.
  unfold to_the_end. destruct s as [|c s]; simpl; [split; [done|by intros (_ & ? & _)]|].
  destruct (negb (is_line_terminator c) && _) eqn:H.
  - split; [by intros [= <-]|by intros (-> & _)].
  - split; [done|]. intros (_ & _ & ?). congruence.
Qed.

Lemma owner_and_repo_Some (seen : bool) (s repo : string) :
  owner_and_repo seen s = Some repo
  <-> exists owner,
        s = owner +:+ "/" +:+ repo
        /\ JSString.all_chars (fun c => negb (is_slash c)) owner = true
        /\ (seen = true \/ owner <> "")
        /\ repo <> ""
        /\ JSString.all_chars (fun c => negb (is_line_terminator c)) repo = true.
Proof.
  revert seen; induction s as [|c s IH]; intros seen; simpl.
  - split; [done|]. intros ([|? ?] & H & _); discriminate H.
  - destruct (is_slash c) eqn:Hc.
    + assert (c = "/"%char) as ->.
      { unfold is_slash in Hc. apply N.eqb_eq in Hc.
        rewrite <- (ascii_N_embedding c), Hc. reflexivity. }
      split.
      * destruct seen; [|done]. intros (-> & Hne & Hlt)%to_the_end_Some.
        exists "". by repeat split; try left.
      * intros (owner & Hs & Hsl & Hseen & Hne & Hlt).
        destruct owner as [|x owner].
        -- rewrite append_empty_l, append_cons, append_empty_l in Hs.
           injection Hs as <-. destruct Hseen as [->|]; [|done].
           by apply to_the_end_Some.
        -- rewrite append_cons in Hs. injection Hs as <- _.
           simpl in Hsl. vm_compute in Hsl. done.
    + rewrite IH. split.
      * intros (owner & -> & Hsl & _ & Hne & Hlt).
        exists (String c owner). rewrite append_cons. simpl. rewrite Hc, Hsl.
        repeat split; try done. by right.
      * intros (owner & Hs & Hsl & Hseen & Hne & Hlt).
        destruct owner as [|x owner].
        -- rewrite append_empty_l, append_cons in Hs. injection Hs as -> _.
           vm_compute in Hc. done.
        -- rewrite append_cons in Hs. injection Hs as <- ->.
           simpl in Hsl. apply andb_prop in Hsl as [_ Hsl].
           exists owner. repeat split; try done. by left.
Qed.

(** The shape the pattern asks of the text from its first character on. *)
Lemma repo_here_Some (s repo : string) :
  repo_here s = Some repo
  <-> exists owner,
        s = "github.com/" +:+ owner +:+ "/" +:+ repo
        /\ owner <> ""
        /\ JSString.all_chars (fun c => negb (is_slash c)) owner = true
        /\ repo <> ""
        /\ JSString.all_chars (fun c => negb (is_line_terminator c)) repo = true.
Proof.
  unfold repo_here. split.
  - destruct (strip "github.com/" s) as [rest|] eqn:Hs; [|done].
    apply strip_Some in Hs as ->.
    intros (owner & -> & Hsl & [|Hne] & Hr & Hlt)%owner_and_repo_Some; [done|].
    by exists owner.
  - intros (owner & -> & Hne & Hsl & Hr & Hlt).
    assert (strip "github.com/" ("github.com/" +:+ owner +:+ "/" +:+ repo)
            = Some (owner +:+ "/" +:+ repo)) as -> by by apply strip_Some.
    apply owner_and_repo_Some. exists owner. repeat split; try done. by right.
Qed.

Lemma match_repo_empty : match_repo "" = None.
Proof. reflexivity. Qed.

Lemma match_repo_cons (c : ascii) (url : string) :
  match_repo (String c url)
  = match repo_here (String c url) with
    | Some repoName => Some repoName
    | None => match_repo url
    end.
Proof. reflexivity. Qed.

Lemma match_repo_sound (url repo : string) :
  match_repo url = Some repo ->
  exists pre owner,
    url = pre +:+ "github.com/" +:+ owner +:+ "/" +:+ repo
    /\ owner <> ""
    /\ JSString.all_chars (fun c => negb (is_slash c)) owner = true
    /\ repo <> ""
    /\ JSString.all_chars (fun c => negb (is_line_terminator c)) repo = true.
Proof.
  revert repo. induction url as [|c url IH]; intros repo; [by rewrite match_repo_empty|].
  rewrite match_repo_cons.
  destruct (repo_here (String c url)) as [r|] eqn:Hr.
  - intros [= <-]. apply repo_here_Some in Hr as (owner & H & ?). by exists "", owner.
  - intros (pre & owner & -> & H)%IH. by exists (String c pre), owner.
Qed.

Lemma match_repo_complete (url pre owner repo : string) :
  match_repo url = None ->
  ~ (url = pre +:+ "github.com/" +:+ owner +:+ "/" +:+ repo
     /\ owner <> ""
     /\ JSString.all_chars (fun c => negb (is_slash c)) owner = true
     /\ repo <> ""
     /\ JSString.all_chars (fun c => negb (is_line_terminator c)) repo = true).
Proof.
  revert pre. induction url as [|c url IH]; intros pre.
  - intros _ (Hu & H). destruct pre; discriminate Hu.
  - rewrite match_repo_cons.
    destruct (repo_here (String c url)) as [r|] eqn:Hr; [done|].
    intros Hnone (Hu & H).
    destruct pre as [|x pre].
    + rewrite append_empty_l in Hu.
      assert (repo_here (String c url) = Some repo) as Hsome
        by (apply repo_here_Some; by exists owner).
      congruence.
    + rewrite append_cons in Hu. injection Hu as _ ->.
      by apply (IH pre Hnone).
Qed.

(** X14.  What the migration reads as a repository URL.  The match succeeds
    exactly when the text holds github.com/, then an owner of one character or
    more without a slash, then a slash, then a repository part of one
    character or more without a line break, up to the end; and the name it
    yields is the repository part of such a reading. *)
Theorem match_repo_reads_owner_and_repo (url : string) :
  let reads (pre owner repo : string) :=
    url = pre +:+ "github.com/" +:+ owner +:+ "/" +:+ repo
    /\ owner <> ""
    /\ JSString.all_chars (fun c => negb (is_slash c)) owner = true
    /\ repo <> ""
    /\ JSString.all_chars (fun c => negb (is_line_terminator c)) repo = true in
  (forall repo, match_repo url = Some repo -> exists pre owner, reads pre owner repo)
  /\ (match_repo url = None -> forall pre owner repo, ~ reads pre owner repo).
Proof.
  intros reads. subst reads. split.
  - intros repo. apply match_repo_sound.
  - intros Hnone pre owner repo. by apply match_repo_complete.
Qed.

(** A URL made for a valid account name reads back as it was made. *)
Lemma valid_username_chars (u : string) :
  isValidGitHubUsername (Some u) = true ->
  u <> "" /\ JSString.all_chars (fun c => negb (is_slash c)) u = true.
Proof.
  unfold isValidGitHubUsername. destruct u as [|c u]; [done|].
  cbn [JSString.is_empty]. intros [Hp _]%andb_prop. split; [done|].
  unfold username_pattern in Hp. apply andb_prop in Hp as [[_ Hall]%andb_prop _].
  eapply all_chars_impl; [|exact Hall].
  intros x. by_cases_on_char x.
Qed.

Lemma match_repo_made (u repo : string) :
  isValidGitHubUsername (Some u) = true ->
  repo <> "" -> JSString.all_chars (fun c => negb (is_line_terminator c)) repo = true ->
  match_repo ("https://github.com/" +:+ u +:+ "/" +:+ repo) = Some repo.
Proof.
  intros [Hne Hsl]%valid_username_chars Hr Hlt.
  change ("https://github.com/" +:+ u +:+ "/" +:+ repo)
    with (String "h" (String "t" (String "t" (String "p" (String "s" (String ":"
           (String "/" (String "/" ("github.com/" +:+ u +:+ "/" +:+ repo))))))))).
  do 8 (rewrite match_repo_cons;
        match goal with
        | |- context [repo_here (String ?c ?s)] =>
            change (repo_here (String c s)) with (@None string)
        end).
  assert (repo_here ("github.com/" +:+ u +:+ "/" +:+ repo) = Some repo) as Hhere
    by (apply repo_here_Some; by exists u).
  destruct ("github.com/" +:+ u +:+ "/" +:+ repo) as [|c s] eqn:Hs; [done|].
  by rewrite match_repo_cons, Hhere.
Qed.


(** ** Migrating the history *)

Lemma migrate_url_Some (u : string) (r r' : Run) :
  migrate_url u r = Some r' ->
  exists url repo,
    repoUrl r = Some url /\ match_repo url = Some repo
    /\ repo <> ""
    /\ JSString.all_chars (fun c => negb (is_line_terminator c)) repo = true
    /\ r' = set_repoUrl (Some ("https://github.com/" +:+ u +:+ "/" +:+ repo)) r.
Proof.
  unfold migrate_url. destruct (repoUrl r) as [url|] eqn:Hurl; [|done].
  destruct (JSString.is_empty url); [done|].
  destruct (match_repo url) as [repo|] eqn:Hm; [|done].
  intros [= <-]. destruct (match_repo_sound _ _ Hm) as (pre & owner & _ & _ & _ & Hne & Hlt).
  by exists url, repo.
Qed.

Lemma set_repoUrl_twice (a b : option string) (r : Run) :
  set_repoUrl a (set_repoUrl b r) = set_repoUrl a r.
Proof. reflexivity. Qed.

Lemma append_not_empty (a b : string) : a <> "" -> JSString.is_empty (a +:+ b) = false.
Proof. by destruct a. Qed.

(** Migrating a migrated run: the account name is replaced once more and
    the repository name stays. *)
Lemma migrate_url_migrated (u1 u2 : string) (r : Run) :
  isValidGitHubUsername (Some u1) = true ->
  migrate_url u2 (migrated u1 r) = migrate_url u2 r.
Proof.
  intros Hu1. unfold migrated. destruct (migrate_url u1 r) as [r1|] eqn:H1; [|done].
  apply migrate_url_Some in H1 as (url & repo & Hurl & Hm & Hne & Hlt & ->).
  unfold migrate_url. cbn.
  rewrite append_not_empty by done.
  rewrite (match_repo_made u1 repo Hu1 Hne Hlt), Hurl, Hm.
  destruct (JSString.is_empty url) eqn:He; [|done].
  destruct url; [|done]. by rewrite match_repo_empty in Hm.
Qed.

Lemma migrated_migrated (u1 u2 : string) (r : Run) :
  isValidGitHubUsername (Some u1) = true ->
  migrated u2 (migrated u1 r) = migrated u2 r.
Proof.
  intros Hu1. unfold migrated at 1. rewrite (migrate_url_migrated u1 u2 r Hu1).
  unfold migrated. destruct (migrate_url u2 r) as [r2|] eqn:H2; [done|]. simpl.
  destruct (migrate_url u1 r) as [r1|] eqn:H1; [|done]. simpl.
  apply migrate_url_Some in H1 as (url & repo & Hurl & Hm & _).
  unfold migrate_url in H2. rewrite Hurl, Hm in H2.
  destruct (JSString.is_empty url) eqn:He; [|done].
  destruct url; [|done]. by rewrite match_repo_empty in Hm.
Qed.

Lemma bool_decide_snoc (visited : list nat) (a b : nat) :
  a <> b -> bool_decide (b ∈ visited ++ [a]) = bool_decide (b ∈ visited).
Proof.
  intros Hab. apply bool_decide_ext. rewrite elem_of_app, list_elem_of_singleton.
  split; [intros [Hb|Hb]; [done|congruence]|by left].
Qed.

Lemma bool_decide_last (visited : list nat) (a : nat) :
  bool_decide (a ∈ visited ++ [a]) = true.
Proof.
  apply bool_decide_eq_true_2. rewrite elem_of_app, list_elem_of_singleton. by right.
Qed.

Section Migration.
Context (u : string) (h0 : list Run).
Hypothesis Hu : isValidGitHubUsername (Some u) = true.

Lemma visit_walked (visited : list nat) (h : list Run) (n a : nat) :
  walked u h0 visited h ->
  walked u h0 (visited ++ [a]) (fst (migrate_visit u (h, n) a))
  /\ snd (migrate_visit u (h, n) a)
     = (n + length (omap (migrate_url u) (omap (fun a => h0 !! a) [a])))%nat.
Proof.
  intros [Hlen Hw]. unfold walked, migrate_visit. csimpl.
  assert (forall r0, h0 !! a = Some r0 ->
            exists run, h !! a = Some run /\ migrated u run = migrated u r0
                        /\ migrate_url u run = migrate_url u r0) as Hrun.
  { intros r0 H0. rewrite Hw, H0. destruct (bool_decide (a ∈ visited)); simpl.
    - eexists. split; [done|]. split; [by apply migrated_migrated|].
      by apply migrate_url_migrated.
    - by eexists. }
  destruct (h0 !! a) as [r0|] eqn:H0.
  - destruct (Hrun r0 eq_refl) as (run & Hh & Hmm & Hmu). rewrite Hh. csimpl.
    assert (forall b, (if decide (a = b) then Some (migrated u r0) else h !! b)
                      = if bool_decide (b ∈ visited ++ [a])
                        then migrated u <$> h0 !! b else h0 !! b) as Hnew.
    { intros b. destruct (decide (a = b)) as [<-|Hab].
      - by rewrite bool_decide_last, H0.
      - by rewrite Hw, bool_decide_snoc. }
    destruct (migrate_url u run) as [run'|] eqn:Hm.
    + rewrite <- Hmu. csimpl. split; [|lia]. split; [by rewrite length_insert|].
      intros b. rewrite <- Hnew.
      assert (run' = migrated u r0) as -> by (rewrite <- Hmm; unfold migrated; by rewrite Hm).
      destruct (decide (a = b)) as [<-|Hab].
      * apply list_lookup_insert_eq. by apply lookup_lt_Some in Hh.
      * by apply list_lookup_insert_ne.
    + rewrite <- Hmu. csimpl. split; [|lia]. split; [done|].
      intros b. rewrite <- Hnew.
      destruct (decide (a = b)) as [<-|Hab]; [|done].
      rewrite Hh, <- Hmm. unfold migrated. by rewrite Hm.
  - assert (h !! a = None) as ->.
    { apply lookup_ge_None. rewrite Hlen. by apply lookup_ge_None. }
    csimpl. split; [|lia]. split; [done|].
    intros b. rewrite Hw.
    destruct (decide (a = b)) as [<-|Hab].
    + rewrite H0. by destruct (bool_decide _), (bool_decide _).
    + by rewrite bool_decide_snoc.
Qed.

Lemma fold_walked (rh visited : list nat) (h : list Run) (n : nat) :
  walked u h0 visited h ->
  walked u h0 (visited ++ rh) (fst (fold_left (migrate_visit u) rh (h, n)))
  /\ snd (fold_left (migrate_visit u) rh (h, n))
     = (n + length (omap (migrate_url u) (omap (fun a => h0 !! a) rh)))%nat.
Proof.
  revert visited h n; induction rh as [|a rh IH]; intros visited h n Hw.
  - simpl. rewrite app_nil_r. split; [done|]. csimpl. lia.
  - cbn [fold_left].
    destruct (visit_walked visited h n a Hw) as [Hw1 Hn1].
    destruct (migrate_visit u (h, n) a) as [h1 n1]. cbn [fst snd] in Hw1, Hn1.
    destruct (IH (visited ++ [a]) h1 n1 Hw1) as [Hw2 Hn2].
    rewrite <- app_assoc in Hw2. split; [exact Hw2|].
    rewrite Hn2, Hn1.
    change (a :: rh) with ([a] ++ rh). rewrite !omap_app, length_app. lia.
Qed.

Lemma walked_history (rh : list nat) (h : list Run) :
  walked u h0 rh h ->
  omap (fun a => h !! a) rh = map (migrated u) (omap (fun a => h0 !! a) rh).
Proof.
  intros [_ Hw].
  assert (forall l, (forall a, a ∈ l -> a ∈ rh) ->
            omap (fun a => h !! a) l = map (migrated u) (omap (fun a => h0 !! a) l)) as H.
  { induction l as [|a l IH]; intros Hl; [done|]. csimpl.
    rewrite Hw, bool_decide_eq_true_2 by (apply Hl; by left).
    rewrite IH by (intros b Hb; apply Hl; by right).
    by destruct (h0 !! a). }
  by apply H.
Qed.

End Migration.

(** What [migrateHistoryUrls] does for a valid account name. *)
Lemma migrateHistoryUrls_valid (u : string) (p : Page) :
  isValidGitHubUsername (Some u) = true ->
  let result := migrateHistoryUrls (Some u) p in
  history_runs (world (snd result)) = map (migrated u) (history_runs (world p))
  /\ fst result = length (omap (migrate_url u) (history_runs (world p)))
  /\ storedHistory (world (snd result)) = history_runs (world (snd result))
  /\ runHistory (world (snd result)) = runHistory (world p)
  /\ length (heap (world (snd result))) = length (heap (world p))
  /\ (forall a, a ∉ runHistory (world p) ->
        heap (world (snd result)) !! a = heap (world p) !! a)
  /\ alerts (snd result) = alerts p /\ form (snd result) = form p
  /\ settings (world (snd result)) = settings (world p)
  /\ currentRun (world (snd result)) = currentRun (world p).
Proof.
  intros Hu result. subst result. unfold migrateHistoryUrls. rewrite Hu. cbn [negb].
  change (str_or (Some u) "") with (JSString.or_else u "").
  rewrite or_else_empty.
  assert (walked u (heap (world p)) [] (heap (world p))) as Hw0 by (by split).
  destruct (fold_walked u (heap (world p)) Hu (runHistory (world p)) [] _ 0%nat Hw0)
    as [Hw Hn].
  destruct (fold_left _ _ _) as [h n]. simpl in Hw, Hn. cbn.
  unfold history_runs. cbn.
  split; [by apply (walked_history u (heap (world p)))|].
  split; [exact Hn|]. split; [done|]. split; [done|].
  split; [apply Hw|]. split; [|done].
  intros a Ha. destruct Hw as [_ Hw]. rewrite Hw.
  by rewrite bool_decide_eq_false_2.
Qed.


Lemma migrate_url_is_Some (u1 u2 : string) (r : Run) :
  is_Some (migrate_url u1 r) -> is_Some (migrate_url u2 r).
Proof.
  unfold migrate_url. destruct (repoUrl r) as [url|]; [|done].
  destruct (JSString.is_empty url); [done|].
  destruct (match_repo url); [by eauto|done].
Qed.

Lemma length_omap_migrate_url (u1 u2 : string) (l : list Run) :
  length (omap (migrate_url u1) l) = length (omap (migrate_url u2) l).
Proof.
  induction l as [|r l IH]; [done|]. csimpl.
  destruct (migrate_url u1 r) eqn:H1, (migrate_url u2 r) eqn:H2; csimpl; try by rewrite IH.
  - destruct (migrate_url_is_Some u1 u2 r) as [? ?]; [by eauto|congruence].
  - destruct (migrate_url_is_Some u2 u1 r) as [? ?]; [by eauto|congruence].
Qed.

Lemma omap_migrate_url_migrated (u1 u2 : string) (l : list Run) :
  isValidGitHubUsername (Some u1) = true ->
  omap (migrate_url u2) (map (migrated u1) l) = omap (migrate_url u2) l.
Proof.
  intros Hu1. induction l as [|r l IH]; [done|]. csimpl.
  by rewrite (migrate_url_migrated u1 u2 r Hu1), IH.
Qed.

(** X15.  For a valid account name the migration rewrites, in every run of
    the history whose URL reads as a repository URL, the URL to
    https://github.com/ followed by the name, a slash and the repository
    part, and changes nothing else of the run; runs without such a URL and
    run objects outside the history stay as they are.  The count returned is
    the number of entries rewritten, the history keeps its entries and their
    order, and the stored copy is the history as rewritten. *)
Theorem migrateHistoryUrls_rewrites (u : string) (p : Page) :
  isValidGitHubUsername (Some u) = true ->
  let result := migrateHistoryUrls (Some u) p in
  let w' := world (snd result) in
  history_runs w' = map (migrated u) (history_runs (world p))
  /\ fst result = length (omap (migrate_url u) (history_runs (world p)))
  /\ storedHistory w' = history_runs w'
  /\ runHistory w' = runHistory (world p)
  /\ (forall a, a ∉ runHistory (world p) -> heap w' !! a = heap (world p) !! a)
  /\ alerts (snd result) = alerts p
  /\ (forall r, migrated u r = set_repoUrl (repoUrl (migrated u r)) r)
  /\ (forall r url repo, repoUrl r = Some url -> match_repo url = Some repo ->
        repoUrl (migrated u r) = Some ("https://github.com/" +:+ u +:+ "/" +:+ repo))
  /\ (forall r, (forall url, repoUrl r = Some url -> match_repo url = None) ->
        migrated u r = r).
Proof.
  intros Hu result w'. subst w' result.
  destruct (migrateHistoryUrls_valid u p Hu) as (H1 & H2 & H3 & H4 & _ & H5 & H6 & _).
  repeat split; try done.
  - intros r. unfold migrated. destruct (migrate_url u r) as [r'|] eqn:Hm.
    + by apply migrate_url_Some in Hm as (url & repo & _ & _ & _ & _ & ->).
    + by destruct r.
  - intros r url repo Hurl Hm. unfold migrated, migrate_url. rewrite Hurl, Hm.
    destruct url; [by rewrite match_repo_empty in Hm|done].
  - intros r Hnone. unfold migrated, migrate_url.
    destruct (repoUrl r) as [url|]; [|done].
    rewrite (Hnone url eq_refl). by destruct (JSString.is_empty url).
Qed.

Lemma migrateHistoryUrls_rewrites_witness :
  map repoUrl (history_runs (world (snd (migrateHistoryUrls (Some "octocat") Sample2.page0))))
  = [Some "https://github.com/octocat/a-project-management-tool-for-remote-teams";
     Some "https://github.com/octocat/a-project-management-tool-for-remote-teams"]
  /\ fst (migrateHistoryUrls (Some "octocat") Sample2.page0) = 2%nat.
Proof.
  destruct (migrateHistoryUrls_rewrites "octocat" Sample2.page0 eq_refl)
    as (H1 & H2 & _).
  split; [rewrite H1|rewrite H2]; reflexivity.
Defined.

(** X16.  Migrating again replaces the account name again and keeps the
    repository names: migrating to one valid name and then to another
    leaves the history as migrating to the second right away does, and all
    three migrations return the same count.  In particular migrating twice
    to the same name changes nothing the second time. *)
Theorem migrateHistoryUrls_last_wins (u1 u2 : string) (p : Page) :
  isValidGitHubUsername (Some u1) = true -> isValidGitHubUsername (Some u2) = true ->
  let first := migrateHistoryUrls (Some u1) p in
  let second := migrateHistoryUrls (Some u2) (snd first) in
  let direct := migrateHistoryUrls (Some u2) p in
  history_runs (world (snd second)) = history_runs (world (snd direct))
  /\ fst second = fst direct /\ fst first = fst direct.
Proof.
  intros Hu1 Hu2 first second direct. subst first second direct.
  destruct (migrateHistoryUrls_valid u1 p Hu1) as (A1 & A2 & _).
  destruct (migrateHistoryUrls_valid u2 (snd (migrateHistoryUrls (Some u1) p)) Hu2)
    as (B1 & B2 & _).
  destruct (migrateHistoryUrls_valid u2 p Hu2) as (C1 & C2 & _).
  rewrite B1, B2, C1, C2, A1, A2. split; [|split].
  - rewrite map_map. apply map_ext. intros r. by apply migrated_migrated.
  - by rewrite omap_migrate_url_migrated.
  - apply length_omap_migrate_url.
Qed.

Lemma migrateHistoryUrls_last_wins_witness :
  fst (migrateHistoryUrls (Some "octocat")
         (snd (migrateHistoryUrls (Some "jd-bot") Sample2.page0))) = 2%nat.
Proof.
  destruct (migrateHistoryUrls_last_wins "jd-bot" "octocat" Sample2.page0 eq_refl eq_refl)
    as (_ & H & _).
  rewrite H. reflexivity.
Defined.


Lemma migrateHistoryUrls_view (u : string) (p : Page) :
  isValidGitHubUsername (Some u) = true ->
  history_view_active (snd (migrateHistoryUrls (Some u) p)) = history_view_active p
  /\ history_list (snd (migrateHistoryUrls (Some u) p)) = history_list p.
Proof.
  intros Hu. unfold migrateHistoryUrls. rewrite Hu. cbn [negb].
  by destruct (fold_left _ _ _).
Qed.

(** X17.  The migrate button.  Without a name in the form it asks for one
    and does nothing else.  With a name that is no valid account name it
    shows two alerts, that the name is not valid and then that no entry
    needed migration, and changes nothing.  With a valid name it migrates
    the history and reports the count, or that no entry needed migration when
    the count is 0; the history view is redrawn, newest run first, only when
    entries were rewritten while it is the active view. *)
Theorem migrateHistory_alerts (p : Page) :
  let username := JSString.trim (github_username (form p)) in
  let p' := migrateHistory p in
  (username = "" ->
   p' = alert "Please enter your GitHub username above first, then click this button." p)
  /\ (username <> "" -> isValidGitHubUsername (Some username) = false ->
      p' = alert "No history entries needed migration."
             (alert "Please enter a valid GitHub username first." p))
  /\ (isValidGitHubUsername (Some username) = true ->
      let n := length (omap (migrate_url username) (history_runs (world p))) in
      history_runs (world p') = map (migrated username) (history_runs (world p))
      /\ alerts p'
         = alerts p
           ++ [if (0 <? n)%nat
               then "Successfully updated " +:+ JSNumber.dec (Z.of_nat n)
                    +:+ " history entries to use username: " +:+ username
               else "No history entries needed migration."]
      /\ history_list p'
         = if (0 <? n)%nat && history_view_active p
           then rev (history_runs (world p')) else history_list p).
Proof.
  intros username p'. subst p'. unfold migrateHistory. fold username.
  split; [|split].
  - by intros ->.
  - intros Hne Hinv. destruct username as [|c s] eqn:Hu; [done|].
    cbn [JSString.is_empty]. unfold migrateHistoryUrls. rewrite Hinv. reflexivity.
  - intros Hvalid.
    set (n := length (omap (migrate_url username) (history_runs (world p)))).
    assert (JSString.is_empty username = false) as ->.
    { destruct username; [|done]. discriminate Hvalid. }
    destruct (migrateHistoryUrls_valid username p Hvalid)
      as (H1 & H2 & _ & _ & _ & _ & H3 & _).
    destruct (migrateHistoryUrls_view username p Hvalid) as [H4 H5].
    destruct (migrateHistoryUrls (Some username) p) as [count p1].
    cbn [fst snd] in *. subst count. fold n.
    destruct (0 <? n)%nat.
    + cbn [alert history_view_active]. rewrite H4.
      destruct (history_view_active p); cbn; by rewrite ?H1, ?H3, ?H5.
    + cbn. by rewrite H1, H3, H5.
Qed.

Lemma migrateHistory_alerts_witness :
  alerts (migrateHistory Sample2.page0)
  = ["Successfully updated 2 history entries to use username: octocat"].
Proof.
  destruct (migrateHistory_alerts Sample2.page0) as (_ & _ & H).
  destruct (H eq_refl) as (_ & Ha & _).
  rewrite Ha. reflexivity.
Defined.


(** ** The settings form *)

(** X18.  Saving and reloading the settings form.  What was typed is what
    the form shows when it is loaded again, and it is what the store holds.
    Opening the form on any settings and saving it unchanged keeps every
    decision a run takes from the settings: whether repositories are
    private, whether the account name is valid, whether a token and a key
    are set, and the texts sent to the backend. *)
Theorem settings_form_round_trip (p : Page) :
  form (loadSettingsForm (saveSettings p)) = form p
  /\ settings (world (loadSettings (saveSettings p))) = settings (world (saveSettings p))
  /\ let s := settings (world p) in
     let s' := settings (world (saveSettings (loadSettingsForm p))) in
     wants_private s' = wants_private s
     /\ isValidGitHubUsername (githubUsername s') = isValidGitHubUsername (githubUsername s)
     /\ truthy_str (githubToken s') = truthy_str (githubToken s)
     /\ truthy_str (geminiKey s') = truthy_str (geminiKey s)
     /\ str_or (geminiKey s') "" = str_or (geminiKey s) ""
     /\ str_or (githubToken s') "" = str_or (githubToken s) ""
     /\ str_or (githubUsername s') "" = str_or (githubUsername s) ""
     /\ settings (world (saveSettings (loadSettingsForm (saveSettings (loadSettingsForm p)))))
        = s'.
Proof.
  destruct p as [w f al act hl]. destruct f as [gk gt gu ak pr].
  destruct w as [d h c rh sh st sst au so ti lo].
  destruct st as [k t u a' pv].
  cbn. split; [|split; [done|]].
  { f_equal; try by (unfold str_or; cbn; apply or_else_empty).
    unfold wants_private. cbn. by destruct pr. }
  unfold wants_private, isValidGitHubUsername, truthy_str, str_or. cbn.
  rewrite !or_else_empty.
  repeat split.
  - by destruct pv as [[]|].
  - destruct u as [[|? ?]|]; done.
  - destruct t as [[|? ?]|]; done.
  - destruct k as [[|? ?]|]; done.
  - by destruct pv as [[]|].
Qed.

(** ** Resetting the page *)

(** X19.  Starting over.  The reset empties the two inputs, hides the
    progress, results and preview sections, puts every step element back to
    Pending and the progress bar to 0, and touches nothing else: the
    current run, the run objects, the history, the settings and the
    dashboard stay, and nothing is logged.  A start right after it is turned
    away for want of an idea. *)
Theorem resetRun_clears_the_page (env : Env) (w : World) :
  let w1 := exec resetRun w in
  fst (resetRun w) = Ok tt
  /\ idea_input (dom w1) = "" /\ tech_preferences (dom w1) = ""
  /\ overall_progress (dom w1) = Percent 0
  /\ current_status (dom w1) = StatusText "Ready to start..."
  /\ (forall id, In id step_elements -> steps (dom w1) !! id = Some ("pending", "Pending"))
  /\ (forall id, In id ["progress-section"; "results-section"; "prd-preview-section"] ->
        display (dom w1) !! id = Some false)
  /\ currentRun w1 = currentRun w /\ heap w1 = heap w
  /\ runHistory w1 = runHistory w /\ storedHistory w1 = storedHistory w
  /\ settings w1 = settings w /\ dashboard (dom w1) = dashboard (dom w)
  /\ log w1 = log w
  /\ Sse.startRunWithSSE env w1 = (Ok tt, with_log (log w1 ++ [missing_input]) w1).
Proof.
  destruct w as [d ? ? ? ? ? ? ? ? ? ?]. destruct d. cbn.
  repeat split.
  - intros id Hid. cbn in Hid.
    repeat (destruct Hid as [<-|Hid];
            [by repeat first [rewrite lookup_insert_eq | rewrite lookup_insert_ne by done]|]).
    done.
  - intros id Hid. cbn in Hid.
    repeat (destruct Hid as [<-|Hid];
            [by repeat first [rewrite lookup_insert_eq | rewrite lookup_insert_ne by done]|]).
    done.
Qed.


(** ** The skills of a job description *)

Arguments Skills.properCase : simpl never.
Arguments Skills.includes : simpl never.

Lemma fold_collect {A B} (p : A -> bool) (f : A -> B) (l : list A) (acc : list B) :
  fold_left (fun acc k => if p k then acc ++ [f k] else acc) l acc
  = acc ++ map f (List.filter p l).
Proof.
  revert acc; induction l as [|k l IH]; intros acc; cbn [fold_left List.filter].
  - by rewrite app_nil_r.
  - rewrite IH. destruct (p k); [|done]. cbn [map]. by rewrite <- app_assoc.
Qed.

Lemma found_filter (jd : string) :
  Skills.found jd
  = List.filter (fun k => Skills.includes k (JSString.toLowerCase jd)) Skills.TECH_KEYWORDS.
Proof.
  unfold Skills.found. cbv zeta. generalize Skills.TECH_KEYWORDS. intros keywords.
  rewrite (fold_collect (fun k => Skills.includes k (JSString.toLowerCase jd)) (fun k => k)).
  by rewrite map_id.
Qed.

(** The spelling [properCase] gives each keyword of the list, and the
    keyword read back from it. *)
Lemma properCase_keywords :
  map (fun k => (k, Skills.properCase k)) Skills.TECH_KEYWORDS
  = map (fun s => (JSString.toLowerCase s, Some s))
      ["Python"; "JavaScript"; "Java"; "C++"; "C#"; "Go"; "Rust"; "Ruby"; "Php";
       "React"; "Angular"; "Vue"; "Node.js"; "Express"; "Django"; "Flask"; "Fastapi";
       "AWS"; "Azure"; "GCP"; "Docker"; "Kubernetes"; "Terraform";
       "Sql"; "PostgreSQL"; "MySQL"; "MongoDB"; "Redis";
       "Git"; "CI/CD"; "Jenkins"; "Github actions";
       "Machine learning"; "Deep learning"; "AI"; "NLP"; "Computer vision";
       "Rest"; "GraphQL"; "Microservices"; "API";
       "Agile"; "Scrum"; "TDD"; "Unit testing";
       "TypeScript"; "Html"; "Css"].
Proof. vm_compute. reflexivity. Qed.

Lemma properCase_keyword_Some (k : string) :
  In k Skills.TECH_KEYWORDS ->
  exists s, Skills.properCase k = Some s /\ JSString.toLowerCase s = k.
Proof.
  intros Hk.
  apply (in_map (fun k => (k, Skills.properCase k))) in Hk.
  rewrite properCase_keywords in Hk.
  apply in_map_iff in Hk as (s & [= Hl Hp] & _). by exists s.
Qed.

Lemma properCase_keyword_inj (k1 k2 : string) (s : string) :
  In k1 Skills.TECH_KEYWORDS -> In k2 Skills.TECH_KEYWORDS ->
  Skills.properCase k1 = Some s -> Skills.properCase k2 = Some s -> k1 = k2.
Proof.
  intros H1 H2 E1 E2.
  destruct (properCase_keyword_Some k1 H1) as (s1 & F1 & <-).
  destruct (properCase_keyword_Some k2 H2) as (s2 & F2 & <-).
  congruence.
Qed.


Lemma existsb_eqb_In (s : string) (l : list string) :
  existsb (String.eqb s) l = true <-> In s l.
Proof.
  rewrite existsb_exists. split.
  - intros (x & Hx & ->%String.eqb_eq). done.
  - intros Hs. exists s. by rewrite String.eqb_refl.
Qed.

Lemma distinct_fold (l seen : list string) :
  NoDup seen ->
  let r := fold_left
             (fun seen s => if existsb (String.eqb s) seen then seen else seen ++ [s])
             l seen in
  NoDup r /\ (forall s, In s r <-> In s seen \/ In s l)
  /\ (NoDup (seen ++ l) -> r = seen ++ l).
Proof.
  revert seen; induction l as [|x l IH]; intros seen Hseen; cbn [fold_left].
  - split; [done|]. split; [intros s; cbn; tauto|]. by rewrite app_nil_r.
  - destruct (existsb (String.eqb x) seen) eqn:Hx.
    + apply existsb_eqb_In in Hx.
      destruct (IH seen Hseen) as (H1 & H2 & H3).
      split; [done|]. split.
      * intros s. rewrite H2. cbn. split; [tauto|]. intros [?|[<-|?]]; tauto.
      * intros Hnd. exfalso. apply NoDup_app in Hnd as (_ & Hd & _).
        apply (Hd x); [by apply list_elem_of_In|]. by left.
    + assert (~ In x seen) as Hnx.
      { intros Hin%existsb_eqb_In. congruence. }
      assert (NoDup (seen ++ [x])) as Hnd'.
      { apply NoDup_app. split; [done|]. split; [|apply NoDup_singleton].
        intros y Hy ->%list_elem_of_singleton. by apply Hnx, list_elem_of_In. }
      destruct (IH (seen ++ [x]) Hnd') as (H1 & H2 & H3).
      split; [done|]. split.
      * intros s. rewrite H2, in_app_iff. cbn. tauto.
      * intros Hnd. rewrite <- app_assoc in H3. by apply H3.
Qed.

Lemma distinct_spec (l : list string) :
  NoDup (Skills.distinct l) /\ (forall s, In s (Skills.distinct l) <-> In s l)
  /\ (NoDup l -> Skills.distinct l = l).
Proof.
  destruct (distinct_fold l [] NoDup_nil_2) as (H1 & H2 & H3).
  split; [done|]. split; [|done]. intros s. rewrite H2. cbn. tauto.
Qed.

Lemma insert_Permutation (s : string) (l : list string) :
  Permutation (Skills.insert s l) (s :: l).
Proof.
  induction l as [|x l IH]; cbn; [done|].
  destruct (String.leb s x); [done|]. rewrite IH. apply perm_swap.
Qed.

Lemma sort_Permutation (l : list string) : Permutation (Skills.sort l) l.
Proof.
  induction l as [|x l IH]; cbn; [done|].
  fold (Skills.sort l). by rewrite insert_Permutation, IH.
Qed.

Lemma insert_Sorted (s : string) (l : list string) :
  Sorted (fun a b => String.leb a b = true) l ->
  Sorted (fun a b => String.leb a b = true) (Skills.insert s l).
Proof.
  induction 1 as [|x l Hl IH Hhd]; cbn; [by repeat constructor|].
  destruct (String.leb s x) eqn:Hsx.
  - constructor; [by constructor|]. by constructor.
  - constructor; [done|].
    assert (String.leb x s = true) as Hxs
      by (destruct (String.leb_total s x); congruence).
    destruct l as [|y l]; cbn; [by constructor|].
    destruct (String.leb s y); constructor; [done|]. by inversion Hhd.
Qed.

Lemma sort_Sorted (l : list string) :
  Sorted (fun a b => String.leb a b = true) (Skills.sort l).
Proof.
  induction l as [|x l IH]; cbn; [constructor|]. by apply insert_Sorted.
Qed.

Lemma Sorted_strict (l : list string) :
  Sorted (fun a b => String.leb a b = true) l -> NoDup l ->
  Sorted (fun a b => String.ltb a b = true) l.
Proof.
  induction 1 as [|x l Hl IH Hhd]; intros Hnd; [constructor|].
  apply NoDup_cons in Hnd as [Hx Hnd]. constructor; [by apply IH|].
  destruct Hhd as [|y l Hxy]; constructor.
  unfold String.leb in Hxy. unfold String.ltb.
  destruct (String.compare x y) eqn:Hc; try done.
  apply String.compare_eq_iff in Hc as ->. exfalso. apply Hx. by left.
Qed.

Lemma mapM_Some {A} (l : list A) : mapM (fun s : option A => s) (map Some l) = Some l.
Proof. induction l as [|x l IH]; [done|]. cbn. by rewrite IH. Qed.

Lemma filter_map_pairs {A B} (p : A -> bool) (f : A -> B) (l : list A) :
  map f (List.filter p l)
  = map snd (List.filter (fun kv => p (fst kv)) (map (fun k => (k, f k)) l)).
Proof.
  induction l as [|k l IH]; cbn; [done|]. destruct (p k); cbn; by rewrite IH.
Qed.

Lemma lower_char_idem (c : ascii) :
  JSString.lower_char (JSString.lower_char c) = JSString.lower_char c.
Proof. by_cases_on_char c. Qed.

Lemma toLowerCase_idem (s : string) :
  JSString.toLowerCase (JSString.toLowerCase s) = JSString.toLowerCase s.
Proof. induction s as [|c s IH]; [done|]. cbn. by rewrite lower_char_idem, IH. Qed.

Lemma NoDup_List_filter {A} (p : A -> bool) (l : list A) :
  NoDup l -> NoDup (List.filter p l).
Proof.
  induction 1 as [|x l Hx Hl IH]; cbn; [constructor|].
  destruct (p x); [|done]. constructor; [|done].
  intros Hin%list_elem_of_In%filter_In. apply Hx, list_elem_of_In. tauto.
Qed.

Lemma all_distinct_NoDup (l : list string) : Skills.all_distinct l = true -> NoDup l.
Proof.
  induction l as [|x l IH]; cbn; [constructor|].
  intros [Hx Hl]%andb_prop. constructor; [|by apply IH].
  intros Hin%list_elem_of_In%existsb_eqb_In. by rewrite Hin in Hx.
Qed.

Lemma keywords_NoDup : NoDup Skills.TECH_KEYWORDS.
Proof. apply all_distinct_NoDup. vm_compute. reflexivity. Qed.

(** The spellings of keywords of the list, and the keywords read back. *)
Lemma spelled_keywords (l : list string) :
  Forall (fun k => In k Skills.TECH_KEYWORDS) l ->
  map Skills.properCase l = map Some (omap Skills.properCase l)
  /\ map JSString.toLowerCase (omap Skills.properCase l) = l.
Proof.
  induction 1 as [|k l Hk _ [IH1 IH2]]; [done|].
  destruct (properCase_keyword_Some k Hk) as (s & Hs & Hl).
  assert (omap Skills.properCase (k :: l) = s :: omap Skills.properCase l) as ->.
  { change (omap Skills.properCase (k :: l))
      with (match Skills.properCase k with
            | Some y => y :: omap Skills.properCase l
            | None => omap Skills.properCase l
            end).
    rewrite Hs. reflexivity. }
  cbn [map]. rewrite Hs, IH1, IH2, Hl. split; reflexivity.
Qed.

Lemma found_keywords (jd : string) :
  Forall (fun k => In k Skills.TECH_KEYWORDS) (Skills.found jd)
  /\ NoDup (Skills.found jd)
  /\ forall k, In k (Skills.found jd)
              <-> In k Skills.TECH_KEYWORDS
                  /\ Skills.includes k (JSString.toLowerCase jd) = true.
Proof.
  rewrite found_filter. split; [|split].
  - apply Forall_forall. intros k Hk%list_elem_of_In. by apply filter_In in Hk as [? _].
  - apply NoDup_List_filter, keywords_NoDup.
  - intros k. rewrite filter_In. reflexivity.
Qed.

Lemma NoDup_map_back {A B} (f : A -> B) (l : list A) : NoDup (map f l) -> NoDup l.
Proof.
  induction l as [|x l IH]; cbn; [constructor|].
  intros [Hx Hl]%NoDup_cons. constructor; [|by apply IH].
  intros Hin. apply Hx. apply list_elem_of_In, in_map. by apply list_elem_of_In.
Qed.

Lemma extractSkills_found (jd : string) :
  Skills.extractSkills jd
  = (fun skills => Skills.sort (Skills.distinct skills))
      <$> mapM (fun s : option string => s) (map Skills.properCase (Skills.found jd)).
Proof.
  unfold Skills.extractSkills, Skills.found. cbv zeta.
  generalize Skills.TECH_KEYWORDS. intros keywords.
  rewrite (fold_collect (fun k => Skills.includes k (JSString.toLowerCase jd))
             Skills.properCase).
  rewrite (fold_collect (fun k => Skills.includes k (JSString.toLowerCase jd)) (fun k => k)).
  rewrite map_id. reflexivity.
Qed.

Lemma found_lower (jd : string) : Skills.found (JSString.toLowerCase jd) = Skills.found jd.
Proof. unfold Skills.found. by rewrite toLowerCase_idem. Qed.

(** What [extractSkills] returns. *)
Lemma extractSkills_facts (jd : string) :
  exists skills,
    Skills.extractSkills jd = Some skills
    /\ Sorted (fun a b => String.ltb a b = true) skills
    /\ (forall s, In s skills
                  <-> exists k, In k Skills.TECH_KEYWORDS
                        /\ Skills.includes k (JSString.toLowerCase jd) = true
                        /\ Skills.properCase k = Some s)
    /\ length skills = length (Skills.found jd)
    /\ Permutation (map JSString.toLowerCase skills) (Skills.found jd)
    /\ Skills.extractSkills (JSString.toLowerCase jd) = Some skills.
Proof.
  destruct (found_keywords jd) as (Hkw & Hnd & Hin).
  destruct (spelled_keywords (Skills.found jd) Hkw) as [Hsp Hlow].
  remember (omap Skills.properCase (Skills.found jd)) as spelled eqn:Hspelled.
  assert (NoDup spelled) as Hnds.
  { apply (NoDup_map_back JSString.toLowerCase). rewrite Hlow. exact Hnd. }
  assert (Skills.extractSkills jd = Some (Skills.sort spelled)) as Hex.
  { rewrite extractSkills_found, Hsp, mapM_Some.
    destruct (distinct_spec spelled) as (_ & _ & Hd).
    change (Some (Skills.sort (Skills.distinct spelled)) = Some (Skills.sort spelled)).
    rewrite (Hd Hnds). reflexivity. }
  exists (Skills.sort spelled). split; [exact Hex|].
  pose proof (sort_Permutation spelled) as Hperm.
  split; [|split; [|split; [|split]]].
  - apply Sorted_strict; [apply sort_Sorted|]. rewrite Hperm. exact Hnds.
  - intros s. split.
    + intros Hs. apply (Permutation_in _ Hperm) in Hs. rewrite Hspelled in Hs.
      apply list_elem_of_In, list_elem_of_omap in Hs as (k & Hk%list_elem_of_In & Hp).
      destruct (proj1 (Hin k) Hk) as [Hk' Hinc].
      exists k. split; [exact Hk'|]. split; [exact Hinc|exact Hp].
    + intros (k & Hk & Hinc & Hp).
      apply (Permutation_in _ (Permutation_sym Hperm)). rewrite Hspelled.
      apply list_elem_of_In, list_elem_of_omap. exists k. split; [|exact Hp].
      apply list_elem_of_In. apply (proj2 (Hin k)). split; [exact Hk|exact Hinc].
  - rewrite (Permutation_length Hperm).
    transitivity (length (map JSString.toLowerCase spelled));
      [rewrite length_map; reflexivity|rewrite Hlow; reflexivity].
  - rewrite <- Hlow. apply Permutation_map. exact Hperm.
  - rewrite extractSkills_found, found_lower, <- extractSkills_found. exact Hex.
Qed.

(** X20.  The skills of a job description are the spellings of the keywords
    its lower-case form holds, each once, in the order of their code units:
    every skill is the spelling of a keyword found, every keyword found has
    its spelling among the skills, there are as many skills as keywords
    found, and putting the skills in lower case gives the keywords found
    back.  Capitals in the job description make no difference. *)
Theorem extractSkills_spells_the_keywords (jd : string) :
  exists skills,
    Skills.extractSkills jd = Some skills
    /\ Sorted (fun a b => String.ltb a b = true) skills
    /\ (forall s, In s skills
                  <-> exists k, In k Skills.TECH_KEYWORDS
                        /\ Skills.includes k (JSString.toLowerCase jd) = true
                        /\ Skills.properCase k = Some s)
    /\ length skills = length (Skills.found jd)
    /\ Permutation (map JSString.toLowerCase skills) (Skills.found jd)
    /\ Skills.extractSkills (JSString.toLowerCase jd) = Some skills.
Proof. exact (extractSkills_facts jd). Qed.

Lemma prefix_append (k s : string) :
  String.prefix k s = true <-> exists post, s = k +:+ post.
Proof.
  revert s; induction k as [|c k IH]; intros s; cbn.
  - split; [intros _; by exists s|by destruct s].
  - destruct s as [|d s]; [split; [done|intros (post & H); discriminate H]|].
    cbn [String.prefix]. destruct (ascii_dec c d) as [->|Hne].
    + rewrite IH. split; intros (post & H); exists post.
      * by rewrite append_cons, H.
      * rewrite append_cons in H. by injection H.
    + split; [done|]. intros (post & H). rewrite append_cons in H.
      injection H as H _. by destruct Hne.
Qed.

Lemma includes_cons (k : string) (c : ascii) (s : string) :
  Skills.includes k (String c s) = String.prefix k (String c s) || Skills.includes k s.
Proof. reflexivity. Qed.

Lemma includes_empty (k : string) : Skills.includes k "" = String.prefix k "" || false.
Proof. reflexivity. Qed.

Lemma includes_append (k s : string) :
  Skills.includes k s = true <-> exists pre post, s = pre +:+ k +:+ post.
Proof.
  induction s as [|c s IH].
  - rewrite includes_empty, orb_false_r, prefix_append. split.
    + intros (post & H). by exists "", post.
    + intros (pre & post & H). destruct pre; [by exists post|done].
  - rewrite includes_cons, orb_true_iff, prefix_append, IH. split.
    + intros [(post & H)|(pre & post & H)].
      * by exists "", post.
      * exists (String c pre), post. by rewrite append_cons, H.
    + intros (pre & post & H). destruct pre as [|x pre].
      * left. by exists post.
      * right. rewrite append_cons in H. injection H as _ ->. by exists pre, post.
Qed.

Lemma includes_trans (a b s : string) :
  Skills.includes a b = true -> Skills.includes b s = true -> Skills.includes a s = true.
Proof.
  intros (p1 & q1 & ->)%includes_append (p2 & q2 & ->)%includes_append.
  apply includes_append. exists (p2 +:+ p1), (q1 +:+ q2).
  by rewrite !append_assoc.
Qed.

(** X21.  A keyword is found wherever its letters stand, inside words and
    inside other keywords: when the job description holds a keyword, every
    keyword of the list that occurs within that keyword is among the skills
    too, java with javascript, sql with mysql and postgresql, go with mongodb
    and django, git with github actions, api with fastapi. *)
Theorem keyword_inside_keyword_is_a_skill (jd k1 k2 : string) :
  In k1 Skills.TECH_KEYWORDS ->
  Skills.includes k1 k2 = true ->
  Skills.includes k2 (JSString.toLowerCase jd) = true ->
  exists skills s,
    Skills.extractSkills jd = Some skills /\ Skills.properCase k1 = Some s /\ In s skills.
Proof.
  intros Hk1 H12 H2.
  destruct (extractSkills_facts jd) as (skills & Hex & _ & Hin & _).
  destruct (properCase_keyword_Some k1 Hk1) as (s & Hs & _).
  exists skills, s. split; [exact Hex|]. split; [exact Hs|].
  apply (proj2 (Hin s)). exists k1. split; [exact Hk1|]. split; [|exact Hs].
  by apply (includes_trans k1 k2).
Qed.

Lemma keyword_inside_keyword_is_a_skill_witness :
  exists skills,
    Skills.extractSkills "Experience with MongoDB required" = Some skills /\ In "Go" skills.
Proof.
  assert (In "go" Skills.TECH_KEYWORDS) as Hk by (vm_compute; tauto).
  destruct (keyword_inside_keyword_is_a_skill "Experience with MongoDB required"
              "go" "mongodb" Hk eq_refl eq_refl)
    as (skills & s & Hex & Hs & Hin).
  exists skills. split; [exact Hex|].
  assert (s = "Go") as <- by (vm_compute in Hs; congruence).
  exact Hin.
Defined.

Lemma length_filter_Permutation {A} (p : A -> bool) (l l' : list A) :
  Permutation l l' -> length (List.filter p l) = length (List.filter p l').
Proof.
  induction 1 as [|x l l' _ IH|x y l|l l' l'' _ IH1 _ IH2]; cbn.
  - done.
  - destruct (p x); cbn; by rewrite IH.
  - by destruct (p x), (p y).
  - by rewrite IH1.
Qed.

Lemma two_members {A} (l : list A) (a b : A) :
  In a l -> In b l -> a <> b -> (2 <= length l)%nat.
Proof.
  destruct l as [|x [|y l]]; cbn; [tauto| |lia].
  intros [<-|[]] [<-|[]]. done.
Qed.

(** X22.  Two of the keywords python, machine learning, deep learning, ai
    and nlp in a job description make its project a data project, and ai
    counts wherever the two letters stand: the category of the skills
    extracted is the data category, and an idea generated for them, when
    there is one, is one of the two data templates. *)
Theorem two_ml_keywords_make_a_data_project (jd k1 k2 : string) :
  In k1 ["python"; "machine learning"; "deep learning"; "ai"; "nlp"] ->
  In k2 ["python"; "machine learning"; "deep learning"; "ai"; "nlp"] ->
  k1 <> k2 ->
  Skills.includes k1 (JSString.toLowerCase jd) = true ->
  Skills.includes k2 (JSString.toLowerCase jd) = true ->
  exists skills,
    Skills.extractSkills jd = Some skills
    /\ Skills.category_of skills = Skills.Data
    /\ forall random t,
         Skills.generateProjectIdea random skills = Some t -> In t Skills.data_templates.
Proof.
  intros Hm1 Hm2 Hne H1 H2.
  destruct (extractSkills_facts jd) as (skills & Hex & _ & _ & _ & Hperm & _).
  destruct (found_keywords jd) as (_ & _ & Hfound).
  exists skills. split; [exact Hex|].
  set (ml := ["python"; "machine learning"; "deep learning"; "ai"; "nlp"]) in *.
  set (p := fun s : string => existsb (String.eqb s) ml).
  assert (forall k, In k ml -> In k Skills.TECH_KEYWORDS) as Hsub.
  { intros k Hk. subst ml. cbn [In] in Hk.
    repeat (destruct Hk as [<-|Hk]; [vm_compute; tauto|]). done. }
  assert (forall k, In k ml -> Skills.includes k (JSString.toLowerCase jd) = true ->
                    In k (List.filter p (Skills.found jd))) as Hin.
  { intros k Hk Hinc. apply filter_In. split.
    - apply (proj2 (Hfound k)). split; [by apply Hsub|exact Hinc].
    - subst p. cbv beta. by apply existsb_eqb_In. }
  assert (Skills.category_of skills = Skills.Data) as Hcat.
  { unfold Skills.category_of. cbv zeta. fold ml. unfold Skills.count_in at 1. fold p.
    rewrite (length_filter_Permutation p _ _ Hperm).
    pose proof (two_members _ k1 k2 (Hin k1 Hm1 H1) (Hin k2 Hm2 H2) Hne) as Hlen.
    apply Nat.leb_le in Hlen. by rewrite Hlen. }
  split; [exact Hcat|].
  intros random t. unfold Skills.generateProjectIdea. rewrite Hcat. cbn [Skills.PROJECT_TEMPLATES].
  destruct (Skills.floor_index _) as [i|]; [|done].
  intros Ht. apply list_elem_of_In. by apply (list_elem_of_lookup_2 _ i).
Qed.

Lemma two_ml_keywords_make_a_data_project_witness :
  exists skills,
    Skills.extractSkills "We maintain Python services" = Some skills
    /\ Skills.category_of skills = Skills.Data.
Proof.
  assert (In "python" ["python"; "machine learning"; "deep learning"; "ai"; "nlp"]) as H1
    by (vm_compute; tauto).
  assert (In "ai" ["python"; "machine learning"; "deep learning"; "ai"; "nlp"]) as H2
    by (vm_compute; tauto).
  assert ("python" <> "ai") as Hne by discriminate.
  destruct (two_ml_keywords_make_a_data_project "We maintain Python services" "python" "ai"
              H1 H2 Hne eq_refl eq_refl)
    as (skills & Hex & Hcat & _).
  exists skills. split; [exact Hex|exact Hcat].
Defined.
